(** * San Andreas: The Definitive Edition Demake -- world state, turn engine
    and persistence

    A shallow embedding of [SanAndreasTheDefinitiveEditionDemake.py]
    (version 2.0.2).  Python objects live in an explicit heap and are
    referred to by their identity ([oid]); every method that mutates an
    object rewrites its heap cell, so aliases (the player held by the map,
    by the game and by a vehicle's [occupant]) see the same state.
    Exceptions, console input, the random source and the save file are
    threaded through a state-and-exception monad. *)

From Stdlib Require Import ZArith QArith Lia Ascii String DecimalString.
From stdpp Require Import base list strings.

Open Scope Z_scope.

(** ** Python values that cross the persistence boundary *)

(** What [json.dump] writes and [json.load] returns.  Tuples are written as
    arrays, [None] as [JNull]; ints and floats stay apart. *)
#[local] Unset Elimination Schemes.
Inductive json :=
| JNull
| JBool (b : bool)
| JInt (z : Z)
| JFloat (q : Q)
| JStr (s : string)
| JArr (l : list json)
| JObj (fields : list (string * json)).
#[local] Set Elimination Schemes.

(** The exception classes the program can meet.  All of them derive from
    [Exception]. *)
Inductive Exn :=
| TypeError
| KeyError (key : string)
| AttributeError
| IndexError
| ValueError
| EOFError
| FileNotFoundError
| JSONDecodeError
| OSError.

(** A Python dict with string keys: insertion ordered, assignment to an
    existing key keeps its place. *)
Definition dict (V : Type) := list (string * V).

Fixpoint dict_get {V} (d : dict V) (k : string) : option V :=
  match d with
  | [] => None
  | (k', v) :: d' => if String.eqb k' k then Some v else dict_get d' k
  end.

Fixpoint dict_set {V} (d : dict V) (k : string) (v : V) : dict V :=
  match d with
  | [] => [(k, v)]
  | (k', v') :: d' =>
      if String.eqb k' k then (k', v) :: d' else (k', v') :: dict_set d' k v
  end.

Fixpoint dict_del {V} (d : dict V) (k : string) : dict V :=
  match d with
  | [] => []
  | (k', v') :: d' => if String.eqb k' k then d' else (k', v') :: dict_del d' k
  end.

Definition dict_values {V} (d : dict V) : list V := map snd d.

(** ** Constants *)

Definition MAP_WIDTH : Z := 80.
Definition MAP_HEIGHT : Z := 25.
Definition VISION_RADIUS : Z := 8.
Definition MAX_WANTED_LEVEL : Z := 5.

(** colorama escape sequences *)
Definition ESC : string := String (ascii_of_nat 27) "[".
Definition Fore_RED : string := ESC ++ "31m".
Definition Fore_GREEN : string := ESC ++ "32m".
Definition Fore_YELLOW : string := ESC ++ "33m".
Definition Fore_BLUE : string := ESC ++ "34m".
Definition Fore_MAGENTA : string := ESC ++ "35m".
Definition Fore_CYAN : string := ESC ++ "36m".
Definition Fore_WHITE : string := ESC ++ "37m".
Definition Style_RESET_ALL : string := ESC ++ "0m".

Definition PLAYER_CHAR : string := Fore_CYAN ++ "C" ++ Style_RESET_ALL.
Definition NPC_CHAR : string := Fore_BLUE ++ "N" ++ Style_RESET_ALL.
Definition BIG_SMOKE_CHAR0 : string := Fore_MAGENTA ++ "B" ++ Style_RESET_ALL.
Definition BIG_SMOKE_CHAR1 : string := Fore_MAGENTA ++ "S" ++ Style_RESET_ALL.
Definition ITEM_CHAR : string := Fore_YELLOW ++ "I" ++ Style_RESET_ALL.
Definition SHOP_CHAR : string := Fore_GREEN ++ "S" ++ Style_RESET_ALL.
Definition ENEMY_CHAR : string := Fore_RED ++ "E" ++ Style_RESET_ALL.
Definition VEHICLE_CHAR : string := Fore_WHITE ++ "V" ++ Style_RESET_ALL.
Definition POLICE_CHAR : string := Fore_BLUE ++ "P" ++ Style_RESET_ALL.

(** [clamp(value, min_value, max_value)] on ints, and on the numbers that
    may be floats (stamina). *)
Definition clamp (value min_value max_value : Z) : Z :=
  Z.max min_value (Z.min value max_value).

Definition Qmin' (a b : Q) : Q := if Qle_bool b a then b else a.
Definition Qmax' (a b : Q) : Q := if Qle_bool a b then b else a.
Definition clampQ (value min_value max_value : Q) : Q :=
  Qmax' min_value (Qmin' value max_value).

(** ** The class hierarchy as records *)

(** Object identity: the position of the object in the heap. *)
Definition oid := nat.

Record GameObject := mkGameObject {
  x : Z;
  y : Z;
  char : string;
  name : string
}.

Record Character := mkCharacter {
  character_base :> GameObject;
  health : Z;
  max_health : Z;
  inventory : list oid;            (* references to Item objects *)
  money : Z;
  stamina : Q;                     (* int until the first driven step, float after *)
  max_stamina : Q;
  current_weapon : option oid      (* reference to a Weapon in the inventory *)
}.

(** The three closures of [Game._initialize_missions]. *)
Inductive objective := sweet_objective | ryder_objective | big_smoke_objective.

(** Missions are never mutated after creation; a reference to one is
    modelled by the value. *)
Record Mission := mkMission {
  mission_name : string;
  mission_description : string;
  objective_func : objective;
  reward_money : Z;
  reward_item : option oid;
  prerequisite_missions : list string
}.

Record Player := mkPlayer {
  player_base :> Character;
  discovered_map : list (list bool);   (* rows, indexed [y][x] *)
  missions_completed : list string;
  current_mission : option Mission;
  wanted_level : Z;
  hunger : Z;
  thirst : Z;
  driving_skill : Z;
  weapon_skill : Z;
  current_vehicle : option oid
}.

Record NPC := mkNPC {
  npc_base :> Character;
  dialogue : string;
  mission_offered : option Mission;
  mission_completed : bool
}.

Record BigSmoke := mkBigSmoke {
  bigsmoke_base :> NPC;
  char2_x : Z;
  char2_y : Z
}.

Record Enemy := mkEnemy {
  enemy_base :> Character;
  damage : Z;
  faction : string
}.

(** The concrete class of an item together with that class's own field. *)
Inductive ItemVariant :=
| PlainItem
| Weapon (weapon_damage : Z)
| HealthPack (heal_amount : Z)
| MoneyBundle (amount : Z)
| Food (hunger_restore : Z)
| Drink (thirst_restore : Z).

Record Item := mkItem {
  item_base :> GameObject;
  description : string;
  value : Z;
  variant : ItemVariant
}.

Record Shop := mkShop {
  shop_base :> GameObject;
  shop_inventory : list (oid * Z);     (* (item, price) pairs *)
  shop_type : string
}.

Record Vehicle := mkVehicle {
  vehicle_base :> GameObject;
  vehicle_health : Z;
  vehicle_max_health : Z;
  speed : Z;
  occupant : option oid
}.

(** A heap cell: an instance of one of the concrete classes. *)
Inductive Obj :=
| OPlayer (p : Player)
| ONPC (n : NPC)
| OBigSmoke (b : BigSmoke)
| OEnemy (e : Enemy)
| OItem (i : Item)
| OShop (s : Shop)
| OVehicle (v : Vehicle).

Record GameMap := mkGameMap {
  width : Z;
  height : Z;
  objects : list oid
}.

(** The [Game] singleton. *)
Record Game := mkGame {
  game_map : GameMap;
  player : oid;
  running : bool;
  game_time : Z;
  npcs : dict oid;
  items : dict oid;
  shops : dict oid;
  enemies : dict oid;
  vehicles : dict oid;
  missions : dict Mission;
  initialized : bool
}.

(** ** The environment *)

(** One line typed at the console, with what [str.lower] and [int] make of
    it ([None] when [int] raises [ValueError]). *)
Record Line := mkLine {
  text : string;
  lower : string;
  int_value : option Z
}.

(** The save file [savegame.json] as [open]/[json.load] see it. *)
Inductive File :=
| NoFile                 (* the path does not exist *)
| Unreadable             (* open or read fails with an OSError *)
| Malformed              (* the text is not JSON *)
| Document (d : json).

(** Console lines the properties below refer to; all other output is
    left out of the model. *)
Inductive Msg :=
| MsgSaved
| MsgSaveError
| MsgLoaded (version : json)
| MsgLoadNotFound
| MsgLoadCorrupt
| MsgLoadUnexpected (e : Exn)
| MsgGameOver
| MsgQuit.

Record World := mkWorld {
  heap : list Obj;
  game : Game;
  stdin : list Line;         (* lines still to be read *)
  random_source : nat -> nat;   (* the draws of the random module, in order *)
  random_pos : nat;
  console : list Msg;        (* most recent last *)
  disk : File;
  disk_writable : bool;      (* [open(filename, 'w')] succeeds *)
  disk_full : bool           (* a write to the opened file fails *)
}.

(** ** The state-and-exception monad *)

Inductive Result (A : Type) :=
| Val (a : A) (w : World)
| Raise (e : Exn) (w : World).
Arguments Val {A} a w.
Arguments Raise {A} e w.

Definition M (A : Type) : Type := World -> Result A.

Definition ret {A} (a : A) : M A := fun w => Val a w.

Definition bind {A B} (m : M A) (f : A -> M B) : M B :=
  fun w => match m w with
           | Val a w' => f a w'
           | Raise e w' => Raise e w'
           end.

Definition raise {A} (e : Exn) : M A := fun w => Raise e w.

(** [try: body except Exception as e: handler(e)] *)
Definition try_except {A} (body : M A) (handler : Exn -> M A) : M A :=
  fun w => match body w with
           | Val a w' => Val a w'
           | Raise e w' => handler e w'
           end.

Notation "'let*' v ':=' c1 'in' c2" := (bind c1 (fun v => c2))
  (at level 10, v name, c1 at level 100, c2 at level 200).
Notation "c1 ';;' c2" := (bind c1 (fun _ => c2))
  (at level 100, c2 at level 200, right associativity).

Definition when (b : bool) (m : M unit) : M unit := if b then m else ret tt.

(** [for v in l: body(v)] *)
Fixpoint for_each {A} (l : list A) (body : A -> M unit) : M unit :=
  match l with
  | [] => ret tt
  | v :: l' => body v ;; for_each l' body
  end.

(** [[f(v) for v in l]] *)
Fixpoint map_M {A B} (f : A -> M B) (l : list A) : M (list B) :=
  match l with
  | [] => ret []
  | v :: l' => let* b := f v in let* bs := map_M f l' in ret (b :: bs)
  end.

Definition result_world {A} (r : Result A) : World :=
  match r with Val _ w => w | Raise _ w => w end.

(** ** Field updates *)

Definition set_xy (o : GameObject) (nx ny : Z) : GameObject :=
  mkGameObject nx ny (char o) (name o).
Definition set_char (o : GameObject) (c : string) : GameObject :=
  mkGameObject (x o) (y o) c (name o).

Definition with_base (c : Character) (b : GameObject) : Character :=
  mkCharacter b (health c) (max_health c) (inventory c) (money c)
    (stamina c) (max_stamina c) (current_weapon c).
Definition with_health (c : Character) (h : Z) : Character :=
  mkCharacter c h (max_health c) (inventory c) (money c)
    (stamina c) (max_stamina c) (current_weapon c).
Definition with_max_health (c : Character) (h : Z) : Character :=
  mkCharacter c (health c) h (inventory c) (money c)
    (stamina c) (max_stamina c) (current_weapon c).
Definition with_inventory (c : Character) (l : list oid) : Character :=
  mkCharacter c (health c) (max_health c) l (money c)
    (stamina c) (max_stamina c) (current_weapon c).
Definition with_money (c : Character) (m : Z) : Character :=
  mkCharacter c (health c) (max_health c) (inventory c) m
    (stamina c) (max_stamina c) (current_weapon c).
Definition with_stamina (c : Character) (s : Q) : Character :=
  mkCharacter c (health c) (max_health c) (inventory c) (money c)
    s (max_stamina c) (current_weapon c).
Definition with_max_stamina (c : Character) (s : Q) : Character :=
  mkCharacter c (health c) (max_health c) (inventory c) (money c)
    (stamina c) s (current_weapon c).
Definition with_current_weapon (c : Character) (wp : option oid) : Character :=
  mkCharacter c (health c) (max_health c) (inventory c) (money c)
    (stamina c) (max_stamina c) wp.

Definition with_character (p : Player) (c : Character) : Player :=
  mkPlayer c (discovered_map p) (missions_completed p) (current_mission p)
    (wanted_level p) (hunger p) (thirst p) (driving_skill p) (weapon_skill p)
    (current_vehicle p).
Definition with_discovered_map (p : Player) (d : list (list bool)) : Player :=
  mkPlayer p d (missions_completed p) (current_mission p)
    (wanted_level p) (hunger p) (thirst p) (driving_skill p) (weapon_skill p)
    (current_vehicle p).
Definition with_missions_completed (p : Player) (l : list string) : Player :=
  mkPlayer p (discovered_map p) l (current_mission p)
    (wanted_level p) (hunger p) (thirst p) (driving_skill p) (weapon_skill p)
    (current_vehicle p).
Definition with_current_mission (p : Player) (m : option Mission) : Player :=
  mkPlayer p (discovered_map p) (missions_completed p) m
    (wanted_level p) (hunger p) (thirst p) (driving_skill p) (weapon_skill p)
    (current_vehicle p).
Definition with_wanted_level (p : Player) (n : Z) : Player :=
  mkPlayer p (discovered_map p) (missions_completed p) (current_mission p)
    n (hunger p) (thirst p) (driving_skill p) (weapon_skill p)
    (current_vehicle p).
Definition with_hunger (p : Player) (n : Z) : Player :=
  mkPlayer p (discovered_map p) (missions_completed p) (current_mission p)
    (wanted_level p) n (thirst p) (driving_skill p) (weapon_skill p)
    (current_vehicle p).
Definition with_thirst (p : Player) (n : Z) : Player :=
  mkPlayer p (discovered_map p) (missions_completed p) (current_mission p)
    (wanted_level p) (hunger p) n (driving_skill p) (weapon_skill p)
    (current_vehicle p).
Definition with_driving_skill (p : Player) (n : Z) : Player :=
  mkPlayer p (discovered_map p) (missions_completed p) (current_mission p)
    (wanted_level p) (hunger p) (thirst p) n (weapon_skill p)
    (current_vehicle p).
Definition with_weapon_skill (p : Player) (n : Z) : Player :=
  mkPlayer p (discovered_map p) (missions_completed p) (current_mission p)
    (wanted_level p) (hunger p) (thirst p) (driving_skill p) n
    (current_vehicle p).
Definition with_current_vehicle (p : Player) (v : option oid) : Player :=
  mkPlayer p (discovered_map p) (missions_completed p) (current_mission p)
    (wanted_level p) (hunger p) (thirst p) (driving_skill p) (weapon_skill p)
    v.

Definition npc_with_character (n : NPC) (c : Character) : NPC :=
  mkNPC c (dialogue n) (mission_offered n) (mission_completed n).
Definition with_dialogue (n : NPC) (d : string) : NPC :=
  mkNPC n d (mission_offered n) (mission_completed n).
Definition with_mission_offered (n : NPC) (m : option Mission) : NPC :=
  mkNPC n (dialogue n) m (mission_completed n).
Definition with_mission_completed (n : NPC) (b : bool) : NPC :=
  mkNPC n (dialogue n) (mission_offered n) b.

Definition bigsmoke_with_npc (b : BigSmoke) (n : NPC) : BigSmoke :=
  mkBigSmoke n (char2_x b) (char2_y b).

Definition enemy_with_character (e : Enemy) (c : Character) : Enemy :=
  mkEnemy c (damage e) (faction e).

Definition item_with_base (i : Item) (b : GameObject) : Item :=
  mkItem b (description i) (value i) (variant i).

Definition shop_with_base (s : Shop) (b : GameObject) : Shop :=
  mkShop b (shop_inventory s) (shop_type s).

Definition vehicle_with_base (v : Vehicle) (b : GameObject) : Vehicle :=
  mkVehicle b (vehicle_health v) (vehicle_max_health v) (speed v) (occupant v).
Definition with_vehicle_max_health (v : Vehicle) (h : Z) : Vehicle :=
  mkVehicle v (vehicle_health v) h (speed v) (occupant v).
Definition with_occupant (v : Vehicle) (c : option oid) : Vehicle :=
  mkVehicle v (vehicle_health v) (vehicle_max_health v) (speed v) c.

Definition with_objects (m : GameMap) (l : list oid) : GameMap :=
  mkGameMap (width m) (height m) l.

Definition with_game_map (g : Game) (m : GameMap) : Game :=
  mkGame m (player g) (running g) (game_time g) (npcs g) (items g) (shops g)
    (enemies g) (vehicles g) (missions g) (initialized g).
Definition with_player (g : Game) (p : oid) : Game :=
  mkGame (game_map g) p (running g) (game_time g) (npcs g) (items g) (shops g)
    (enemies g) (vehicles g) (missions g) (initialized g).
Definition with_running (g : Game) (b : bool) : Game :=
  mkGame (game_map g) (player g) b (game_time g) (npcs g) (items g) (shops g)
    (enemies g) (vehicles g) (missions g) (initialized g).
Definition with_game_time (g : Game) (t : Z) : Game :=
  mkGame (game_map g) (player g) (running g) t (npcs g) (items g) (shops g)
    (enemies g) (vehicles g) (missions g) (initialized g).
Definition with_npcs (g : Game) (d : dict oid) : Game :=
  mkGame (game_map g) (player g) (running g) (game_time g) d (items g) (shops g)
    (enemies g) (vehicles g) (missions g) (initialized g).
Definition with_items (g : Game) (d : dict oid) : Game :=
  mkGame (game_map g) (player g) (running g) (game_time g) (npcs g) d (shops g)
    (enemies g) (vehicles g) (missions g) (initialized g).
Definition with_shops (g : Game) (d : dict oid) : Game :=
  mkGame (game_map g) (player g) (running g) (game_time g) (npcs g) (items g) d
    (enemies g) (vehicles g) (missions g) (initialized g).
Definition with_enemies (g : Game) (d : dict oid) : Game :=
  mkGame (game_map g) (player g) (running g) (game_time g) (npcs g) (items g)
    (shops g) d (vehicles g) (missions g) (initialized g).
Definition with_vehicles (g : Game) (d : dict oid) : Game :=
  mkGame (game_map g) (player g) (running g) (game_time g) (npcs g) (items g)
    (shops g) (enemies g) d (missions g) (initialized g).
Definition with_missions (g : Game) (d : dict Mission) : Game :=
  mkGame (game_map g) (player g) (running g) (game_time g) (npcs g) (items g)
    (shops g) (enemies g) (vehicles g) d (initialized g).
Definition with_initialized (g : Game) (b : bool) : Game :=
  mkGame (game_map g) (player g) (running g) (game_time g) (npcs g) (items g)
    (shops g) (enemies g) (vehicles g) (missions g) b.

Definition with_heap (w : World) (h : list Obj) : World :=
  mkWorld h (game w) (stdin w) (random_source w) (random_pos w) (console w)
    (disk w) (disk_writable w) (disk_full w).
Definition with_game (w : World) (g : Game) : World :=
  mkWorld (heap w) g (stdin w) (random_source w) (random_pos w) (console w)
    (disk w) (disk_writable w) (disk_full w).
Definition with_stdin (w : World) (l : list Line) : World :=
  mkWorld (heap w) (game w) l (random_source w) (random_pos w) (console w)
    (disk w) (disk_writable w) (disk_full w).
Definition with_random_pos (w : World) (n : nat) : World :=
  mkWorld (heap w) (game w) (stdin w) (random_source w) n (console w)
    (disk w) (disk_writable w) (disk_full w).
Definition with_console (w : World) (c : list Msg) : World :=
  mkWorld (heap w) (game w) (stdin w) (random_source w) (random_pos w) c
    (disk w) (disk_writable w) (disk_full w).
Definition with_disk (w : World) (f : File) : World :=
  mkWorld (heap w) (game w) (stdin w) (random_source w) (random_pos w)
    (console w) f (disk_writable w) (disk_full w).

(** ** Views of a heap cell along the class hierarchy *)

(** Every class derives from [GameObject]. *)
Definition obj_base (o : Obj) : GameObject :=
  match o with
  | OPlayer p => p
  | ONPC n => n
  | OBigSmoke b => b
  | OEnemy e => e
  | OItem i => i
  | OShop s => s
  | OVehicle v => v
  end.

(** [isinstance(o, Character)] with the Character part. *)
Definition obj_character (o : Obj) : option Character :=
  match o with
  | OPlayer p => Some (p : Character)
  | ONPC n => Some (n : Character)
  | OBigSmoke b => Some (b : Character)
  | OEnemy e => Some (e : Character)
  | _ => None
  end.

Definition obj_with_character (o : Obj) (c : Character) : Obj :=
  match o with
  | OPlayer p => OPlayer (with_character p c)
  | ONPC n => ONPC (npc_with_character n c)
  | OBigSmoke b => OBigSmoke (bigsmoke_with_npc b (npc_with_character b c))
  | OEnemy e => OEnemy (enemy_with_character e c)
  | _ => o
  end.

Definition obj_with_base (o : Obj) (b : GameObject) : Obj :=
  match o with
  | OItem i => OItem (item_with_base i b)
  | OShop s => OShop (shop_with_base s b)
  | OVehicle v => OVehicle (vehicle_with_base v b)
  | _ => match obj_character o with
         | Some c => obj_with_character o (with_base c b)
         | None => o
         end
  end.

(** [isinstance(o, NPC)]: true of [BigSmoke] as well. *)
Definition obj_npc (o : Obj) : option NPC :=
  match o with
  | ONPC n => Some n
  | OBigSmoke b => Some (b : NPC)
  | _ => None
  end.

Definition obj_with_npc (o : Obj) (n : NPC) : Obj :=
  match o with
  | ONPC _ => ONPC n
  | OBigSmoke b => OBigSmoke (bigsmoke_with_npc b n)
  | _ => o
  end.

Definition is_BigSmoke (o : Obj) : bool :=
  match o with OBigSmoke _ => true | _ => false end.
Definition is_Item (o : Obj) : bool :=
  match o with OItem _ => true | _ => false end.
Definition is_Enemy (o : Obj) : bool :=
  match o with OEnemy _ => true | _ => false end.
Definition is_Player (o : Obj) : bool :=
  match o with OPlayer _ => true | _ => false end.

(** ** Heap and environment primitives *)

Definition gets {A} (f : World -> A) : M A := fun w => Val (f w) w.
Definition modify (f : World -> World) : M unit := fun w => Val tt (f w).

(** Following a reference.  Python has no dangling references; one that
    leads nowhere in the model is reported as an [AttributeError]. *)
Definition deref (i : oid) : M Obj :=
  fun w => match heap w !! i with
           | Some o => Val o w
           | None => Raise AttributeError w
           end.

Definition store (i : oid) (o : Obj) : M unit :=
  modify (fun w => with_heap w (<[i := o]> (heap w))).

(** Creating an instance. *)
Definition new (o : Obj) : M oid :=
  fun w => Val (length (heap w)) (with_heap w (heap w ++ [o])).

Definition get_player (i : oid) : M Player :=
  let* o := deref i in
  match o with OPlayer p => ret p | _ => raise AttributeError end.
Definition get_character (i : oid) : M Character :=
  let* o := deref i in
  match obj_character o with Some c => ret c | None => raise AttributeError end.
Definition get_npc (i : oid) : M NPC :=
  let* o := deref i in
  match obj_npc o with Some n => ret n | None => raise AttributeError end.
Definition get_enemy (i : oid) : M Enemy :=
  let* o := deref i in
  match o with OEnemy e => ret e | _ => raise AttributeError end.
Definition get_item (i : oid) : M Item :=
  let* o := deref i in
  match o with OItem it => ret it | _ => raise AttributeError end.
Definition get_shop (i : oid) : M Shop :=
  let* o := deref i in
  match o with OShop s => ret s | _ => raise AttributeError end.
Definition get_vehicle (i : oid) : M Vehicle :=
  let* o := deref i in
  match o with OVehicle v => ret v | _ => raise AttributeError end.

(** Running a method that only touches the Character part of [self]. *)
Definition on_character {A} (self : oid) (f : Character -> Character * A) : M A :=
  let* o := deref self in
  match obj_character o with
  | Some c => store self (obj_with_character o (fst (f c))) ;; ret (snd (f c))
  | None => raise AttributeError
  end.

Definition update_player (self : oid) (f : Player -> Player) : M unit :=
  let* p := get_player self in store self (OPlayer (f p)).

Definition get_game : M Game := gets game.
Definition update_game (f : Game -> Game) : M unit :=
  modify (fun w => with_game w (f (game w))).

Definition print (m : Msg) : M unit :=
  modify (fun w => with_console w (console w ++ [m])).

(** [input(...)]: the next console line, [EOFError] at end of input. *)
Definition input : M Line :=
  fun w => match stdin w with
           | [] => Raise EOFError w
           | l :: rest => Val l (with_stdin w rest)
           end.

(** One draw from the random module. *)
Definition draw : M nat :=
  fun w => Val (random_source w (random_pos w))
               (with_random_pos w (S (random_pos w))).

(** [random.randint(a, b)] *)
Definition randint (a b : Z) : M Z :=
  let* r := draw in ret (a + Z.of_nat r mod (b - a + 1)).

Definition swap {A} (l : list A) (i j : nat) : list A :=
  match l !! i, l !! j with
  | Some a, Some b => <[i := b]> (<[j := a]> l)
  | _, _ => l
  end.

(** [random.shuffle(l)]: for i from len-1 down to 1, swap l[i] with l[j],
    j drawn below i+1. *)
Fixpoint shuffle_from {A} (i : nat) (l : list A) : M (list A) :=
  match i with
  | O => ret l
  | S i' => let* r := draw in shuffle_from i' (swap l i (r mod (S i))%nat)
  end.
Definition shuffle {A} (l : list A) : M (list A) :=
  shuffle_from (length l - 1) l.

(** [with open(filename, 'r') as f: json.load(f)] *)
Definition json_load_file : M json :=
  fun w => match disk w with
           | NoFile => Raise FileNotFoundError w
           | Unreadable => Raise OSError w
           | Malformed => Raise JSONDecodeError w
           | Document d => Val d w
           end.

(** [with open(filename, 'w') as f: json.dump(data, f, indent=4)].  When
    [open] fails the file is not touched.  When it succeeds the file is
    truncated at once, so a write that fails afterwards leaves an
    incomplete text behind, which is not JSON. *)
Definition json_dump_file (d : json) : M unit :=
  fun w => if disk_writable w then
             if disk_full w then Raise OSError (with_disk w Malformed)
             else Val tt (with_disk w (Document d))
           else Raise OSError w.

(** ** Reading parsed JSON the way the program does *)

Module Json.

(** [data[k]] *)
Definition getitem (data : json) (k : string) : M json :=
  match data with
  | JObj fields =>
      match dict_get fields k with
      | Some v => ret v
      | None => raise (KeyError k)
      end
  | _ => raise TypeError
  end.

(** [data.get(k, default)] *)
Definition get (data : json) (k : string) (default : json) : M json :=
  match data with
  | JObj fields =>
      match dict_get fields k with
      | Some v => ret v
      | None => ret default
      end
  | _ => raise AttributeError
  end.

(** [d[k] if k in d else None] for a dict [d] of the program and a parsed
    key: lists and dicts are unhashable, other non-strings are not keys. *)
Definition find {V} (k : json) (d : dict V) : M (option V) :=
  match k with
  | JStr s => ret (dict_get d s)
  | JArr _ | JObj _ => raise TypeError
  | _ => ret None
  end.

(** Truth value of a parsed value in an [if]. *)
Definition truthy (j : json) : bool :=
  match j with
  | JNull => false
  | JBool b => b
  | JInt z => negb (z =? 0)
  | JFloat q => negb (Qeq_bool q 0)
  | JStr s => negb (String.eqb s "")
  | JArr l => negb (bool_decide (l = []))
  | JObj fs => negb (bool_decide (fs = []))
  end.

(** [j == s] for a string literal [s]. *)
Definition eq_str (j : json) (s : string) : bool :=
  match j with JStr s' => String.eqb s' s | _ => false end.

Fixpoint chars (s : string) : list json :=
  match s with
  | EmptyString => []
  | String c s' => JStr (String c EmptyString) :: chars s'
  end.

(** [for v in j]: a list yields its elements, a dict its keys, a string
    its characters; anything else is not iterable. *)
Definition iterate (j : json) : M (list json) :=
  match j with
  | JArr l => ret l
  | JObj fs => ret (map (fun kv => JStr (fst kv)) fs)
  | JStr s => ret (chars s)
  | _ => raise TypeError
  end.

(** [a, b = j] *)
Definition unpack2 (j : json) : M (json * json) :=
  let* l := iterate j in
  match l with
  | [a; b] => ret (a, b)
  | _ => raise ValueError
  end.

(** [d.items()] of a parsed dict. *)
Definition dict_items (j : json) : M (list (string * json)) :=
  match j with
  | JObj fs => ret fs
  | _ => raise AttributeError
  end.

(** The records are typed.  A field of the document that does not hold
    the kind of value the program computes with is reported as a
    [TypeError] when it is stored; Python would keep it unchecked and fail
    at its first use. *)
Definition as_int (j : json) : M Z :=
  match j with JInt z => ret z | _ => raise TypeError end.
Definition as_num (j : json) : M Q :=
  match j with
  | JInt z => ret (inject_Z z)
  | JFloat q => ret q
  | _ => raise TypeError
  end.
Definition as_str (j : json) : M string :=
  match j with JStr s => ret s | _ => raise TypeError end.
Definition as_bool (j : json) : M bool :=
  match j with JBool b => ret b | _ => raise TypeError end.
Definition as_list (j : json) : M (list json) :=
  match j with JArr l => ret l | _ => raise TypeError end.

(** [d1.update(d2)] *)
Definition update (d1 d2 : dict json) : dict json :=
  fold_left (fun d kv => dict_set d (fst kv) (snd kv)) d2 d1.

Definition of_option_str (o : option string) : json :=
  match o with Some s => JStr s | None => JNull end.

End Json.

(** ** Constructors ([__init__]) *)

Definition Character_init (px py : Z) (c n : string) (h money0 : Z) (st : Q) : Character :=
  mkCharacter (mkGameObject px py c n) h h [] money0 st st None.

Definition Player_init (px py : Z) : Player :=
  mkPlayer (Character_init px py PLAYER_CHAR "CJ" 100 500 (100 # 1))
    (replicate (Z.to_nat MAP_HEIGHT) (replicate (Z.to_nat MAP_WIDTH) false))
    [] None 0 100 100 1 1 None.

Definition NPC_init (px py : Z) (n dlg c : string) : NPC :=
  mkNPC (Character_init px py c n 50 0 (100 # 1)) dlg None false.

Definition BigSmoke_init (px py : Z) : BigSmoke :=
  mkBigSmoke
    (NPC_init px py "Big Smoke" "You picked the wrong house, fool!" BIG_SMOKE_CHAR0)
    (px + 1) py.

Definition Enemy_init (px py : Z) (n : string) (h dmg : Z) (fac : string) : Enemy :=
  mkEnemy (Character_init px py ENEMY_CHAR n h 0 (100 # 1)) dmg fac.

Definition Item_init (px py : Z) (n d c : string) (v : Z) : Item :=
  mkItem (mkGameObject px py c n) d v PlainItem.
Definition Weapon_init (px py : Z) (n d : string) (dmg v : Z) : Item :=
  mkItem (mkGameObject px py ITEM_CHAR n) d v (Weapon dmg).
Definition HealthPack_init (px py : Z) (n d : string) (heal v : Z) : Item :=
  mkItem (mkGameObject px py ITEM_CHAR n) d v (HealthPack heal).
Definition MoneyBundle_init (px py : Z) (n d : string) (amt : Z) : Item :=
  mkItem (mkGameObject px py ITEM_CHAR n) d amt (MoneyBundle amt).
Definition Food_init (px py : Z) (n d : string) (restore v : Z) : Item :=
  mkItem (mkGameObject px py ITEM_CHAR n) d v (Food restore).
Definition Drink_init (px py : Z) (n d : string) (restore v : Z) : Item :=
  mkItem (mkGameObject px py ITEM_CHAR n) d v (Drink restore).

Definition Shop_init (px py : Z) (n : string) (inv : list (oid * Z)) (ty : string) : Shop :=
  mkShop (mkGameObject px py SHOP_CHAR n) inv ty.

Definition Vehicle_init (px py : Z) (n : string) (h sp : Z) (c : string) : Vehicle :=
  mkVehicle (mkGameObject px py c n) h h sp None.

(** ** GameObject *)

Module GameObject.

Definition get_position (self : GameObject) : Z * Z := (x self, y self).

Definition set_position (self : GameObject) (nx ny : Z) : GameObject :=
  set_xy self nx ny.

(** [type] is [self.__class__.__name__]. *)
Definition to_dict (self : GameObject) (type : string) : dict json :=
  [("x", JInt (x self)); ("y", JInt (y self)); ("char", JStr (char self));
   ("name", JStr (name self)); ("type", JStr type)].

End GameObject.

(** ** Item and its subclasses *)

Module Item.

Definition class_name (self : Item) : string :=
  match variant self with
  | PlainItem => "Item"
  | Weapon _ => "Weapon"
  | HealthPack _ => "HealthPack"
  | MoneyBundle _ => "MoneyBundle"
  | Food _ => "Food"
  | Drink _ => "Drink"
  end.

Definition is_Weapon (self : Item) : bool :=
  match variant self with Weapon _ => true | _ => false end.
Definition is_MoneyBundle (self : Item) : bool :=
  match variant self with MoneyBundle _ => true | _ => false end.

(** [to_dict] of the class of [self]: the base fields, then each class in
    the chain adds its own. *)
Definition to_dict (self : Item) : json :=
  let data := GameObject.to_dict self (class_name self) in
  let data := Json.update data
    [("description", JStr (description self)); ("value", JInt (value self))] in
  JObj (match variant self with
        | PlainItem => data
        | Weapon d => Json.update data [("damage", JInt d)]
        | HealthPack h => Json.update data [("heal_amount", JInt h)]
        | MoneyBundle a => Json.update data [("amount", JInt a)]
        | Food r => Json.update data [("hunger_restore", JInt r)]
        | Drink r => Json.update data [("thirst_restore", JInt r)]
        end).

(** [Item.from_dict] *)
Definition from_dict (data : json) : M oid :=
  let* jx := Json.getitem data "x" in
  let* jy := Json.getitem data "y" in
  let* jn := Json.getitem data "name" in
  let* jd := Json.get data "description" (JStr "A generic item.") in
  let* jc := Json.get data "char" (JStr ITEM_CHAR) in
  let* jv := Json.get data "value" (JInt 0) in
  let* px := Json.as_int jx in
  let* py := Json.as_int jy in
  let* n := Json.as_str jn in
  let* d := Json.as_str jd in
  let* c := Json.as_str jc in
  let* v := Json.as_int jv in
  new (OItem (Item_init px py n d c v)).

(** The [from_dict] of the five subclasses differ in the name and default
    of their own field and in the default description. *)
Definition from_dict_sub (data : json) (default_description field : string)
    (default_field : Z) (make : Z -> Z -> string -> string -> Z -> Z -> Item)
    : M oid :=
  let* jx := Json.getitem data "x" in
  let* jy := Json.getitem data "y" in
  let* jn := Json.getitem data "name" in
  let* jd := Json.get data "description" (JStr default_description) in
  let* jf := Json.get data field (JInt default_field) in
  let* jv := Json.get data "value" (JInt 0) in
  let* jc := Json.get data "char" (JStr ITEM_CHAR) in
  let* px := Json.as_int jx in
  let* py := Json.as_int jy in
  let* n := Json.as_str jn in
  let* d := Json.as_str jd in
  let* f := Json.as_int jf in
  let* v := Json.as_int jv in
  let* c := Json.as_str jc in
  new (OItem (item_with_base (make px py n d f v)
                (set_char (make px py n d f v) c))).

Definition Weapon_from_dict (data : json) : M oid :=
  from_dict_sub data "A weapon." "damage" 1 Weapon_init.
Definition HealthPack_from_dict (data : json) : M oid :=
  from_dict_sub data "A health pack." "heal_amount" 25 HealthPack_init.
Definition Food_from_dict (data : json) : M oid :=
  from_dict_sub data "Some food." "hunger_restore" 20 Food_init.
Definition Drink_from_dict (data : json) : M oid :=
  from_dict_sub data "A drink." "thirst_restore" 20 Drink_init.

(** [MoneyBundle.from_dict] does not read ["value"]: the value is the
    amount. *)
Definition MoneyBundle_from_dict (data : json) : M oid :=
  let* jx := Json.getitem data "x" in
  let* jy := Json.getitem data "y" in
  let* jn := Json.getitem data "name" in
  let* jd := Json.get data "description" (JStr "A bundle of cash.") in
  let* ja := Json.get data "amount" (JInt 0) in
  let* jc := Json.get data "char" (JStr ITEM_CHAR) in
  let* px := Json.as_int jx in
  let* py := Json.as_int jy in
  let* n := Json.as_str jn in
  let* d := Json.as_str jd in
  let* a := Json.as_int ja in
  let* c := Json.as_str jc in
  new (OItem (item_with_base (MoneyBundle_init px py n d a)
                (set_char (MoneyBundle_init px py n d a) c))).

End Item.

Module ItemFactory.

Definition create_item_from_dict (data : json) : M oid :=
  let* item_type := Json.get data "type" (JStr "Item") in
  if Json.eq_str item_type "Weapon" then Item.Weapon_from_dict data
  else if Json.eq_str item_type "HealthPack" then Item.HealthPack_from_dict data
  else if Json.eq_str item_type "MoneyBundle" then Item.MoneyBundle_from_dict data
  else if Json.eq_str item_type "Food" then Item.Food_from_dict data
  else if Json.eq_str item_type "Drink" then Item.Drink_from_dict data
  else Item.from_dict data.

End ItemFactory.

(** ** Character *)

(** [l.remove(v)]: drops the first occurrence. *)
Fixpoint list_remove (v : oid) (l : list oid) : list oid :=
  match l with
  | [] => []
  | v' :: l' => if (v' =? v)%nat then l' else v' :: list_remove v l'
  end.

(** [v in l] on references: objects define no [__eq__], so [==] is
    identity. *)
Definition list_mem (v : oid) (l : list oid) : bool := existsb (Nat.eqb v) l.

Definition same_ref (a : option oid) (b : oid) : bool :=
  match a with Some a' => (a' =? b)%nat | None => false end.

(** The classes that inherit [Character.from_dict] and call it through
    [super()]: the [cls] it instantiates. *)
Inductive Class := ClassPlayer | ClassNPC.

Module Character.

Definition take_damage (self : Character) (amount : Z) : Character * bool :=
  let self := with_health self (health self - amount) in
  let self := if health self <? 0 then with_health self 0 else self in
  (self, health self =? 0).

Definition heal (self : Character) (amount : Z) : Character * unit :=
  let self := with_health self (health self + amount) in
  (with_health self (clamp (health self) 0 (max_health self)), tt).

Definition add_item (self : Character) (item : oid) : Character * unit :=
  (with_inventory self (inventory self ++ [item]), tt).

Definition remove_item (self : Character) (item : oid) : Character * bool :=
  if list_mem item (inventory self) then
    let self := with_inventory self (list_remove item (inventory self)) in
    let self := if same_ref (current_weapon self) item
                then with_current_weapon self None else self in
    (self, true)
  else (self, false).

Definition equip_weapon (self weapon : oid) : M unit :=
  let* c := get_character self in
  let* o := deref weapon in
  if list_mem weapon (inventory c)
     && match o with OItem it => Item.is_Weapon it | _ => false end
  then on_character self (fun c => (with_current_weapon c (Some weapon), tt))
  else ret tt.

(** [f]: the attack. *)
Definition f (self target : oid) : M bool :=
  let* c := get_character self in
  let* dmg :=
    match current_weapon c with
    | Some wp =>
        let* it := get_item wp in
        match variant it with
        | Weapon d => ret d
        | _ => raise AttributeError
        end
    | None => ret 5
    end in
  on_character target (fun t => take_damage t dmg).

(** [type] is the name of the class of the object. *)
Definition to_dict (self : Character) (type : string) : M (dict json) :=
  let data := GameObject.to_dict self type in
  let* inv := map_M (fun i => let* it := get_item i in ret (Item.to_dict it))
                    (inventory self) in
  let* wp := match current_weapon self with
             | Some i => let* it := get_item i in ret (JStr (name it))
             | None => ret JNull
             end in
  ret (Json.update data
         [("health", JInt (health self));
          ("max_health", JInt (max_health self));
          ("money", JInt (money self));
          ("stamina", JFloat (stamina self));
          ("max_stamina", JFloat (max_stamina self));
          ("inventory", JArr inv);
          ("current_weapon", wp)]).

(** [cls(...)]: the call of the class with positional arguments, which
    binds them to the parameters of its [__init__].
    [Player.__init__(self, x, y)] takes two,
    [NPC.__init__(self, x, y, name, dialogue, char=NPC_CHAR)] four or five;
    any other number is a [TypeError]. *)
Definition instantiate (cls : Class) (args : list json) : M oid :=
  match cls, args with
  | ClassPlayer, [jx; jy] =>
      let* px := Json.as_int jx in
      let* py := Json.as_int jy in
      new (OPlayer (Player_init px py))
  | ClassNPC, [jx; jy; jn; jd] =>
      let* px := Json.as_int jx in
      let* py := Json.as_int jy in
      let* n := Json.as_str jn in
      let* d := Json.as_str jd in
      new (ONPC (NPC_init px py n d NPC_CHAR))
  | ClassNPC, [jx; jy; jn; jd; jc] =>
      let* px := Json.as_int jx in
      let* py := Json.as_int jy in
      let* n := Json.as_str jn in
      let* d := Json.as_str jd in
      let* c := Json.as_str jc in
      new (ONPC (NPC_init px py n d c))
  | _, _ => raise TypeError
  end.

(** The first [Weapon] of the inventory whose name is [n]. *)
Definition find_weapon (h : list Obj) (inv : list oid) (n : json) : option oid :=
  find (fun i => match h !! i with
                 | Some (OItem it) => Item.is_Weapon it && Json.eq_str n (name it)
                 | _ => false
                 end) inv.

(** [Character.from_dict], a classmethod: [cls] is [Player] or [NPC]. *)
Definition from_dict (cls : Class) (data : json) : M oid :=
  let* jx := Json.getitem data "x" in
  let* jy := Json.getitem data "y" in
  let* jc := Json.getitem data "char" in
  let* jn := Json.getitem data "name" in
  let* jh := Json.getitem data "health" in
  let* jm := Json.get data "money" (JInt 0) in
  let* js := Json.get data "stamina" (JInt 100) in
  let* obj := instantiate cls [jx; jy; jc; jn; jh; jm; js] in
  let* jh' := Json.getitem data "health" in
  let* jmh := Json.get data "max_health" jh' in
  let* mh := Json.as_int jmh in
  on_character obj (fun c => (with_max_health c mh, tt)) ;;
  let* c := get_character obj in
  let* jms := Json.get data "max_stamina" (JFloat (stamina c)) in
  let* ms := Json.as_num jms in
  on_character obj (fun c => (with_max_stamina c ms, tt)) ;;
  let* jinv := Json.get data "inventory" (JArr []) in
  let* item_datas := Json.iterate jinv in
  let* inv := map_M ItemFactory.create_item_from_dict item_datas in
  on_character obj (fun c => (with_inventory c inv, tt)) ;;
  let* jw := Json.get data "current_weapon" JNull in
  (if Json.truthy jw then
     let* jw' := Json.getitem data "current_weapon" in
     let* h := gets heap in
     match find_weapon h inv jw' with
     | Some it => on_character obj (fun c => (with_current_weapon c (Some it), tt))
     | None => ret tt
     end
   else ret tt) ;;
  ret obj.

End Character.

(** ** Mission *)

Module Mission.

(** [any(pred(item) for item in inventory)] *)
Definition any_item (h : list Obj) (inv : list oid) (pred : Item -> bool) : bool :=
  existsb (fun i => match h !! i with
                    | Some (OItem it) => pred it
                    | _ => false
                    end) inv.

Definition is_named (kind : Item -> bool) (n : string) (it : Item) : bool :=
  kind it && String.eqb (name it) n.

(** The closures [sweet_objective], [ryder_objective] and
    [big_smoke_objective]. *)
Definition call_objective (obj : objective) (h : list Obj) (p : Player) : bool :=
  match obj with
  | sweet_objective => any_item h (inventory p) (is_named Item.is_Weapon "Pistol")
  | ryder_objective => any_item h (inventory p) (is_named Item.is_Weapon "Shotgun")
  | big_smoke_objective =>
      any_item h (inventory p) (is_named Item.is_MoneyBundle "Cash Bundle")
  end.

Definition is_completed (self : Mission) (pl : oid) : M bool :=
  let* p := get_player pl in
  let* h := gets heap in
  ret (call_objective (objective_func self) h p).

Definition complete (self : Mission) (pl : oid) : M unit :=
  on_character pl (fun c => (with_money c (money c + reward_money self), tt)) ;;
  match reward_item self with
  | Some it => on_character pl (fun c => Character.add_item c it)
  | None => ret tt
  end.

End Mission.

(** ** Collision test shared by [Player.move] and [Vehicle.move] *)

Definition in_bounds (nx ny : Z) : bool :=
  (0 <=? nx) && (nx <? MAP_WIDTH) && (0 <=? ny) && (ny <? MAP_HEIGHT).

(** One round of the collision loop: Big Smoke blocks his two tiles, any
    other object its own cell. *)
Definition in_the_way (o : Obj) (nx ny : Z) : bool :=
  if is_BigSmoke o then
    ((nx =? x (obj_base o)) && (ny =? y (obj_base o)))
    || ((nx =? x (obj_base o) + 1) && (ny =? y (obj_base o)))
  else (nx =? x (obj_base o)) && (ny =? y (obj_base o)).

(** [for obj in game_map.get_all_objects(): if obj != self and obj != other:
    ... return False]: [true] when some object stops the move. *)
Fixpoint collision (h : list Obj) (self : oid) (other : option oid)
    (nx ny : Z) (objs : list oid) : bool :=
  match objs with
  | [] => false
  | i :: rest =>
      if negb (i =? self)%nat && negb (same_ref other i) then
        match h !! i with
        | Some o => if in_the_way o nx ny then true
                    else collision h self other nx ny rest
        | None => collision h self other nx ny rest
        end
      else collision h self other nx ny rest
  end.

Definition character_set_xy (c : Character) (nx ny : Z) : Character :=
  with_base c (set_xy c nx ny).

(** ** Vehicle *)

Module Vehicle.

Definition enter (self character : oid) : M bool :=
  let* v := get_vehicle self in
  match occupant v with
  | None =>
      store self (OVehicle (with_occupant v (Some character))) ;;
      update_player character (fun p => with_current_vehicle p (Some self)) ;;
      ret true
  | Some _ => ret false
  end.

Definition exit (self character : oid) : M bool :=
  let* v := get_vehicle self in
  if same_ref (occupant v) character then
    store self (OVehicle (with_occupant v None)) ;;
    update_player character (fun p => with_current_vehicle p None) ;;
    on_character character
      (fun c => (character_set_xy c (x v + 1) (y v), tt)) ;;
    ret true
  else ret false.

Definition move (self : oid) (dx dy : Z) (pl : oid) : M bool :=
  let* v := get_vehicle self in
  let new_x := x v + dx in
  let new_y := y v + dy in
  if negb (in_bounds new_x new_y) then ret false
  else
    let* h := gets heap in
    let* objs := gets (fun w => objects (game_map (game w))) in
    if collision h self (occupant v) new_x new_y objs then ret false
    else
      store self (OVehicle (vehicle_with_base v (set_xy v new_x new_y))) ;;
      match occupant v with
      | Some c =>
          on_character c (fun c => (character_set_xy c new_x new_y, tt)) ;;
          on_character pl
            (fun c => (with_stamina c
                         (clampQ (stamina c - (1 # 2)) 0 (max_stamina c)), tt))
      | None => ret tt
      end ;;
      ret true.

Definition to_dict (self : Vehicle) : M json :=
  let data := GameObject.to_dict self "Vehicle" in
  let* occ := match occupant self with
              | Some c => let* o := deref c in ret (JStr (name (obj_base o)))
              | None => ret JNull
              end in
  ret (JObj (Json.update data
               [("health", JInt (vehicle_health self));
                ("max_health", JInt (vehicle_max_health self));
                ("speed", JInt (speed self));
                ("occupant", occ)])).

Definition from_dict (data : json) : M oid :=
  let* jx := Json.getitem data "x" in
  let* jy := Json.getitem data "y" in
  let* jn := Json.getitem data "name" in
  let* jh := Json.get data "health" (JInt 100) in
  let* js := Json.get data "speed" (JInt 1) in
  let* jc := Json.get data "char" (JStr VEHICLE_CHAR) in
  let* px := Json.as_int jx in
  let* py := Json.as_int jy in
  let* n := Json.as_str jn in
  let* h := Json.as_int jh in
  let* s := Json.as_int js in
  let* c := Json.as_str jc in
  let obj := Vehicle_init px py n h s c in
  let* jmh := Json.get data "max_health" (JInt (vehicle_health obj)) in
  let* mh := Json.as_int jmh in
  let obj := with_vehicle_max_health obj mh in
  let obj := with_occupant obj None in
  new (OVehicle (vehicle_with_base obj (set_char obj VEHICLE_CHAR))).

End Vehicle.

(** ** Player *)

Definition str_mem (s : string) (l : list string) : bool :=
  existsb (String.eqb s) l.

Module Player.

(** [range(-VISION_RADIUS, VISION_RADIUS + 1)] *)
Definition offsets : list Z := seqZ (- VISION_RADIUS) (2 * VISION_RADIUS + 1).

(** The pairs [(dx, dy)] in the order of the two nested loops. *)
Definition vision_cells : list (Z * Z) :=
  flat_map (fun dy => map (fun dx => (dx, dy)) offsets) offsets.

(** [discovered_map[ny][nx] = True]; [None] stands for [IndexError]. *)
Definition mark (rows : list (list bool)) (nx ny : Z) : option (list (list bool)) :=
  match rows !! Z.to_nat ny with
  | Some row =>
      if (Z.to_nat nx <? length row)%nat
      then Some (<[Z.to_nat ny := <[Z.to_nat nx := true]> row]> rows)
      else None
  | None => None
  end.

(** The loop body over the cells still to visit; the flag is [false] when
    an index was out of range, the grid is the one reached by then. *)
Fixpoint discover_cells (cells : list (Z * Z)) (px py : Z)
    (rows : list (list bool)) : list (list bool) * bool :=
  match cells with
  | [] => (rows, true)
  | (dx, dy) :: rest =>
      let nx := px + dx in
      let ny := py + dy in
      if in_bounds nx ny && (dx * dx + dy * dy <=? VISION_RADIUS * VISION_RADIUS)
      then match mark rows nx ny with
           | Some rows' => discover_cells rest px py rows'
           | None => (rows, false)
           end
      else discover_cells rest px py rows
  end.

Definition discover_area (self : oid) : M unit :=
  let* p := get_player self in
  let r := discover_cells vision_cells (x p) (y p) (discovered_map p) in
  store self (OPlayer (with_discovered_map p (fst r))) ;;
  if snd r then ret tt else raise IndexError.

Definition move (self : oid) (dx dy : Z) : M bool :=
  let* p := get_player self in
  let new_x := x p + dx in
  let new_y := y p + dy in
  match current_vehicle p with
  | Some v => Vehicle.move v dx dy self
  | None =>
      if negb (in_bounds new_x new_y) then ret false
      else
        let* h := gets heap in
        let* objs := gets (fun w => objects (game_map (game w))) in
        if collision h self (current_vehicle p) new_x new_y objs then ret false
        else
          store self
            (OPlayer (with_character p
               (with_stamina (character_set_xy p new_x new_y)
                  (clampQ (stamina p - 1) 0 (max_stamina p))))) ;;
          ret true
  end.

Definition update_needs (self : Player) : Player :=
  let self := with_hunger self (clamp (hunger self - 1) 0 100) in
  let self := with_thirst self (clamp (thirst self - 1) 0 100) in
  if (hunger self <=? 0) || (thirst self <=? 0)
  then with_character self (fst (Character.take_damage self 2))
  else self.

Definition add_wanted_level (self : Player) (amount : Z) : Player :=
  with_wanted_level self (clamp (wanted_level self + amount) 0 MAX_WANTED_LEVEL).

Definition reduce_wanted_level (self : Player) (amount : Z) : Player :=
  with_wanted_level self (clamp (wanted_level self - amount) 0 MAX_WANTED_LEVEL).

Definition to_dict (self : Player) : M json :=
  let* data := Character.to_dict self "Player" in
  let* veh := match current_vehicle self with
              | Some v => let* o := deref v in ret (JStr (name (obj_base o)))
              | None => ret JNull
              end in
  ret (JObj (Json.update data
    [("discovered_map", JArr (map (fun row => JArr (map JBool row)) (discovered_map self)));
     ("missions_completed", JArr (map JStr (missions_completed self)));
     ("current_mission", Json.of_option_str (mission_name <$> current_mission self));
     ("wanted_level", JInt (wanted_level self));
     ("hunger", JInt (hunger self));
     ("thirst", JInt (thirst self));
     ("driving_skill", JInt (driving_skill self));
     ("weapon_skill", JInt (weapon_skill self));
     ("current_vehicle", veh)])).

Definition default_discovered_map : json :=
  JArr (replicate (Z.to_nat MAP_HEIGHT)
          (JArr (replicate (Z.to_nat MAP_WIDTH) (JBool false)))).

Definition from_dict (data : json) : M oid :=
  let* obj := Character.from_dict ClassPlayer data in
  let* jmap := Json.get data "discovered_map" default_discovered_map in
  let* jrows := Json.as_list jmap in
  let* rows := map_M (fun jrow => let* cells := Json.as_list jrow in
                                  map_M Json.as_bool cells) jrows in
  update_player obj (fun p => with_discovered_map p rows) ;;
  let* jdone := Json.get data "missions_completed" (JArr []) in
  let* ldone := Json.as_list jdone in
  let* done := map_M Json.as_str ldone in
  update_player obj (fun p => with_missions_completed p done) ;;
  let* jwanted := Json.get data "wanted_level" (JInt 0) in
  let* wanted := Json.as_int jwanted in
  update_player obj (fun p => with_wanted_level p wanted) ;;
  let* jhunger := Json.get data "hunger" (JInt 100) in
  let* hg := Json.as_int jhunger in
  update_player obj (fun p => with_hunger p hg) ;;
  let* jthirst := Json.get data "thirst" (JInt 100) in
  let* th := Json.as_int jthirst in
  update_player obj (fun p => with_thirst p th) ;;
  let* jdriving := Json.get data "driving_skill" (JInt 1) in
  let* dr := Json.as_int jdriving in
  update_player obj (fun p => with_driving_skill p dr) ;;
  let* jweapon := Json.get data "weapon_skill" (JInt 1) in
  let* ws := Json.as_int jweapon in
  update_player obj (fun p => with_weapon_skill p ws) ;;
  update_player obj (fun p => with_current_vehicle p None) ;;
  update_player obj (fun p => with_current_mission p None) ;;
  on_character obj (fun c => (with_base c (set_char c PLAYER_CHAR), tt)) ;;
  ret obj.

End Player.

(** ** NPC and BigSmoke *)

Definition update_npc (self : oid) (upd : NPC -> NPC) : M unit :=
  let* o := deref self in
  match obj_npc o with
  | Some n => store self (obj_with_npc o (upd n))
  | None => raise AttributeError
  end.

Module NPC.

(** The four statements that close a mission, in [NPC.talk] and in
    [BigSmoke.talk] alike. *)
Definition complete_mission (self pl : oid) (m : Mission) : M unit :=
  Mission.complete m pl ;;
  update_player pl (fun p =>
    with_missions_completed p (missions_completed p ++ [mission_name m])) ;;
  update_player pl (fun p => with_current_mission p None) ;;
  update_npc self (fun n => with_mission_completed n true).

(** The accept prompt: [choice = input("> ").lower()]. *)
Definition accept_prompt (pl : oid) (m : Mission) : M unit :=
  let* choice := input in
  if String.eqb (lower choice) "yes"
  then update_player pl (fun p => with_current_mission p (Some m))
  else ret tt.

Definition talk (self pl : oid) : M unit :=
  let* n := get_npc self in
  match mission_offered n with
  | Some m =>
      if negb (mission_completed n) then
        let* done := Mission.is_completed m pl in
        if done then complete_mission self pl m
        else
          let* p := get_player pl in
          match current_mission p with
          | None => accept_prompt pl m
          | Some _ => ret tt       (* only a message, whichever mission it is *)
          end
      else ret tt
  | None => ret tt
  end.

Definition to_dict (self : NPC) (type : string) : M (dict json) :=
  let* data := Character.to_dict self type in
  ret (Json.update data
    [("dialogue", JStr (dialogue self));
     ("mission_offered", Json.of_option_str (mission_name <$> mission_offered self));
     ("mission_completed", JBool (mission_completed self))]).

Definition from_dict (data : json) : M oid :=
  let* obj := Character.from_dict ClassNPC data in
  let* jd := Json.get data "dialogue" (JStr "...") in
  let* d := Json.as_str jd in
  update_npc obj (fun n => with_dialogue n d) ;;
  let* jc := Json.get data "mission_completed" (JBool false) in
  let* c := Json.as_bool jc in
  update_npc obj (fun n => with_mission_completed n c) ;;
  update_npc obj (fun n => with_mission_offered n None) ;;
  ret obj.

End NPC.

Module BigSmoke.

Definition get_all_positions (self : BigSmoke) : list (Z * Z) :=
  [(x self, y self); (char2_x self, char2_y self)].

Definition talk (self pl : oid) : M unit :=
  let* n := get_npc self in
  let* p := get_player pl in
  if str_mem "Sweet's Mission" (missions_completed p)
     && str_mem "Ryder's Mission" (missions_completed p) then
    if negb (mission_completed n) then
      let* h := gets heap in
      let has_cash_bundle :=
        Mission.any_item h (inventory p)
          (Mission.is_named Item.is_MoneyBundle "Cash Bundle") in
      if has_cash_bundle then
        match mission_offered n with
        | Some m =>
            if negb (mission_completed n) then
              let* done := Mission.is_completed m pl in
              if done then NPC.complete_mission self pl m else ret tt
            else ret tt
        | None => ret tt
        end
      else
        match current_mission p with
        | None =>
            match mission_offered n with
            | Some m => NPC.accept_prompt pl m
            | None => raise AttributeError   (* [self.mission_offered.name] *)
            end
        | Some _ => ret tt
        end
    else ret tt
  else ret tt.

Definition to_dict (self : BigSmoke) : M json :=
  let* data := NPC.to_dict self "BigSmoke" in
  ret (JObj (Json.update data
    [("char2_x", JInt (char2_x self)); ("char2_y", JInt (char2_y self))])).

Definition from_dict (data : json) : M oid :=
  let* jx := Json.getitem data "x" in
  let* jy := Json.getitem data "y" in
  let* px := Json.as_int jx in
  let* py := Json.as_int jy in
  let obj := BigSmoke_init px py in
  let* jh := Json.get data "health" (JInt 50) in
  let* h := Json.as_int jh in
  let* jmh := Json.get data "max_health" (JInt h) in
  let* mh := Json.as_int jmh in
  let* jm := Json.get data "money" (JInt 0) in
  let* m := Json.as_int jm in
  let* js := Json.get data "stamina" (JInt 100) in
  let* s := Json.as_num js in
  let* jms := Json.get data "max_stamina" (JFloat s) in
  let* ms := Json.as_num jms in
  let* jinv := Json.get data "inventory" (JArr []) in
  let* item_datas := Json.iterate jinv in
  let* inv := map_M ItemFactory.create_item_from_dict item_datas in
  let* jd := Json.get data "dialogue" (JStr "You picked the wrong house, fool!") in
  let* d := Json.as_str jd in
  let* jc := Json.get data "mission_completed" (JBool false) in
  let* c := Json.as_bool jc in
  new (OBigSmoke
         (mkBigSmoke
            (mkNPC (mkCharacter obj h mh inv m s ms None) d None c)
            (char2_x obj) (char2_y obj))).

End BigSmoke.

(** [obj.talk(player)]: the method of the class of [obj]. *)
Definition talk (self pl : oid) : M unit :=
  let* o := deref self in
  if is_BigSmoke o then BigSmoke.talk self pl else NPC.talk self pl.

(** ** Enemy *)

Module Enemy.

(** [is_occupied]: some object other than [self] stands on the cell. *)
Definition is_occupied (h : list Obj) (self : oid) (nx ny : Z) (objs : list oid) : bool :=
  existsb (fun i => negb (i =? self)%nat
                    && match h !! i with
                       | Some o => (x (obj_base o) =? nx) && (y (obj_base o) =? ny)
                       | None => false
                       end) objs.

(** [for dx, dy in possible_moves: ...]: the first free cell, if any. *)
Fixpoint first_free (h : list Obj) (self : oid) (px py : Z) (objs : list oid)
    (moves : list (Z * Z)) : option (Z * Z) :=
  match moves with
  | [] => None
  | (dx, dy) :: rest =>
      let new_x := px + dx in
      let new_y := py + dy in
      if in_bounds new_x new_y && negb (is_occupied h self new_x new_y objs)
      then Some (new_x, new_y)
      else first_free h self px py objs rest
  end.

Definition move_randomly (self : oid) : M bool :=
  let* possible_moves := shuffle [(0, 1); (0, -1); (1, 0); (-1, 0)] in
  let* e := get_enemy self in
  let* h := gets heap in
  let* objs := gets (fun w => objects (game_map (game w))) in
  match first_free h self (x e) (y e) objs possible_moves with
  | Some (new_x, new_y) =>
      on_character self (fun c => (character_set_xy c new_x new_y, tt)) ;;
      ret true
  | None => ret false
  end.

Definition step (target self : Z) : Z :=
  if self <? target then 1 else if target <? self then -1 else 0.

Definition move_towards (self : oid) (target_x target_y : Z) : M bool :=
  let* e := get_enemy self in
  let dx := step target_x (x e) in
  let dy := step target_y (y e) in
  let new_x := x e + dx in
  let new_y := y e + dy in
  if in_bounds new_x new_y then
    let* h := gets heap in
    let* objs := gets (fun w => objects (game_map (game w))) in
    if negb (is_occupied h self new_x new_y objs) then
      on_character self (fun c => (character_set_xy c new_x new_y, tt)) ;;
      ret true
    else ret false
  else ret false.

Definition take_turn (self pl : oid) : M unit :=
  let* e := get_enemy self in
  if health e <=? 0 then ret tt
  else
    let* p := get_player pl in
    if String.eqb (faction e) "Police" && (0 <? wanted_level p) then
      let dx := step (x p) (x e) in
      let dy := step (y p) (y e) in
      let* moved :=
        if negb (dx =? 0) || negb (dy =? 0)
        then move_towards self (x p) (y p)
        else ret false in
      if moved then ret tt
      else (move_randomly self ;; ret tt)
    else
      if (Z.abs (x e - x p) <=? 1) && (Z.abs (y e - y p) <=? 1)
      then (Character.f self pl ;; ret tt)
      else (move_randomly self ;; ret tt).

Definition to_dict (self : Enemy) : M json :=
  let* data := Character.to_dict self "Enemy" in
  ret (JObj (Json.update data
    [("damage", JInt (damage self)); ("faction", JStr (faction self))])).

Definition from_dict (data : json) : M oid :=
  let* jx := Json.getitem data "x" in
  let* jy := Json.getitem data "y" in
  let* jn := Json.getitem data "name" in
  let* jh := Json.get data "health" (JInt 40) in
  let* jd := Json.get data "damage" (JInt 10) in
  let* jf := Json.get data "faction" (JStr "Gang") in
  let* px := Json.as_int jx in
  let* py := Json.as_int jy in
  let* n := Json.as_str jn in
  let* h := Json.as_int jh in
  let* d := Json.as_int jd in
  let* fac := Json.as_str jf in
  let obj := Enemy_init px py n h d fac in
  let* jmh := Json.get data "max_health" (JInt (health obj)) in
  let* mh := Json.as_int jmh in
  let* jm := Json.get data "money" (JInt 0) in
  let* m := Json.as_int jm in
  let* js := Json.get data "stamina" (JInt 100) in
  let* s := Json.as_num js in
  let* jms := Json.get data "max_stamina" (JFloat s) in
  let* ms := Json.as_num jms in
  let* jinv := Json.get data "inventory" (JArr []) in
  let* item_datas := Json.iterate jinv in
  let* inv := map_M ItemFactory.create_item_from_dict item_datas in
  let c := if String.eqb fac "Police" then POLICE_CHAR else ENEMY_CHAR in
  new (OEnemy
         (mkEnemy (mkCharacter (set_char obj c) (health obj) mh inv m s ms None)
            (damage obj) (faction obj))).

End Enemy.

(** ** Shop *)

Module Shop.

(** One purchase attempt: [choice] is the parsed menu number. *)
Definition buy (self pl : oid) (choice : Z) : M unit :=
  let* s := get_shop self in
  if (1 <=? choice) && (choice <=? Z.of_nat (length (shop_inventory s))) then
    match shop_inventory s !! Z.to_nat (choice - 1) with
    | Some (item_to_buy, price) =>
        let* c := get_character pl in
        if price <=? money c then
          on_character pl (fun c => (with_money c (money c - price), tt)) ;;
          on_character pl (fun c => Character.add_item c item_to_buy)
        else ret tt
    | None => ret tt
    end
  else ret tt.

(** The [while True] loop.  Every round reads a line, so it ends at the
    latest when the input does; [fuel] is one more than the lines left. *)
Fixpoint menu_loop (fuel : nat) (self pl : oid) : M unit :=
  match fuel with
  | O => raise EOFError
  | S fuel' =>
      let* choice := input in
      if String.eqb (text choice) "0" then ret tt
      else
        match int_value choice with
        | Some n => buy self pl n ;; menu_loop fuel' self pl
        | None => menu_loop fuel' self pl     (* [except ValueError] *)
        end
  end.

Definition enter (self pl : oid) : M unit :=
  let* lines := gets stdin in
  menu_loop (S (length lines)) self pl.

Definition to_dict (self : Shop) : M json :=
  let data := GameObject.to_dict self "Shop" in
  let* inv := map_M (fun ip => let* it := get_item (fst ip) in
                               ret (JArr [Item.to_dict it; JInt (snd ip)]))
                    (shop_inventory self) in
  ret (JObj (Json.update data
    [("inventory", JArr inv); ("shop_type", JStr (shop_type self))])).

Definition from_dict (data : json) : M oid :=
  let* jinv := Json.get data "inventory" (JArr []) in
  let* entries := Json.iterate jinv in
  let* inv := map_M (fun entry =>
                       let* pair := Json.unpack2 entry in
                       let* it := ItemFactory.create_item_from_dict (fst pair) in
                       let* price := Json.as_int (snd pair) in
                       ret (it, price)) entries in
  let* jx := Json.getitem data "x" in
  let* jy := Json.getitem data "y" in
  let* jn := Json.getitem data "name" in
  let* jt := Json.get data "shop_type" (JStr "General") in
  let* px := Json.as_int jx in
  let* py := Json.as_int jy in
  let* n := Json.as_str jn in
  let* t := Json.as_str jt in
  new (OShop (Shop_init px py n inv t)).

End Shop.

(** ** GameMap *)

Module GameMap.

Definition add_object (obj : oid) : M unit :=
  update_game (fun g =>
    with_game_map g (with_objects (game_map g) (objects (game_map g) ++ [obj]))).

Definition remove_object (obj : oid) : M unit :=
  update_game (fun g =>
    with_game_map g
      (with_objects (game_map g)
         (if list_mem obj (objects (game_map g))
          then list_remove obj (objects (game_map g))
          else objects (game_map g)))).

(** The test of one object in [get_object_at]. *)
Definition stands_at (o : Obj) (px py : Z) : bool :=
  match o with
  | OBigSmoke b =>
      ((x b =? px) && (y b =? py)) || ((char2_x b =? px) && (char2_y b =? py))
  | _ => (x (obj_base o) =? px) && (y (obj_base o) =? py)
  end.

Fixpoint first_at (h : list Obj) (px py : Z) (objs : list oid) : option oid :=
  match objs with
  | [] => None
  | i :: rest =>
      match h !! i with
      | Some o => if stands_at o px py then Some i else first_at h px py rest
      | None => first_at h px py rest
      end
  end.

Definition get_object_at (px py : Z) : M (option oid) :=
  let* h := gets heap in
  let* objs := gets (fun w => objects (game_map (game w))) in
  ret (first_at h px py objs).

(** [l[i]] is defined for [-len(l) <= i < len(l)]. *)
Definition index_ok (len i : Z) : bool := (- len <=? i) && (i <? len).

(** [render] only prints, but two of its steps can raise [IndexError]:
    drawing the player (and the vehicle driven) into the
    [height] x [width] grid, and reading the fog mask
    [player.discovered_map[y][x]] for every cell of the grid. *)
Definition render (pl : oid) : M unit :=
  let* m := gets (fun w => game_map (game w)) in
  let* p := get_player pl in
  match current_vehicle p with
  | Some v =>
      let* veh := get_vehicle v in
      if index_ok (height m) (y veh) && index_ok (width m) (x veh)
      then ret tt else raise IndexError
  | None => ret tt
  end ;;
  (if index_ok (height m) (y p) && index_ok (width m) (x p)
   then ret tt else raise IndexError) ;;
  if (width m <=? 0)
     || ((Z.to_nat (height m) <=? length (discovered_map p))%nat
         && forallb (fun row => (Z.to_nat (width m) <=? length row)%nat)
              (take (Z.to_nat (height m)) (discovered_map p)))
  then ret tt else raise IndexError.

End GameMap.

(** ** Game *)

(** How the main loop was left. *)
Inductive LoopExit :=
| ExitDefeat        (* the [break] after "Game Over" *)
| ExitNotRunning.   (* the [while self.running] test failed *)

Module Game.

Definition _SAVE_FILE_VERSION : Z := 2.

(** [str(n)] *)
Definition str (n : nat) : string := NilZero.string_of_uint (Nat.to_uint n).

Definition add_npc (key : string) (o : Obj) : M oid :=
  let* obj := new o in
  GameMap.add_object obj ;;
  update_game (fun g => with_npcs g (dict_set (npcs g) key obj)) ;;
  ret obj.
Definition add_item (key : string) (o : Obj) : M oid :=
  let* obj := new o in
  GameMap.add_object obj ;;
  update_game (fun g => with_items g (dict_set (items g) key obj)) ;;
  ret obj.
Definition add_shop (key : string) (o : Obj) : M oid :=
  let* obj := new o in
  GameMap.add_object obj ;;
  update_game (fun g => with_shops g (dict_set (shops g) key obj)) ;;
  ret obj.
Definition add_enemy (key : string) (o : Obj) : M oid :=
  let* obj := new o in
  GameMap.add_object obj ;;
  update_game (fun g => with_enemies g (dict_set (enemies g) key obj)) ;;
  ret obj.
Definition add_vehicle (key : string) (o : Obj) : M oid :=
  let* obj := new o in
  GameMap.add_object obj ;;
  update_game (fun g => with_vehicles g (dict_set (vehicles g) key obj)) ;;
  ret obj.

Definition _initialize_game_objects : M unit :=
  add_npc "sweet"
    (ONPC (NPC_init 5 5 "Sweet"
             "Hey CJ, long time no see! We got some business to handle." NPC_CHAR)) ;;
  add_npc "ryder"
    (ONPC (NPC_init 10 10 "Ryder"
             "Yo, CJ! You still busta? Go get me some spray cans." NPC_CHAR)) ;;
  add_npc "big_smoke" (OBigSmoke (BigSmoke_init 20 15)) ;;
  add_item "pistol" (OItem (Weapon_init 2 2 "Pistol" "A basic handgun." 15 75)) ;;
  add_item "shotgun"
    (OItem (Weapon_init (MAP_WIDTH - 5) (MAP_HEIGHT - 5) "Shotgun"
              "Deals heavy damage up close." 30 200)) ;;
  add_item "health_pack_1"
    (OItem (HealthPack_init 7 7 "Small Health Pack" "Restores a bit of health." 25 30)) ;;
  add_item "cash_bundle"
    (OItem (MoneyBundle_init (MAP_WIDTH / 4) (MAP_HEIGHT / 4) "Cash Bundle"
              "A stack of money." 200)) ;;
  let* knife := new (OItem (Weapon_init 0 0 "Knife" "A sharp blade." 10 50)) in
  let* uzi := new (OItem (Weapon_init 0 0 "Uzi" "Fast firing submachine gun." 20 150)) in
  let* large := new (OItem (HealthPack_init 0 0 "Large Health Pack"
                              "Restores a lot of health." 50 75)) in
  add_shop "ammu_nation"
    (OShop (Shop_init (MAP_WIDTH - 10) 5 "Ammu-Nation"
              [(knife, 50); (uzi, 150); (large, 75)] "Ammu-Nation")) ;;
  let* burger := new (OItem (Food_init 0 0 "Cluckin' Bell Burger" "A greasy burger." 40 15)) in
  let* sprunk := new (OItem (Drink_init 0 0 "Sprunk" "Refreshing soda." 30 10)) in
  add_shop "cluckin_bell"
    (OShop (Shop_init (MAP_WIDTH / 2) 2 "Cluckin' Bell"
              [(burger, 15); (sprunk, 10)] "Fast Food")) ;;
  add_enemy "gangster1" (OEnemy (Enemy_init 15 10 "Gangster" 40 10 "Ballaz")) ;;
  add_enemy "gangster2" (OEnemy (Enemy_init 25 8 "Gangster" 40 10 "Vagos")) ;;
  add_enemy "police_officer"
    (OEnemy (Enemy_init (MAP_WIDTH - 2) 2 "Police Officer" 60 15 "Police")) ;;
  add_vehicle "green_sabre" (OVehicle (Vehicle_init 30 10 "Green Sabre" 100 3 VEHICLE_CHAR)) ;;
  add_vehicle "police_car"
    (OVehicle (Vehicle_init (MAP_WIDTH - 5) 15 "Police Car" 120 4 VEHICLE_CHAR)) ;;
  ret tt.

Definition sweet_mission : Mission :=
  mkMission "Sweet's Mission" "Find the Pistol and bring it back to Sweet."
    sweet_objective 100 None [].
Definition ryder_mission : Mission :=
  mkMission "Ryder's Mission" "Find the Shotgun and show it to Ryder."
    ryder_objective 150 None ["Sweet's Mission"].
Definition big_smoke_mission : Mission :=
  mkMission "Big Smoke's Mission" "Collect the Cash Bundle for Big Smoke."
    big_smoke_objective 200 None ["Sweet's Mission"; "Ryder's Mission"].

(** [self.npcs[key].mission_offered = m; self.missions[m.name] = m] *)
Definition assign_mission (key : string) (m : Mission) : M unit :=
  let* g := get_game in
  match dict_get (npcs g) key with
  | Some npc =>
      update_npc npc (fun n => with_mission_offered n (Some m)) ;;
      update_game (fun g => with_missions g (dict_set (missions g) (mission_name m) m))
  | None => raise (KeyError key)
  end.

Definition _initialize_missions : M unit :=
  assign_mission "sweet" sweet_mission ;;
  assign_mission "ryder" ryder_mission ;;
  assign_mission "big_smoke" big_smoke_mission.

Definition __init__ : M unit :=
  let* g := get_game in
  if initialized g then ret tt
  else
    update_game (fun g => with_game_map g (mkGameMap MAP_WIDTH MAP_HEIGHT [])) ;;
    let* pl := new (OPlayer (Player_init (MAP_WIDTH / 2) (MAP_HEIGHT / 2))) in
    update_game (fun g => with_player g pl) ;;
    GameMap.add_object pl ;;
    update_game (fun g => with_running g true) ;;
    update_game (fun g => with_game_time g 0) ;;
    update_game (fun g => with_npcs g []) ;;
    update_game (fun g => with_items g []) ;;
    update_game (fun g => with_shops g []) ;;
    update_game (fun g => with_enemies g []) ;;
    update_game (fun g => with_vehicles g []) ;;
    update_game (fun g => with_missions g []) ;;
    _initialize_game_objects ;;
    _initialize_missions ;;
    update_game (fun g => with_initialized g true).

(** [npc.to_dict()] through the class of the object. *)
Definition npc_to_dict (i : oid) : M json :=
  let* o := deref i in
  match o with
  | OBigSmoke b => BigSmoke.to_dict b
  | ONPC n => let* d := NPC.to_dict n "NPC" in ret (JObj d)
  | _ => raise AttributeError
  end.

(** [{name: obj.to_dict() for name, obj in d.items()}] *)
Definition dict_to_dict (to_dict : oid -> M json) (d : dict oid) : M json :=
  let* l := map_M (fun kv => let* j := to_dict (snd kv) in ret (fst kv, j)) d in
  ret (JObj l).

Definition save_game : M unit :=
  let* g := get_game in
  let* p := get_player (player g) in
  let* jp := Player.to_dict p in
  let* jnpcs := dict_to_dict npc_to_dict (npcs g) in
  let* jshops := dict_to_dict (fun i => let* s := get_shop i in Shop.to_dict s) (shops g) in
  let* jenemies := dict_to_dict (fun i => let* e := get_enemy i in Enemy.to_dict e) (enemies g) in
  let* jvehicles := dict_to_dict (fun i => let* v := get_vehicle i in Vehicle.to_dict v) (vehicles g) in
  let* h := gets heap in
  let on_map :=
    filter (fun i => match h !! i with
                     | Some o => is_Item o && negb (list_mem i (inventory p))
                     | None => false
                     end = true) (objects (game_map g)) in
  let* jitems := map_M (fun i => let* it := get_item i in ret (Item.to_dict it)) on_map in
  let data := JObj
    [("version", JInt _SAVE_FILE_VERSION);
     ("game_time", JInt (game_time g));
     ("player", jp);
     ("npcs", jnpcs);
     ("shops", jshops);
     ("enemies", jenemies);
     ("vehicles", jvehicles);
     ("items_on_map", JArr jitems)] in
  try_except (json_dump_file data ;; print MsgSaved)
    (fun e => match e with
              | OSError | FileNotFoundError => print MsgSaveError
              | _ => raise e
              end).

Definition load_npc (entry : string * json) : M unit :=
  let npc_data := snd entry in
  let* ty := Json.get npc_data "type" JNull in
  let* npc_obj := if Json.eq_str ty "BigSmoke" then BigSmoke.from_dict npc_data
                  else NPC.from_dict npc_data in
  update_game (fun g => with_npcs g (dict_set (npcs g) (fst entry) npc_obj)) ;;
  GameMap.add_object npc_obj ;;
  let* jm := Json.get npc_data "mission_offered" JNull in
  if Json.truthy jm then
    let* jm' := Json.getitem npc_data "mission_offered" in
    let* g := get_game in
    let* found := Json.find jm' (missions g) in
    match found with
    | Some m => update_npc npc_obj (fun n => with_mission_offered n (Some m))
    | None => ret tt
    end
  else ret tt.

Definition load_shop (entry : string * json) : M unit :=
  let* shop_obj := Shop.from_dict (snd entry) in
  update_game (fun g => with_shops g (dict_set (shops g) (fst entry) shop_obj)) ;;
  GameMap.add_object shop_obj.

Definition load_enemy (entry : string * json) : M unit :=
  let* enemy_obj := Enemy.from_dict (snd entry) in
  update_game (fun g => with_enemies g (dict_set (enemies g) (fst entry) enemy_obj)) ;;
  GameMap.add_object enemy_obj.

Definition load_vehicle (entry : string * json) : M unit :=
  let* vehicle_obj := Vehicle.from_dict (snd entry) in
  update_game (fun g => with_vehicles g (dict_set (vehicles g) (fst entry) vehicle_obj)) ;;
  GameMap.add_object vehicle_obj ;;
  let* occ := Json.get (snd entry) "occupant" JNull in
  let* g := get_game in
  let* p := get_character (player g) in
  if Json.eq_str occ (name p) then
    let* v := get_vehicle vehicle_obj in
    store vehicle_obj (OVehicle (with_occupant v (Some (player g)))) ;;
    update_player (player g) (fun p => with_current_vehicle p (Some vehicle_obj))
  else ret tt.

Definition load_item (item_data : json) : M unit :=
  let* item_obj := ItemFactory.create_item_from_dict item_data in
  GameMap.add_object item_obj ;;
  let* it := get_item item_obj in
  update_game (fun g => with_items g (dict_set (items g) (name it) item_obj)).

(** The body of the [try] block of [load_game].  [self.player = None] is
    left out: every path through the block or its handlers assigns
    [self.player] again before anything reads it. *)
Definition load_game_try : M unit :=
  let* data := json_load_file in
  let* saved_version := Json.get data "version" (JInt 1) in
  update_game (fun g => with_game_map g (with_objects (game_map g) [])) ;;
  update_game (fun g => with_npcs g []) ;;
  update_game (fun g => with_items g []) ;;
  update_game (fun g => with_shops g []) ;;
  update_game (fun g => with_enemies g []) ;;
  update_game (fun g => with_vehicles g []) ;;
  let* jt := Json.get data "game_time" (JInt 0) in
  let* t := Json.as_int jt in
  update_game (fun g => with_game_time g t) ;;
  let* jplayer := Json.getitem data "player" in
  let* pl := Player.from_dict jplayer in
  update_game (fun g => with_player g pl) ;;
  GameMap.add_object pl ;;
  let* jnpcs := Json.get data "npcs" (JObj []) in
  let* lnpcs := Json.dict_items jnpcs in
  for_each lnpcs load_npc ;;
  let* jshops := Json.get data "shops" (JObj []) in
  let* lshops := Json.dict_items jshops in
  for_each lshops load_shop ;;
  let* jenemies := Json.get data "enemies" (JObj []) in
  let* lenemies := Json.dict_items jenemies in
  for_each lenemies load_enemy ;;
  let* jvehicles := Json.get data "vehicles" (JObj []) in
  let* lvehicles := Json.dict_items jvehicles in
  for_each lvehicles load_vehicle ;;
  let* jitems := Json.get data "items_on_map" (JArr []) in
  let* litems := Json.iterate jitems in
  for_each litems load_item ;;
  let* jplayer' := Json.getitem data "player" in
  let* jcm := Json.get jplayer' "current_mission" JNull in
  (if Json.truthy jcm then
     let* g := get_game in
     let* found := Json.find jcm (missions g) in
     match found with
     | Some m => update_player (player g) (fun p => with_current_mission p (Some m))
     | None => ret tt
     end
   else ret tt) ;;
  print (MsgLoaded saved_version).

(** The three handlers do the same after their message: start a new
    game. *)
Definition start_new_game : M unit :=
  update_game (fun g => with_initialized g false) ;;
  __init__.

Definition load_game : M unit :=
  try_except load_game_try
    (fun e => match e with
              | FileNotFoundError => print MsgLoadNotFound ;; start_new_game
              | JSONDecodeError => print MsgLoadCorrupt ;; start_new_game
              | _ => print (MsgLoadUnexpected e) ;; start_new_game
              end).

(** *** handle_input *)

(** [for dy in range(-1, 2): for dx in range(-1, 2)] without [(0, 0)], as
    [(dx, dy)]. *)
Definition neighbours : list (Z * Z) :=
  [(-1, -1); (0, -1); (1, -1); (-1, 0); (1, 0); (-1, 1); (0, 1); (1, 1)].

(** [all_prereqs_met] *)
Definition all_prereqs_met (m : Mission) (p : Player) : bool :=
  forallb (fun prereq_name => str_mem prereq_name (missions_completed p))
          (prerequisite_missions m).

(** The [isinstance(obj, NPC)] branch of the interaction; the result is
    [interacted]. *)
Definition interact_npc (obj pl : oid) : M bool :=
  let* n := get_npc obj in
  let* p := get_player pl in
  match mission_offered n with
  | Some m =>
      if all_prereqs_met m p then talk obj pl ;; ret true
      else ret false
      (* the inner [if not obj.mission_offered] cannot hold here *)
  | None => talk obj pl ;; ret true
  end.

(** What the scan does with the cell [(target_x, target_y)]. *)
Definition interact_at (pl : oid) (target_x target_y : Z) : M bool :=
  let* found := GameMap.get_object_at target_x target_y in
  match found with
  | None => ret false
  | Some obj =>
      let* o := deref obj in
      match o with
      | ONPC _ | OBigSmoke _ => interact_npc obj pl
      | OItem _ =>
          on_character pl (fun c => Character.add_item c obj) ;;
          GameMap.remove_object obj ;;
          ret true
      | OShop _ => Shop.enter obj pl ;; ret true
      | OVehicle _ =>
          let* p := get_player pl in
          match current_vehicle p with
          | None => Vehicle.enter obj pl
          | Some _ => ret false
          end
      | _ => ret false
      end
  end.

Fixpoint interact_scan (pl : oid) (current_x current_y : Z)
    (cells : list (Z * Z)) : M bool :=
  match cells with
  | [] => ret false
  | (dx, dy) :: rest =>
      let* interacted := interact_at pl (current_x + dx) (current_y + dy) in
      if interacted then ret true
      else interact_scan pl current_x current_y rest
  end.

(** The [try] block of the [u] command once the menu is shown. *)
Definition use_item (pl : oid) (choice : Z) : M unit :=
  let* p := get_player pl in
  if (1 <=? choice) && (choice <=? Z.of_nat (length (inventory p))) then
    match inventory p !! Z.to_nat (choice - 1) with
    | Some selected_item =>
        let* o := deref selected_item in
        match o with
        | OItem it =>
            match variant it with
            | HealthPack heal_amount =>
                on_character pl (fun c => Character.heal c heal_amount) ;;
                on_character pl (fun c => Character.remove_item c selected_item) ;;
                ret tt
            | Weapon _ => Character.equip_weapon pl selected_item
            | Food hunger_restore =>
                update_player pl (fun p =>
                  with_hunger p (clamp (hunger p + hunger_restore) 0 100)) ;;
                on_character pl (fun c => Character.remove_item c selected_item) ;;
                ret tt
            | Drink thirst_restore =>
                update_player pl (fun p =>
                  with_thirst p (clamp (thirst p + thirst_restore) 0 100)) ;;
                on_character pl (fun c => Character.remove_item c selected_item) ;;
                ret tt
            | _ => ret tt
            end
        | _ => ret tt
        end
    | None => ret tt
    end
  else ret tt.

(** The scan of the [f] command: the first neighbouring cell whose first
    object is an [Enemy]. *)
Fixpoint find_target (h : list Obj) (objs : list oid) (px py : Z)
    (cells : list (Z * Z)) : option oid :=
  match cells with
  | [] => None
  | (dx, dy) :: rest =>
      match GameMap.first_at h (px + dx) (py + dy) objs with
      | Some obj =>
          match h !! obj with
          | Some (OEnemy _) => Some obj
          | _ => find_target h objs px py rest
          end
      | None => find_target h objs px py rest
      end
  end.

(** [for name, enemy_obj in list(self.enemies.items()): if enemy_obj ==
    target_enemy: del self.enemies[name]; break] *)
Definition forget_enemy (d : dict oid) (target : oid) : dict oid :=
  match find (fun kv => (snd kv =? target)%nat) d with
  | Some kv => dict_del d (fst kv)
  | None => d
  end.

Definition attack (pl : oid) : M unit :=
  let* p := get_player pl in
  let* h := gets heap in
  let* objs := gets (fun w => objects (game_map (game w))) in
  match find_target h objs (x p) (y p) neighbours with
  | Some target_enemy =>
      let* defeated := Character.f pl target_enemy in
      if defeated then
        GameMap.remove_object target_enemy ;;
        update_game (fun g => with_enemies g (forget_enemy (enemies g) target_enemy)) ;;
        let* e := get_enemy target_enemy in
        if String.eqb (faction e) "Police"
        then update_player pl (fun p => Player.add_wanted_level p 2)
        else update_player pl (fun p => Player.add_wanted_level p 1)
      else ret tt
  | None => ret tt
  end.

(** The body of [handle_input] before the final [discover_area]; the
    result is [true] when the command returned early. *)
Definition dispatch (key : string) (pl : oid) : M bool :=
  let* p := get_player pl in
  let current_x := x p in
  let current_y := y p in
  if String.eqb key "e" then
    interact_scan pl current_x current_y neighbours ;; ret false
  else if String.eqb key "x" then
    match current_vehicle p with
    | Some v => Vehicle.exit v pl ;; ret false
    | None => ret false
    end
  else if String.eqb key "u" then
    match inventory p with
    | [] => ret true
    | _ =>
        let* choice := input in
        if String.eqb (text choice) "0" then ret true
        else
          match int_value choice with
          | Some n => use_item pl n ;; ret false
          | None => ret false        (* [except ValueError] *)
          end
    end
  else if String.eqb key "f" then attack pl ;; ret false
  else if String.eqb key "v" then save_game ;; ret false
  else if String.eqb key "l" then load_game ;; ret false
  else if String.eqb key "q" then
    print MsgQuit ;;
    update_game (fun g => with_running g false) ;;
    ret true
  else if String.eqb key "w" then Player.move pl 0 (-1) ;; ret false
  else if String.eqb key "s" then Player.move pl 0 1 ;; ret false
  else if String.eqb key "a" then Player.move pl (-1) 0 ;; ret false
  else if String.eqb key "d" then Player.move pl 1 0 ;; ret false
  else ret false.

Definition handle_input (key : string) : M unit :=
  let* g := get_game in
  let pl := player g in
  let* returned := dispatch key pl in
  if returned then ret tt else Player.discover_area pl.

(** [Enemy(spawn_x, spawn_y, "Police Officer", 60 + wanted * 10,
    15 + wanted * 5, "Police")] *)
Definition spawn_one : M unit :=
  let* g := get_game in
  let* p := get_player (player g) in
  let* rx := randint (-5) 5 in
  let spawn_x := clamp (x p + rx) 0 (MAP_WIDTH - 1) in
  let* ry := randint (-5) 5 in
  let spawn_y := clamp (y p + ry) 0 (MAP_HEIGHT - 1) in
  let* found := GameMap.get_object_at spawn_x spawn_y in
  match found with
  | Some _ => ret tt
  | None =>
      let* police := new (OEnemy (Enemy_init spawn_x spawn_y "Police Officer"
                                    (60 + wanted_level p * 10)
                                    (15 + wanted_level p * 5) "Police")) in
      GameMap.add_object police ;;
      update_game (fun g =>
        with_enemies g
          (dict_set (enemies g) ("police_" ++ str (length (enemies g))) police))
  end.

Definition spawn_police : M unit :=
  let* g := get_game in
  let* p := get_player (player g) in
  if 0 <? wanted_level p
  then for_each (replicate (Z.to_nat (wanted_level p)) tt) (fun _ => spawn_one)
  else ret tt.

(** [for enemy in active_enemies: if enemy.health > 0:
    enemy.take_turn(self.player, self.game_map)] *)
Definition enemy_turn (enemy : oid) : M unit :=
  let* e := get_enemy enemy in
  if 0 <? health e then
    let* g := get_game in Enemy.take_turn enemy (player g)
  else ret tt.

(** The three periodic effects at the top of a pass, each gated by the
    tick counter [t]. *)
Definition periodic_effects (pl : oid) (t : Z) : M unit :=
  when (t mod 10 =? 0) (update_player pl Player.update_needs) ;;
  let* p := get_player pl in
  when ((0 <? wanted_level p) && (t mod 50 =? 0))
    (update_player pl (fun p => Player.reduce_wanted_level p 1)) ;;
  let* p := get_player pl in
  when ((0 <? wanted_level p) && (t mod 20 =? 0)) spawn_police.

(** [active_enemies = list(self.enemies.values())] and the loop over it. *)
Definition enemy_turns : M unit :=
  let* g := get_game in
  for_each (dict_values (enemies g)) enemy_turn.

(** One pass through the body of [while self.running]; the result is
    [true] when the pass ended in [break]. *)
Definition loop_body : M bool :=
  let* g := get_game in
  GameMap.render (player g) ;;
  let* p := get_player (player g) in
  if health p <=? 0 then
    print MsgGameOver ;;
    update_game (fun g => with_running g false) ;;
    ret true
  else
    periodic_effects (player g) (game_time g) ;;
    let* action := input in
    handle_input (lower action) ;;
    enemy_turns ;;
    update_game (fun g => with_game_time g (game_time g + 1)) ;;
    ret false.

(** [while self.running: ...].  Every pass reads a line, so the loop ends
    at the latest when the input does; [fuel] is one more than the lines
    left. *)
Fixpoint while_running (fuel : nat) : M LoopExit :=
  match fuel with
  | O => raise EOFError
  | S fuel' =>
      let* g := get_game in
      if running g then
        let* broke := loop_body in
        if broke then ret ExitDefeat else while_running fuel'
      else ret ExitNotRunning
  end.

Definition game_loop : M LoopExit :=
  let* g := get_game in
  Player.discover_area (player g) ;;
  let* p := get_player (player g) in
  when (0 <? wanted_level p) spawn_police ;;
  let* lines := gets stdin in
  while_running (S (length lines)).

End Game.

(** ** The program *)

(** The [Game] instance before [__init__] has run: [__new__] has set
    [_initialized] to [False], the other attributes do not exist yet. *)
Definition blank_game : Game :=
  mkGame (mkGameMap 0 0 []) 0%nat false 0 [] [] [] [] [] [] false.

(** The world the program starts in, on a disk with room. *)
Definition boot (lines : list Line) (rnd : nat -> nat) (f : File) (writable : bool) : World :=
  mkWorld [] blank_game lines rnd 0 [] f writable false.

(** [if __name__ == "__main__": ...] *)
Definition main : M LoopExit :=
  Game.__init__ ;;
  let* initial_choice := input in
  (if String.eqb (lower initial_choice) "l" then Game.load_game else ret tt) ;;
  Game.game_loop.

(** * Vocabulary of the statements *)

(** ** take_damage *)

(** A police officer as [Enemy.__init__] makes the character part. *)
Definition officer : Character :=
  Character_init 78 2 ENEMY_CHAR "Police Officer" 60 0 (100 # 1).

(** CJ with no health left. *)
Definition downed_cj : Character := with_health (Player_init 40 12) 0.

(** ** Leaving a vehicle *)

(** A console line that is no number: what the player types, its
    [lower()], and no [int()] value. *)
Definition cmd (s : string) : Line := mkLine s s None.

(** The same command [n] times. *)
Definition keys (n : nat) (s : string) := replicate n (cmd s).

(** New game; walk to the Green Sabre, get in, drive east to the last
    column. *)
Definition drive_to_edge : list Line :=
  cmd "" :: keys 9 "a" ++ keys 1 "w" ++ keys 1 "e" ++ keys 49 "d".

Definition at_edge : World :=
  result_world (main (boot drive_to_edge (fun _ => 0%nat) NoFile true)).

(** New game; get into the Green Sabre and park it left of the Pistol. *)
Definition drive_to_pistol : list Line :=
  cmd "" :: keys 9 "a" ++ keys 1 "w" ++ keys 1 "e" ++ keys 7 "w" ++ keys 29 "a" ++ keys 1 "w".

Definition at_pistol : World :=
  result_world (main (boot drive_to_pistol (fun _ => 0%nat) NoFile true)).

(** Where object [i] is. *)
Definition position (w : World) (i : oid) : option (Z * Z) :=
  match heap w !! i with
  | Some o => Some (x (obj_base o), y (obj_base o))
  | None => None
  end.

(** ** Missions *)

(** The player after [Mission.complete]. *)
Definition rewarded (m : Mission) (p : Player) : Player :=
  let p1 := with_character p (with_money p (money p + reward_money m)) in
  match reward_item m with
  | Some it => with_character p1 (fst (Character.add_item p1 it))
  | None => p1
  end.

(** The player after the four closing statements of a mission. *)
Definition after_completion (m : Mission) (p : Player) : Player :=
  with_current_mission
    (with_missions_completed (rewarded m p)
       (missions_completed (rewarded m p) ++ [mission_name m])) None.

(** The NPC's mission is flagged as completed. *)
Definition flagged (w : World) (npc : oid) : Prop :=
  exists o n, heap w !! npc = Some o /\ obj_npc o = Some n /\ mission_completed n = true.

(** What one talk does to the mission rewards of the player [p]. *)
Inductive talk_effect (w w' : World) (npc : oid) (n : NPC) (p p' : Player) : Prop :=
| talk_no_reward :
    missions_completed p' = missions_completed p ->
    money p' = money p ->
    inventory p' = inventory p ->
    (flagged w npc <-> flagged w' npc) ->
    talk_effect w w' npc n p p'
| talk_completes (m : Mission) :
    mission_offered n = Some m ->
    mission_completed n = false ->
    missions_completed p' = missions_completed p ++ [mission_name m] ->
    money p' = money p + reward_money m ->
    inventory p' = inventory p ++ match reward_item m with Some it => [it] | None => [] end ->
    flagged w' npc ->
    talk_effect w w' npc n p p'.

(** The talk with [o] gets as far as the accept prompt: the mission is
    not flagged as completed and the player has no current mission; an
    ordinary NPC asks when the objective is not met yet, Big Smoke asks
    after Sweet's and Ryder's missions a player without the Cash Bundle. *)
Definition prompt_reached (h : list Obj) (o : Obj) (n : NPC) (p : Player) (m : Mission)
  : Prop :=
  mission_completed n = false
  /\ current_mission p = None
  /\ match o with
     | OBigSmoke _ =>
         str_mem "Sweet's Mission" (missions_completed p) = true
         /\ str_mem "Ryder's Mission" (missions_completed p) = true
         /\ Mission.any_item h (inventory p)
              (Mission.is_named Item.is_MoneyBundle "Cash Bundle") = false
     | _ => Mission.call_objective (objective_func m) h p = false
     end.

(** The world after the answer [l] to the accept prompt for [m]. *)
Definition answered (w : World) (pl : oid) (p : Player) (m : Mission)
    (l : Line) (rest : list Line) : World :=
  if String.eqb (lower l) "yes"
  then with_heap (with_stdin w rest)
         (<[pl := OPlayer (with_current_mission p (Some m))]> (heap w))
  else with_stdin w rest.

(** ** A new game *)

Definition sweet_npc : NPC :=
  NPC_init 5 5 "Sweet" "Hey CJ, long time no see! We got some business to handle." NPC_CHAR.

Definition ryder_npc : NPC :=
  NPC_init 10 10 "Ryder" "Yo, CJ! You still busta? Go get me some spray cans." NPC_CHAR.

(** The objects [Game.__init__] creates, in creation order; [base] is the
    identity of the first of them. *)
Definition fresh_objects (base : nat) : list Obj :=
  [ OPlayer (Player_init 40 12);
    ONPC (with_mission_offered sweet_npc (Some Game.sweet_mission));
    ONPC (with_mission_offered ryder_npc (Some Game.ryder_mission));
    OBigSmoke (bigsmoke_with_npc (BigSmoke_init 20 15)
                 (with_mission_offered (BigSmoke_init 20 15) (Some Game.big_smoke_mission)));
    OItem (Weapon_init 2 2 "Pistol" "A basic handgun." 15 75);
    OItem (Weapon_init 75 20 "Shotgun" "Deals heavy damage up close." 30 200);
    OItem (HealthPack_init 7 7 "Small Health Pack" "Restores a bit of health." 25 30);
    OItem (MoneyBundle_init 20 6 "Cash Bundle" "A stack of money." 200);
    OItem (Weapon_init 0 0 "Knife" "A sharp blade." 10 50);
    OItem (Weapon_init 0 0 "Uzi" "Fast firing submachine gun." 20 150);
    OItem (HealthPack_init 0 0 "Large Health Pack" "Restores a lot of health." 50 75);
    OShop (Shop_init 70 5 "Ammu-Nation"
             [((base + 8)%nat, 50); ((base + 9)%nat, 150); ((base + 10)%nat, 75)]
             "Ammu-Nation");
    OItem (Food_init 0 0 "Cluckin' Bell Burger" "A greasy burger." 40 15);
    OItem (Drink_init 0 0 "Sprunk" "Refreshing soda." 30 10);
    OShop (Shop_init 40 2 "Cluckin' Bell"
             [((base + 12)%nat, 15); ((base + 13)%nat, 10)] "Fast Food");
    OEnemy (Enemy_init 15 10 "Gangster" 40 10 "Ballaz");
    OEnemy (Enemy_init 25 8 "Gangster" 40 10 "Vagos");
    OEnemy (Enemy_init 78 2 "Police Officer" 60 15 "Police");
    OVehicle (Vehicle_init 30 10 "Green Sabre" 100 3 VEHICLE_CHAR);
    OVehicle (Vehicle_init 75 15 "Police Car" 120 4 VEHICLE_CHAR) ].

Definition fresh_game (base : nat) : Game :=
  mkGame
    (mkGameMap MAP_WIDTH MAP_HEIGHT
       (map (Nat.add base) [0; 1; 2; 3; 4; 5; 6; 7; 11; 14; 15; 16; 17; 18; 19]%nat))
    base true 0
    [("sweet", (base + 1)%nat); ("ryder", (base + 2)%nat); ("big_smoke", (base + 3)%nat)]
    [("pistol", (base + 4)%nat); ("shotgun", (base + 5)%nat);
     ("health_pack_1", (base + 6)%nat); ("cash_bundle", (base + 7)%nat)]
    [("ammu_nation", (base + 11)%nat); ("cluckin_bell", (base + 14)%nat)]
    [("gangster1", (base + 15)%nat); ("gangster2", (base + 16)%nat);
     ("police_officer", (base + 17)%nat)]
    [("green_sabre", (base + 18)%nat); ("police_car", (base + 19)%nat)]
    [("Sweet's Mission", Game.sweet_mission); ("Ryder's Mission", Game.ryder_mission);
     ("Big Smoke's Mission", Game.big_smoke_mission)]
    true.

(** The world a new game starts in: the environment of [w], the objects
    of a new game allocated after those of [w]. *)
Definition fresh_world (w : World) : World :=
  mkWorld (heap w ++ fresh_objects (length (heap w))) (fresh_game (length (heap w)))
    (stdin w) (random_source w) (random_pos w) (console w) (disk w) (disk_writable w)
    (disk_full w).

(** ** Loading *)

(** The exceptions that reading a parsed document can raise. *)
Definition lookup_error (e : Exn) : Prop :=
  e = TypeError \/ e = AttributeError \/ exists k, e = KeyError k.

(** A call that only reads the document: it returns or raises in the
    world it was called in. *)
Definition reads {A} (m : M A) : Prop :=
  forall w, (exists a, m w = Val a w) \/ (exists e, m w = Raise e w /\ lookup_error e).

(** The line [load_game] prints for the exception it caught. *)
Definition load_report (e : Exn) : Msg :=
  match e with
  | FileNotFoundError => MsgLoadNotFound
  | JSONDecodeError => MsgLoadCorrupt
  | _ => MsgLoadUnexpected e
  end.

(** ** What an operation leaves alone *)

(** [R w w'] holds from the world before [m] to the world after it,
    whether [m] returned or raised. *)
Definition framed (R : World -> World -> Prop) {A} (m : M A) : Prop :=
  forall w, R w (result_world (m w)).

(** ** The main loop *)

(** Nothing read, nothing printed, [running] untouched. *)
Definition quiet (w w' : World) : Prop :=
  stdin w' = stdin w /\ console w' = console w
  /\ running (game w') = running (game w).

(** The loop is not switched off. *)
Definition still_running (w w' : World) : Prop :=
  running (game w) = true -> running (game w') = true.

(** All three chained missions are in the completed list. *)
Definition victory (p : Player) : bool :=
  str_mem "Sweet's Mission" (missions_completed p)
  && str_mem "Ryder's Mission" (missions_completed p)
  && str_mem "Big Smoke's Mission" (missions_completed p).

(** A play through the three missions: Pistol, Sweet, Shotgun, Ryder,
    Cash Bundle, Big Smoke. *)
Definition play_to_victory : list Line :=
  cmd "" :: keys 37 "a" ++ keys 10 "w" ++ [cmd "e"]
  ++ keys 2 "s" ++ [cmd "d"; cmd "e"]
  ++ keys 16 "s" ++ keys 70 "d" ++ [cmd "e"]
  ++ keys 9 "w" ++ keys 63 "a" ++ [cmd "e"]
  ++ keys 5 "w" ++ keys 8 "d" ++ [cmd "e"]
  ++ keys 8 "s" ++ [cmd "e"].

(** The player object of the game. *)
Definition player_of (w : World) : option Player :=
  match heap w !! player (game w) with
  | Some (OPlayer p) => Some p
  | _ => None
  end.

(** ** The fuel of the loop *)

(** No console line is given back. *)
Definition consumed (w w' : World) : Prop :=
  (length (stdin w') <= length (stdin w))%nat.

(** ** A new game is a valid world *)

(** The objects of the map, resolved. *)
Definition map_view (w : World) : list (option Obj) :=
  map (fun i => heap w !! i) (objects (game_map (game w))).

(** The cells an object occupies. *)
Definition footprint (o : Obj) : list (Z * Z) :=
  match o with
  | OBigSmoke b => BigSmoke.get_all_positions b
  | _ => [(x (obj_base o), y (obj_base o))]
  end.

Definition all_in_grid (objs : list Obj) : bool :=
  forallb (fun c => in_bounds (fst c) (snd c)) (flat_map footprint objs).

Definition exclusive (objs : list Obj) : bool :=
  bool_decide (NoDup (flat_map footprint objs)).

(** The state a new game starts in: CJ as [Player.__init__] makes him in
    the centre of the map, the loop switched on, the clock at 0, and on
    the map a set of objects inside the grid, no two on one cell. *)
Definition new_game_state (w : World) : Prop :=
  heap w !! player (game w)
    = Some (OPlayer (Player_init (MAP_WIDTH / 2) (MAP_HEIGHT / 2)))
  /\ running (game w) = true
  /\ game_time (game w) = 0
  /\ exists objs, map_view w = map Some objs
       /\ all_in_grid objs = true /\ exclusive objs = true.

(** ** Big Smoke's two tiles *)

(** A random source that walks the first gangster six cells right and then
    down. *)
Definition steer (n : nat) : nat :=
  match (n mod 9)%nat with
  | 0%nat => 3%nat
  | 1%nat => if (n <? 54)%nat then 0%nat else 2%nat
  | 2%nat => 1%nat
  | _ => 0%nat
  end.

(** Ten passes of a new game with that source. *)
Definition above_big_smoke : World :=
  result_world (main (boot (cmd "" :: keys 10 "i") steer NoFile true)).

(** ** Plays *)

(** The world at the end of [play_to_victory]. *)
Definition after_victory : World :=
  result_world (main (boot play_to_victory (fun _ => 0%nat) NoFile true)).

(** A console line that [int()] accepts. *)
Definition num (n : Z) : Line := mkLine "1" "1" (Some n).

(** Fetch and equip the Shotgun, walk to the police officer, shoot once. *)
Definition hunt_officer : list Line :=
  cmd "" :: keys 34 "d" ++ keys 8 "s" ++ [cmd "e"; cmd "u"; num 1] ++ keys 19 "w"
  ++ keys 5 "d" ++ [cmd "f"].

Definition before_last_shot : World :=
  result_world (main (boot hunt_officer (fun _ => 0%nat) NoFile true)).

(** Pick up the Pistol and bring it to Sweet. *)
Definition visit_sweet : list Line :=
  cmd "" :: keys 37 "a" ++ keys 10 "w" ++ [cmd "e"] ++ keys 2 "s" ++ [cmd "d"; cmd "e"].

Definition after_sweet : World :=
  result_world (main (boot visit_sweet (fun _ => 0%nat) NoFile true)).

(** Walk up to the police officer and wait. *)
Definition stand_by_officer : list Line :=
  cmd "" :: keys 38 "d" ++ keys 11 "w" ++ keys 15 "i".

(** The world [Game()] leaves, with [lines] on the console. *)
Definition new_game (lines : list Line) : World :=
  result_world (Game.__init__ (boot lines (fun _ => 0%nat) NoFile true)).

(** A new game in which CJ has no health left. *)
Definition fallen : World :=
  with_heap (new_game [cmd "w"])
    (<[0%nat := OPlayer (with_character (Player_init 40 12) downed_cj)]>
       (heap (new_game [cmd "w"]))).

(** ** What a save is meant to keep *)

(** Name and class of each item carried. *)
Definition inventory_view (w : World) (p : Player) : list (option (string * string)) :=
  map (fun i => match heap w !! i with
                | Some (OItem it) => Some (name it, Item.class_name it)
                | _ => None
                end) (inventory p).

(** Position, health, money, inventory (names and classes) and completed
    missions of the player. *)
Definition progress (w : World)
  : option (Z * Z * Z * Z * list (option (string * string)) * list string) :=
  match player_of w with
  | Some p => Some (x p, y p, health p, money p, inventory_view w p, missions_completed p)
  | None => None
  end.

(** The player is in a vehicle whose occupant is the player. *)
Definition linked (w : World) : bool :=
  match player_of w with
  | Some p =>
      match current_vehicle p with
      | Some v => match heap w !! v with
                  | Some (OVehicle veh) => same_ref (occupant veh) (player (game w))
                  | _ => false
                  end
      | None => false
      end
  | None => false
  end.

(** The document [save_game] writes in [w]. *)
Definition saved_document (w : World) : json :=
  match disk (result_world (Game.save_game w)) with
  | Document d => d
  | _ => JNull
  end.

(** [d] without the field [k] of its player. *)
Definition without_player_field (k : string) (d : json) : json :=
  match d with
  | JObj top =>
      match dict_get top "player" with
      | Some (JObj fields) => JObj (dict_set top "player" (JObj (dict_del fields k)))
      | _ => d
      end
  | _ => d
  end.

(** The field [k] of the player of [d]. *)
Definition player_field (k : string) (d : json) : option json :=
  match d with
  | JObj top =>
      match dict_get top "player" with
      | Some (JObj fields) => dict_get fields k
      | _ => None
      end
  | _ => None
  end.

(** ** Health, needs and wanted level *)

(** CJ as a new game makes him. *)
Definition cj : Player := Player_init 40 12.

(** CJ hurt, hungry and wanted. *)
Definition cj_in_trouble : Player :=
  with_wanted_level
    (with_thirst (with_hunger (with_character cj (with_health cj 40)) 1) 60) 4.

(** ** The attack *)

(** [damage] as [Character.f] computes it: the damage of the weapon in
    hand, 5 with bare fists; [None] when the object in hand has no
    [damage] attribute. *)
Definition attack_damage (h : list Obj) (c : Character) : option Z :=
  match current_weapon c with
  | None => Some 5
  | Some wp =>
      match h !! wp with
      | Some (OItem it) => match variant it with Weapon d => Some d | _ => None end
      | _ => None
      end
  end.

(** ** Items on disk *)

(** What every constructor of the program establishes: the value of a
    [MoneyBundle] is its amount. *)
Definition item_well_formed (it : Item) : Prop :=
  match variant it with
  | MoneyBundle a => value it = a
  | _ => True
  end.

(** The Cash Bundle of a new game. *)
Definition cash_bundle : Item := MoneyBundle_init 20 6 "Cash Bundle" "A stack of money." 200.

(** A document with the required keys only. *)
Definition minimal_item_document (px py : Z) (n ty : string) : json :=
  JObj [("x", JInt px); ("y", JInt py); ("name", JStr n); ("type", JStr ty)].

(** The item each class makes of it. *)
Definition default_item (px py : Z) (n ty : string) : Item :=
  if String.eqb ty "Weapon" then Weapon_init px py n "A weapon." 1 0
  else if String.eqb ty "HealthPack" then HealthPack_init px py n "A health pack." 25 0
  else if String.eqb ty "MoneyBundle" then MoneyBundle_init px py n "A bundle of cash." 0
  else if String.eqb ty "Food" then Food_init px py n "Some food." 20 0
  else if String.eqb ty "Drink" then Drink_init px py n "A drink." 20 0
  else Item_init px py n "A generic item." ITEM_CHAR 0.

(** ** Enemies, vehicles and shops on disk *)

(** The objects [ids] of the heap are the items [its]. *)
Definition items_at (h : list Obj) (ids : list oid) (its : list Item) : Prop :=
  Forall2 (fun i it => h !! i = Some (OItem it)) ids its.

(** [n] consecutive identities from [base] on. *)
Definition fresh_ids (base n : nat) : list oid := seq base n.

(** The enemy [Enemy.from_dict] makes of the document of [e]: the
    character is chosen by the faction, the inventory holds the new
    copies, no weapon is in hand. *)
Definition reloaded_enemy (e : Enemy) (inv : list oid) : Enemy :=
  mkEnemy
    (mkCharacter
       (set_char e (if String.eqb (faction e) "Police" then POLICE_CHAR else ENEMY_CHAR))
       (health e) (max_health e) inv (money e) (stamina e) (max_stamina e) None)
    (damage e) (faction e).

(** The vehicle [Vehicle.from_dict] makes of the document of [v]. *)
Definition reloaded_vehicle (v : Vehicle) : Vehicle :=
  mkVehicle (set_char v VEHICLE_CHAR) (vehicle_health v) (vehicle_max_health v) (speed v) None.

(** The shop [Shop.from_dict] makes of the document of [s]. *)
Definition reloaded_shop (s : Shop) (inv : list oid) : Shop :=
  mkShop (set_char s SHOP_CHAR) (zip inv (map snd (shop_inventory s))) (shop_type s).

(** The police officer of a new game. *)
Definition officer_enemy : Enemy := Enemy_init 78 2 "Police Officer" 60 15 "Police".

(** The object in hand, if any, is an item of the heap. *)
Definition weapon_at (h : list Obj) (c : Character) : Prop :=
  match current_weapon c with
  | None => True
  | Some wp => exists it, h !! wp = Some (OItem it)
  end.

(** The occupant, if any, is an object of the heap. *)
Definition occupant_at (h : list Obj) (v : Vehicle) : Prop :=
  match occupant v with
  | None => True
  | Some c => exists o, h !! c = Some o
  end.

(** The second shop of a new game and its stock. *)
Definition cluckin_bell : Shop :=
  Shop_init 40 2 "Cluckin' Bell" [(12%nat, 15); (13%nat, 10)] "Fast Food".

Definition cluckin_bell_menu : list Item :=
  [Food_init 0 0 "Cluckin' Bell Burger" "A greasy burger." 40 15;
   Drink_init 0 0 "Sprunk" "Refreshing soda." 30 10].

(** ** Moving on the map *)

(** No object of the map other than [self] and [other] is in the way at
    [(nx, ny)]. *)
Definition free_cell (w : World) (self : oid) (other : option oid) (nx ny : Z) : Prop :=
  forall i o,
    In i (objects (game_map (game w))) -> i <> self -> same_ref other i = false ->
    heap w !! i = Some o -> in_the_way o nx ny = false.

(** CJ at the start of a new game, with no stamina left. *)
Definition worn_out_cj : Player := with_character cj (with_stamina cj (0 # 1)).

Definition worn_out : World :=
  with_heap (new_game []) (<[0%nat := OPlayer worn_out_cj]> (heap (new_game []))).

(** ** Enemies *)

(** Defeat the officer, then wait until the police arrive (tick 80). *)
Definition police_arrived : World :=
  result_world (main (boot (hunt_officer ++ [cmd "f"] ++ keys 10 "i")
                        (fun _ => 0%nat) NoFile true)).

(** ** The objects of the map *)

(** The object [o] covers the cell [(px, py)]: it has its position there
    or, if it is Big Smoke, his second tile is there. *)
Definition covers (o : Obj) (px py : Z) : Prop :=
  (x (obj_base o) = px /\ y (obj_base o) = py)
  \/ exists b, o = OBigSmoke b /\ char2_x b = px /\ char2_y b = py.

(** ** Shops *)

(** The player after paying [price] for [item]. *)
Definition bought (p : Player) (item : oid) (price : Z) : Player :=
  with_character p
    (with_inventory (with_money p (money p - price)) (inventory p ++ [item])).

(** A line the shop menu skips: not ["0"], and either no number or a
    number that is no menu entry. *)
Definition skipped (n : nat) (l : Line) : Prop :=
  text l <> "0"
  /\ match int_value l with
     | None => True
     | Some c => c < 1 \/ Z.of_nat n < c
     end.

(** Two lines the menu of a shop with two entries skips. *)
Definition chatter : list Line := [cmd "burger"; mkLine "7" "7" (Some 7)].

(** ** Using and picking up items *)

(** CJ before the last shot at the officer, and the Shotgun he holds. *)
Definition armed_cj : Player :=
  match player_of before_last_shot with Some p => p | None => cj end.

Definition shotgun : Item :=
  Weapon_init 75 20 "Shotgun" "Deals heavy damage up close." 30 200.

(** ** Saving and loading *)

(** Only the console and the disk differ. *)
Definition same_state (w w' : World) : Prop :=
  heap w' = heap w /\ game w' = game w /\ stdin w' = stdin w
  /\ random_pos w' = random_pos w /\ disk_writable w' = disk_writable w
  /\ disk_full w' = disk_full w.

(** A new game on a disk that cannot be written. *)
Definition read_only_game : World :=
  result_world (Game.__init__ (boot [] (fun _ => 0%nat) NoFile false)).

(** The world [w] on a disk that can be opened for writing but has no
    room left. *)
Definition filled (w : World) : World :=
  mkWorld (heap w) (game w) (stdin w) (random_source w) (random_pos w) (console w)
    (disk w) true true.

(** A new game saved once, after which the disk has filled up. *)
Definition saved_then_filled : World :=
  filled (result_world (Game.save_game (new_game []))).

(** ** Police *)

(** The officer [spawn_police] creates at [(sx, sy)] for wanted level
    [wl]. *)
Definition spawned_officer (sx sy wl : Z) : Enemy :=
  Enemy_init sx sy "Police Officer" (60 + wl * 10) (15 + wl * 5) "Police".

(** The world after an officer was spawned at [(sx, sy)]. *)
Definition with_officer (w : World) (sx sy wl : Z) : World :=
  with_game
    (with_heap (with_random_pos w (random_pos w + 2))
       (heap w ++ [OEnemy (spawned_officer sx sy wl)]))
    (with_enemies
       (with_game_map (game w)
          (with_objects (game_map (game w))
             (objects (game_map (game w)) ++ [length (heap w)])))
       (dict_set (enemies (game w))
          ("police_" ++ Game.str (length (enemies (game w)))) (length (heap w)))).

(** ** The fog of war *)

(** The fog mask has [MAP_HEIGHT] rows of [MAP_WIDTH] cells. *)
Definition mask_ok (rows : list (list bool)) : Prop :=
  length rows = Z.to_nat MAP_HEIGHT
  /\ Forall (fun row => length row = Z.to_nat MAP_WIDTH) rows.

(** [rows[cy][cx]], [false] outside the mask. *)
Definition discovered (rows : list (list bool)) (cx cy : Z) : bool :=
  match rows !! Z.to_nat cy with
  | Some row => match row !! Z.to_nat cx with Some b => b | None => false end
  | None => false
  end.

(** The cell [(cx, cy)] is one that [discover_area] marks for a player at
    [(px, py)]: inside the grid and inside the circle of radius
    [VISION_RADIUS]. *)
Definition in_sight (px py cx cy : Z) : bool :=
  in_bounds cx cy
  && ((cx - px) * (cx - px) + (cy - py) * (cy - py) <=? VISION_RADIUS * VISION_RADIUS).

(** * Properties *)

(** ** Running monadic code step by step *)

Lemma bind_val {A B} (m : M A) (k : A -> M B) w a w' :
  m w = Val a w' -> bind m k w = k a w'.
Proof. unfold bind. intros ->. reflexivity. Qed.

Lemma bind_raise {A B} (m : M A) (k : A -> M B) w e w' :
  m w = Raise e w' -> bind m k w = Raise e w'.
Proof. unfold bind. intros ->. reflexivity. Qed.

Lemma bind_bind {A B C} (m : M A) (f : A -> M B) (g : B -> M C) w :
  bind (bind m f) g w = bind m (fun a => bind (f a) g) w.
Proof. unfold bind. destruct (m w); reflexivity. Qed.

Lemma bind_ret {A B} (a : A) (k : A -> M B) w : bind (ret a) k w = k a w.
Proof. reflexivity. Qed.

Lemma bind_gets {A B} (f : World -> A) (k : A -> M B) w :
  bind (gets f) k w = k (f w) w.
Proof. reflexivity. Qed.

Lemma bind_get_game {B} (k : Game -> M B) w : bind get_game k w = k (game w) w.
Proof. reflexivity. Qed.

Lemma bind_update_game {B} (f : Game -> Game) (k : unit -> M B) w :
  bind (update_game f) k w = k tt (with_game w (f (game w))).
Proof. reflexivity. Qed.

Lemma bind_store {B} i o (k : unit -> M B) w :
  bind (store i o) k w = k tt (with_heap w (<[i := o]> (heap w))).
Proof. reflexivity. Qed.

Lemma bind_print {B} m (k : unit -> M B) w :
  bind (print m) k w = k tt (with_console w (console w ++ [m])).
Proof. reflexivity. Qed.

(** Normal forms of worlds and games. *)
Ltac wsimpl :=
  unfold with_heap, with_game, with_stdin, with_random_pos, with_console,
    with_disk, with_game_map, with_player, with_running, with_game_time,
    with_npcs, with_items, with_shops, with_enemies, with_vehicles,
    with_missions, with_initialized, with_objects;
  cbn [heap game stdin random_source random_pos console disk disk_writable disk_full
       game_map player running game_time npcs items shops enemies vehicles
       missions initialized width height objects].

Ltac mstep :=
  first
    [ rewrite bind_bind | rewrite bind_ret | rewrite bind_gets
    | rewrite bind_get_game | rewrite bind_update_game | rewrite bind_store
    | rewrite bind_print ].

Ltac msimpl := wsimpl; cbv beta; repeat (mstep; wsimpl; cbv beta).

Lemma deref_val w i o : heap w !! i = Some o -> deref i w = Val o w.
Proof. unfold deref. intros ->. reflexivity. Qed.

Lemma get_player_val w i p :
  heap w !! i = Some (OPlayer p) -> get_player i w = Val p w.
Proof. intros H. unfold get_player. rewrite (bind_val _ _ _ _ _ (deref_val _ _ _ H)). reflexivity. Qed.

Lemma get_vehicle_val w i v :
  heap w !! i = Some (OVehicle v) -> get_vehicle i w = Val v w.
Proof. intros H. unfold get_vehicle. rewrite (bind_val _ _ _ _ _ (deref_val _ _ _ H)). reflexivity. Qed.

Lemma get_enemy_val w i e :
  heap w !! i = Some (OEnemy e) -> get_enemy i w = Val e w.
Proof. intros H. unfold get_enemy. rewrite (bind_val _ _ _ _ _ (deref_val _ _ _ H)). reflexivity. Qed.

Lemma get_npc_val w i o n :
  heap w !! i = Some o -> obj_npc o = Some n -> get_npc i w = Val n w.
Proof. intros H Hn. unfold get_npc. rewrite (bind_val _ _ _ _ _ (deref_val _ _ _ H)), Hn. reflexivity. Qed.

Lemma get_character_val w i o c :
  heap w !! i = Some o -> obj_character o = Some c -> get_character i w = Val c w.
Proof. intros H Hc. unfold get_character. rewrite (bind_val _ _ _ _ _ (deref_val _ _ _ H)), Hc. reflexivity. Qed.

Lemma on_character_val {A} w i o c (f : Character -> Character * A) :
  heap w !! i = Some o -> obj_character o = Some c ->
  on_character i f w
  = Val (snd (f c)) (with_heap w (<[i := obj_with_character o (fst (f c))]> (heap w))).
Proof.
  intros H Hc. unfold on_character.
  rewrite (bind_val _ _ _ _ _ (deref_val _ _ _ H)), Hc. reflexivity.
Qed.

Lemma update_player_val w i p f :
  heap w !! i = Some (OPlayer p) ->
  update_player i f w = Val tt (with_heap w (<[i := OPlayer (f p)]> (heap w))).
Proof.
  intros H. unfold update_player.
  rewrite (bind_val _ _ _ _ _ (get_player_val _ _ _ H)). reflexivity.
Qed.

Lemma update_npc_val w i o n f :
  heap w !! i = Some o -> obj_npc o = Some n ->
  update_npc i f w = Val tt (with_heap w (<[i := obj_with_npc o (f n)]> (heap w))).
Proof.
  intros H Hn. unfold update_npc.
  rewrite (bind_val _ _ _ _ _ (deref_val _ _ _ H)), Hn. reflexivity.
Qed.

(** ** take_damage *)

Lemma take_damage_health (c : Character) (a : Z) :
  health (fst (Character.take_damage c a)) = Z.max 0 (health c - a).
Proof.
  unfold Character.take_damage. simpl.
  destruct (Z.ltb_spec (health c - a) 0); simpl; lia.
Qed.

Lemma take_damage_result (c : Character) (a : Z) :
  snd (Character.take_damage c a) = (health (fst (Character.take_damage c a)) =? 0).
Proof.
  unfold Character.take_damage. simpl.
  destruct (Z.ltb_spec (health c - a) 0); reflexivity.
Qed.

Lemma take_damage_frame (c : Character) (a : Z) :
  max_health (fst (Character.take_damage c a)) = max_health c
  /\ money (fst (Character.take_damage c a)) = money c
  /\ inventory (fst (Character.take_damage c a)) = inventory c
  /\ character_base (fst (Character.take_damage c a)) = character_base c.
Proof.
  unfold Character.take_damage. simpl.
  destruct (Z.ltb_spec (health c - a) 0); simpl; auto.
Qed.

(** C9, as amended: [take_damage] clamps at 0, stays within [0, max_health]
    for a character that was within it, and returns [True] exactly when the
    health is 0 after the call -- also when it was 0 before. *)
Theorem take_damage_spec (c : Character) (a : Z) :
  0 <= a -> 0 <= health c <= max_health c ->
  0 <= health (fst (Character.take_damage c a)) <= max_health (fst (Character.take_damage c a))
  /\ health (fst (Character.take_damage c a)) = Z.max 0 (health c - a)
  /\ (snd (Character.take_damage c a) = true <-> health (fst (Character.take_damage c a)) = 0).
Proof.
  intros Ha Hc.
  destruct (take_damage_frame c a) as (Hmax & _).
  rewrite Hmax, take_damage_result, take_damage_health.
  repeat split; lia.
Qed.

Lemma take_damage_spec_witness :
  (0 <= 15 /\ 0 <= health officer <= max_health officer)
  /\ 0 <= health (fst (Character.take_damage officer 15))
        <= max_health (fst (Character.take_damage officer 15))
  /\ health (fst (Character.take_damage officer 15)) = Z.max 0 (health officer - 15)
  /\ (snd (Character.take_damage officer 15) = true
      <-> health (fst (Character.take_damage officer 15)) = 0).
Proof.
  split; [simpl; lia|].
  apply (take_damage_spec officer 15); simpl; lia.
Defined.

(** C9 as stated fails on the returned boolean: a character at health 0
    that is hit again is reported defeated, although the health was not
    positive before the call. *)
Lemma take_damage_edge_counterexample :
  0 <= 10 /\ 0 <= health downed_cj <= max_health downed_cj
  /\ snd (Character.take_damage downed_cj 10) = true
  /\ ~ (health (fst (Character.take_damage downed_cj 10)) = 0 /\ 0 < health downed_cj).
Proof.
  simpl. repeat split; try lia; try reflexivity.
Qed.

(** ** Leaving a vehicle *)

Lemma exit_general (w : World) (v c : oid) (veh : Vehicle) (p : Player) :
  heap w !! v = Some (OVehicle veh) ->
  heap w !! c = Some (OPlayer p) ->
  occupant veh = Some c ->
  exists w' p',
    Vehicle.exit v c w = Val true w'
    /\ heap w' !! v = Some (OVehicle (with_occupant veh None))
    /\ heap w' !! c = Some (OPlayer p')
    /\ current_vehicle p' = None
    /\ x p' = x veh + 1 /\ y p' = y veh
    /\ game w' = game w
    /\ (forall i, i <> v -> i <> c -> heap w' !! i = heap w !! i).
Proof.
  intros Hv Hc Hocc.
  assert (Hne : v <> c) by (intros ->; congruence).
  assert (Hlv : (v < length (heap w))%nat) by (eapply lookup_lt_Some; eauto).
  assert (Hlc : (c < length (heap w))%nat) by (eapply lookup_lt_Some; eauto).
  unfold Vehicle.exit.
  rewrite (bind_val _ _ _ _ _ (get_vehicle_val _ _ _ Hv)).
  rewrite Hocc. unfold same_ref. rewrite Nat.eqb_refl.
  unfold store at 1, modify at 1. unfold bind at 1.
  set (w1 := with_heap w (<[v:=OVehicle (with_occupant veh None)]> (heap w))).
  assert (H1 : heap w1 !! c = Some (OPlayer p)).
  { subst w1. simpl. rewrite list_lookup_insert_ne by done. exact Hc. }
  rewrite (bind_val _ _ _ _ _ (update_player_val _ _ _ _ H1)).
  set (w2 := with_heap w1 _).
  assert (H2 : heap w2 !! c = Some (OPlayer (with_current_vehicle p None))).
  { subst w2. simpl. apply list_lookup_insert_eq. subst w1. simpl.
    rewrite length_insert. exact Hlc. }
  rewrite (bind_val _ _ _ _ _ (on_character_val _ _ _ _ _ H2 eq_refl)).
  simpl fst.
  eexists _, (with_character (with_current_vehicle p None)
                 (character_set_xy p (x veh + 1) (y veh))).
  split; [reflexivity|].
  subst w2 w1. simpl.
  split_and!; try reflexivity.
  - rewrite !list_lookup_insert_ne by done. apply list_lookup_insert_eq. exact Hlv.
  - apply list_lookup_insert_eq. rewrite !length_insert. exact Hlc.
  - intros i Hiv Hic. rewrite !list_lookup_insert_ne by done. reflexivity.
Qed.

(** C10: leaving a vehicle puts the character on the cell to the right of
    the vehicle whatever that cell is, and always unlinks the two: (1) the
    general behaviour; (2) a play from a new game that drives the Green
    Sabre to the last column, after which leaving it puts CJ outside the
    grid; (3) a play that parks it left of the Pistol, after which leaving
    it puts CJ on the Pistol's cell. *)
Theorem exit_is_unchecked :
  (forall (w : World) (v c : oid) (veh : Vehicle) (p : Player),
     heap w !! v = Some (OVehicle veh) ->
     heap w !! c = Some (OPlayer p) ->
     occupant veh = Some c ->
     exists w' p',
       Vehicle.exit v c w = Val true w'
       /\ heap w' !! v = Some (OVehicle (with_occupant veh None))
       /\ heap w' !! c = Some (OPlayer p')
       /\ current_vehicle p' = None
       /\ x p' = x veh + 1 /\ y p' = y veh)
  /\ (exists w',
        player (game at_edge) = 0%nat
        /\ dict_get (vehicles (game at_edge)) "green_sabre" = Some 18%nat
        /\ position at_edge 18%nat = Some (MAP_WIDTH - 1, 10)
        /\ Vehicle.exit 18%nat 0%nat at_edge = Val true w'
        /\ position w' 0%nat = Some (MAP_WIDTH, 10)
        /\ in_bounds MAP_WIDTH 10 = false)
  /\ (exists w',
        player (game at_pistol) = 0%nat
        /\ dict_get (vehicles (game at_pistol)) "green_sabre" = Some 18%nat
        /\ dict_get (items (game at_pistol)) "pistol" = Some 4%nat
        /\ Vehicle.exit 18%nat 0%nat at_pistol = Val true w'
        /\ position w' 0%nat = Some (2, 2)
        /\ position w' 4%nat = Some (2, 2)
        /\ In 4%nat (objects (game_map (game w')))
        /\ In 0%nat (objects (game_map (game w')))).
Proof.
  split; [|split].
  - intros w v c veh p Hv Hc Hocc.
    destruct (exit_general w v c veh p Hv Hc Hocc) as (w' & p' & H).
    exists w', p'. tauto.
  - eexists. split_and!; try (vm_compute; reflexivity).
  - eexists. split_and!; try (vm_compute; reflexivity); vm_compute; tauto.
Qed.

(** ** Missions *)

(** Reading a heap cell after some updates. *)
Ltac heap_lookup :=
  simpl heap;
  repeat first
    [ eassumption
    | (rewrite list_lookup_insert_eq
        by (rewrite ?length_insert; eauto using lookup_lt_Some)); reflexivity
    | rewrite list_lookup_insert_ne by (done || congruence) ].

Ltac run_get_player :=
  match goal with
  | |- context [bind (get_player ?i) ?k ?w] =>
      erewrite (bind_val (get_player i) k w) by (apply get_player_val; heap_lookup);
      cbv beta
  end.

Ltac run_get_npc :=
  match goal with
  | |- context [bind (get_npc ?i) ?k ?w] =>
      erewrite (bind_val (get_npc i) k w)
        by (eapply get_npc_val; [heap_lookup | first [eassumption | reflexivity]]);
      cbv beta
  end.

Ltac run_update_player :=
  match goal with
  | |- context [bind (update_player ?i ?f) ?k ?w] =>
      erewrite (bind_val (update_player i f) k w)
        by (apply update_player_val; heap_lookup);
      cbv beta; simpl heap
  end.

Ltac run_on_character :=
  match goal with
  | |- context [bind (on_character ?i ?f) ?k ?w] =>
      erewrite (bind_val (on_character i f) k w)
        by (eapply on_character_val; [heap_lookup | reflexivity]);
      cbv beta; simpl heap
  end.

Lemma is_completed_val w pl p m :
  heap w !! pl = Some (OPlayer p) ->
  Mission.is_completed m pl w
  = Val (Mission.call_objective (objective_func m) (heap w) p) w.
Proof.
  intros H. unfold Mission.is_completed. run_get_player. reflexivity.
Qed.

Lemma complete_val w pl p m :
  heap w !! pl = Some (OPlayer p) ->
  Mission.complete m pl w
  = Val tt (with_heap w (<[pl := OPlayer (rewarded m p)]> (heap w))).
Proof.
  intros H. unfold Mission.complete, rewarded.
  run_on_character. simpl.
  destruct (reward_item m) as [it|].
  - erewrite on_character_val by (heap_lookup || reflexivity).
    simpl. rewrite list_insert_insert_eq. reflexivity.
  - reflexivity.
Qed.

Lemma complete_mission_val w npc pl o n p m :
  heap w !! npc = Some o -> obj_npc o = Some n ->
  heap w !! pl = Some (OPlayer p) ->
  NPC.complete_mission npc pl m w
  = Val tt (with_heap w
      (<[npc := obj_with_npc o (with_mission_completed n true)]>
         (<[pl := OPlayer (after_completion m p)]> (heap w)))).
Proof.
  intros Hn Hon Hp.
  assert (Hne : pl <> npc) by (intros ->; rewrite Hn in Hp; inversion Hp; subst; discriminate).
  unfold NPC.complete_mission.
  rewrite (bind_val _ _ _ _ _ (complete_val _ _ _ m Hp)). cbv beta.
  run_update_player. run_update_player.
  erewrite update_npc_val; [|heap_lookup|eassumption].
  simpl. rewrite !list_insert_insert_eq. reflexivity.
Qed.

Lemma rewarded_completed m p : missions_completed (rewarded m p) = missions_completed p.
Proof. unfold rewarded. destruct (reward_item m); reflexivity. Qed.

Lemma rewarded_money m p : money (rewarded m p) = money p + reward_money m.
Proof. unfold rewarded. destruct (reward_item m); reflexivity. Qed.

Lemma rewarded_inventory m p :
  inventory (rewarded m p)
  = inventory p ++ match reward_item m with Some it => [it] | None => [] end.
Proof. unfold rewarded. destruct (reward_item m); simpl; [reflexivity|]. by rewrite app_nil_r. Qed.

Lemma flagged_after_completion w npc pl o n x0 :
  heap w !! npc = Some o -> obj_npc o = Some n -> pl <> npc ->
  flagged (with_heap w (<[npc := obj_with_npc o (with_mission_completed n true)]>
                          (<[pl := x0]> (heap w)))) npc.
Proof.
  intros Hn Hon Hne.
  exists (obj_with_npc o (with_mission_completed n true)), (with_mission_completed n true).
  split_and!.
  - simpl. apply list_lookup_insert_eq. rewrite length_insert. eauto using lookup_lt_Some.
  - destruct o; simpl in *; try discriminate; reflexivity.
  - reflexivity.
Qed.

Lemma flagged_frame w npc pl x0 :
  pl <> npc ->
  flagged w npc <-> flagged (with_heap w (<[pl := x0]> (heap w))) npc.
Proof.
  intros Hne. unfold flagged. simpl. by rewrite list_lookup_insert_ne.
Qed.

Lemma accept_prompt_effect w pl p m :
  heap w !! pl = Some (OPlayer p) ->
  exists w' p',
    result_world (NPC.accept_prompt pl m w) = w'
    /\ heap w' !! pl = Some (OPlayer p')
    /\ missions_completed p' = missions_completed p
    /\ money p' = money p /\ inventory p' = inventory p
    /\ (forall i, i <> pl -> heap w' !! i = heap w !! i)
    /\ (current_mission p' = current_mission p \/ current_mission p' = Some m).
Proof.
  intros Hp. unfold NPC.accept_prompt, bind, input.
  destruct (stdin w) as [|l rest]; simpl.
  { exists w, p. split_and!; auto. }
  destruct (String.eqb (lower l) "yes").
  - erewrite update_player_val by heap_lookup. simpl.
    eexists _, (with_current_mission p (Some m)). split_and!; try reflexivity.
    + simpl. apply list_lookup_insert_eq. eauto using lookup_lt_Some.
    + intros i Hi. simpl. by rewrite list_lookup_insert_ne.
    + by right.
  - simpl. eexists _, p. split_and!; auto.
Qed.

Lemma npc_talk_effect w npc pl n p :
  heap w !! npc = Some (ONPC n) ->
  heap w !! pl = Some (OPlayer p) ->
  exists p', heap (result_world (NPC.talk npc pl w)) !! pl = Some (OPlayer p')
    /\ talk_effect w (result_world (NPC.talk npc pl w)) npc n p p'
    /\ (current_mission p' = current_mission p \/ current_mission p' = None
        \/ (exists m, mission_offered n = Some m /\ current_mission p' = Some m
                       /\ current_mission p = None)).
Proof.
  intros Hn Hp.
  assert (Hne : pl <> npc) by (intros ->; congruence).
  unfold NPC.talk. run_get_npc.
  destruct (mission_offered n) as [m|] eqn:Hm; [|exists p; split_and!; [done|by constructor|by left]].
  destruct (mission_completed n) eqn:Hc; simpl; [exists p; split_and!; [done|by constructor|by left]|].
  rewrite (bind_val _ _ _ _ _ (is_completed_val _ _ _ m Hp)).
  destruct (Mission.call_objective _ _ _).
  - erewrite complete_mission_val by (eassumption || reflexivity). simpl.
    exists (after_completion m p). split_and!.
    + rewrite list_lookup_insert_ne by done. apply list_lookup_insert_eq. eauto using lookup_lt_Some.
    + eapply talk_completes; eauto.
      * simpl. by rewrite rewarded_completed.
      * simpl. apply rewarded_money.
      * simpl. apply rewarded_inventory.
      * apply (flagged_after_completion w npc pl (ONPC n) n); auto.
    + right; by left.
  - run_get_player.
    destruct (current_mission p) eqn:Hcm; simpl; [exists p; split_and!; [done|by constructor|by left]|].
    destruct (accept_prompt_effect w pl p m Hp) as (w' & p' & Hw & Hp' & H1 & H2 & H3 & Hfr & Hcur).
    rewrite Hw. exists p'. split_and!; auto.
    + constructor; auto. unfold flagged. by rewrite Hfr.
    + destruct Hcur as [->| ->]; [by left|]. right; right. by exists m.
Qed.

Lemma bigsmoke_talk_effect w npc pl b p :
  heap w !! npc = Some (OBigSmoke b) ->
  heap w !! pl = Some (OPlayer p) ->
  exists p', heap (result_world (BigSmoke.talk npc pl w)) !! pl = Some (OPlayer p')
    /\ talk_effect w (result_world (BigSmoke.talk npc pl w)) npc b p p'
    /\ (current_mission p' = current_mission p \/ current_mission p' = None
        \/ (exists m, mission_offered b = Some m /\ current_mission p' = Some m
                       /\ current_mission p = None)).
Proof.
  intros Hn Hp.
  assert (Hne : pl <> npc) by (intros ->; congruence).
  set (P := fun r : Result unit =>
    exists p', heap (result_world r) !! pl = Some (OPlayer p')
    /\ talk_effect w (result_world r) npc b p p'
    /\ (current_mission p' = current_mission p \/ current_mission p' = None
        \/ (exists m, mission_offered b = Some m /\ current_mission p' = Some m
                       /\ current_mission p = None))).
  change (P (BigSmoke.talk npc pl w)).
  assert (Hnothing : forall r, result_world r = w -> P r).
  { intros r Hr. subst P. cbv beta. rewrite Hr.
    exists p. split_and!; [done|by constructor|by left]. }
  unfold BigSmoke.talk. run_get_npc. run_get_player.
  destruct (_ && _); [|by apply Hnothing].
  destruct (mission_completed b) eqn:Hc; cbn [negb]; cbv beta iota; [by apply Hnothing|].
  unfold gets at 1. unfold bind at 1. cbv beta iota.
  destruct (Mission.any_item _ _ _).
  - destruct (mission_offered b) as [m|] eqn:Hm; [|by apply Hnothing].
    cbn [negb]; cbv beta iota.
    rewrite (bind_val _ _ _ _ _ (is_completed_val _ _ _ m Hp)).
    destruct (Mission.call_objective _ _ _); [|by apply Hnothing].
    erewrite complete_mission_val by (eassumption || reflexivity).
    exists (after_completion m p). simpl. split_and!.
    + rewrite list_lookup_insert_ne by done. apply list_lookup_insert_eq. eauto using lookup_lt_Some.
    + eapply talk_completes; eauto.
      * simpl. by rewrite rewarded_completed.
      * simpl. apply rewarded_money.
      * simpl. apply rewarded_inventory.
      * apply (flagged_after_completion w npc pl (OBigSmoke b) b); auto.
    + right; by left.
  - destruct (current_mission p) eqn:Hcm; [by apply Hnothing|].
    destruct (mission_offered b) as [m|] eqn:Hm; [|by apply Hnothing].
    destruct (accept_prompt_effect w pl p m Hp) as (w' & p' & Hw & Hp' & H1 & H2 & H3 & Hfr & Hcur).
    exists p'. rewrite Hw. split_and!; auto.
    + constructor; auto. unfold flagged. by rewrite Hfr.
    + destruct Hcur as [->| ->]; [by left|]. right; right. by exists m.
Qed.

Lemma talk_effect_spec w npc pl o n p :
  heap w !! npc = Some o -> obj_npc o = Some n ->
  heap w !! pl = Some (OPlayer p) ->
  exists p', heap (result_world (talk npc pl w)) !! pl = Some (OPlayer p')
    /\ talk_effect w (result_world (talk npc pl w)) npc n p p'
    /\ (current_mission p' = current_mission p \/ current_mission p' = None
        \/ (exists m, mission_offered n = Some m /\ current_mission p' = Some m
                       /\ current_mission p = None)).
Proof.
  intros Hn Hon Hp. unfold talk.
  rewrite (bind_val _ _ _ _ _ (deref_val _ _ _ Hn)).
  destruct o; simpl in Hon; try discriminate; inversion Hon; subst; simpl.
  - by apply npc_talk_effect.
  - by apply bigsmoke_talk_effect.
Qed.

Lemma talk_when_flagged w npc pl o n p :
  heap w !! npc = Some o -> obj_npc o = Some n ->
  heap w !! pl = Some (OPlayer p) ->
  mission_completed n = true ->
  talk npc pl w = Val tt w.
Proof.
  intros Hn Hon Hp Hc. unfold talk.
  rewrite (bind_val _ _ _ _ _ (deref_val _ _ _ Hn)).
  destruct o; simpl in Hon; try discriminate; inversion Hon; subst; simpl.
  - unfold NPC.talk. run_get_npc. rewrite Hc. by destruct (mission_offered n).
  - unfold BigSmoke.talk. run_get_npc. run_get_player. rewrite Hc. simpl.
    by destruct (_ && _).
Qed.

(** C8: a talk either leaves the player's completed list, money and
    inventory as they were, or it completes the NPC's mission -- which
    needs the NPC's flag to be unset, appends the name once, pays once and
    sets the flag; and once the flag is set, a talk with that NPC changes
    nothing at all, whatever the player's state and the console input. *)
Theorem completion_is_idempotent (w : World) (npc pl : oid) (o : Obj) (n : NPC) (p : Player) :
  heap w !! npc = Some o -> obj_npc o = Some n ->
  heap w !! pl = Some (OPlayer p) ->
  (exists p', heap (result_world (talk npc pl w)) !! pl = Some (OPlayer p')
      /\ talk_effect w (result_world (talk npc pl w)) npc n p p')
  /\ (mission_completed n = true -> talk npc pl w = Val tt w)
  /\ (forall w2 pl2 p2, flagged w2 npc -> heap w2 !! pl2 = Some (OPlayer p2) ->
        talk npc pl2 w2 = Val tt w2).
Proof.
  intros Hn Hon Hp. split_and!.
  - destruct (talk_effect_spec w npc pl o n p Hn Hon Hp) as (p' & H1 & H2 & _).
    by exists p'.
  - intros Hc. by eapply talk_when_flagged.
  - intros w2 pl2 p2 (o2 & n2 & H1 & H2 & H3) Hp2. by eapply talk_when_flagged.
Qed.

Lemma all_prereqs_met_In m p :
  Game.all_prereqs_met m p = true ->
  Forall (fun q => In q (missions_completed p)) (prerequisite_missions m).
Proof.
  unfold Game.all_prereqs_met, str_mem. intros H.
  rewrite forallb_forall in H. apply List.Forall_forall. intros q Hq.
  specialize (H q Hq). apply existsb_exists in H as (q' & Hin & Heq).
  apply String.eqb_eq in Heq. by subst.
Qed.

Lemma accept_prompt_val w pl p m l rest :
  heap w !! pl = Some (OPlayer p) -> stdin w = l :: rest ->
  NPC.accept_prompt pl m w = Val tt (answered w pl p m l rest).
Proof.
  intros Hp Hin. unfold NPC.accept_prompt, answered, bind, input. rewrite Hin.
  destruct (String.eqb (lower l) "yes"); [|reflexivity].
  by erewrite update_player_val by heap_lookup.
Qed.

Lemma talk_prompts w npc pl o n p m l rest :
  heap w !! npc = Some o -> obj_npc o = Some n ->
  heap w !! pl = Some (OPlayer p) ->
  mission_offered n = Some m ->
  prompt_reached (heap w) o n p m ->
  stdin w = l :: rest ->
  talk npc pl w = Val tt (answered w pl p m l rest).
Proof.
  intros Hn Hon Hp Hm (Hc & Hcur & Hkind) Hin. unfold talk.
  rewrite (bind_val _ _ _ _ _ (deref_val _ _ _ Hn)).
  destruct o; simpl in Hon; try discriminate; inversion Hon; subst; simpl.
  - unfold NPC.talk. run_get_npc. rewrite Hm, Hc. cbn [negb]. cbv beta iota.
    rewrite (bind_val _ _ _ _ _ (is_completed_val _ _ _ m Hp)). rewrite Hkind.
    run_get_player. rewrite Hcur. by apply accept_prompt_val.
  - destruct Hkind as (Hs & Hr & Hcash).
    unfold BigSmoke.talk. run_get_npc. run_get_player.
    rewrite Hs, Hr, Hc. cbn [andb negb]. cbv beta iota.
    unfold gets at 1. unfold bind at 1. cbv beta iota.
    rewrite Hcash, Hcur, Hm. by apply accept_prompt_val.
Qed.

(** C7: at an NPC that offers mission [m], a missing prerequisite ends the
    interaction with the whole world unchanged; and whatever the
    interaction does, the player's current mission afterwards is the one
    before, or none, or [m] -- and [m] only if the slot was empty and every
    prerequisite of [m] is in the completed list.  With the prerequisites
    met, when the talk gets as far as the accept prompt, the answer "yes"
    makes [m] the player's current mission and changes nothing else; any
    other answer leaves the player as before. *)
Theorem mission_needs_prerequisites (w : World) (obj pl : oid) (o : Obj) (n : NPC)
    (p : Player) (m : Mission) :
  heap w !! obj = Some o -> obj_npc o = Some n ->
  heap w !! pl = Some (OPlayer p) ->
  mission_offered n = Some m ->
  (Game.all_prereqs_met m p = false -> Game.interact_npc obj pl w = Val false w)
  /\ (exists p',
       heap (result_world (Game.interact_npc obj pl w)) !! pl = Some (OPlayer p')
       /\ (current_mission p' = current_mission p
           \/ current_mission p' = None
           \/ (current_mission p' = Some m
               /\ current_mission p = None
               /\ Forall (fun q => In q (missions_completed p))
                         (prerequisite_missions m))))
  /\ (forall l rest,
        Game.all_prereqs_met m p = true ->
        prompt_reached (heap w) o n p m ->
        stdin w = l :: rest ->
        Game.interact_npc obj pl w
        = Val true
            (if String.eqb (lower l) "yes"
             then with_heap (with_stdin w rest)
                    (<[pl := OPlayer (with_current_mission p (Some m))]> (heap w))
             else with_stdin w rest)).
Proof.
  intros Hn Hon Hp Hm. unfold Game.interact_npc.
  run_get_npc. run_get_player. rewrite Hm.
  destruct (Game.all_prereqs_met m p) eqn:Hpre.
  - split; [done|]. split.
    + destruct (talk_effect_spec w obj pl o n p Hn Hon Hp) as (p' & H1 & _ & H3).
      exists p'. split.
      * unfold bind. by destruct (talk obj pl w).
      * destruct H3 as [H3|[H3|(m' & Hm' & H3 & H4)]]; [by left|right; by left|].
        right; right. rewrite Hm in Hm'. inversion Hm'; subst m'.
        split_and!; auto. by apply all_prereqs_met_In.
    + intros l rest _ Hprompt Hin.
      rewrite (bind_val _ _ _ _ _ (talk_prompts _ _ _ _ _ _ _ _ _ Hn Hon Hp Hm Hprompt Hin)).
      reflexivity.
  - split; [done|]. split; [|discriminate]. exists p. split; [done|by left].
Qed.

(** ** The attack command *)

Lemma list_mem_In v l : list_mem v l = true <-> In v l.
Proof.
  unfold list_mem. rewrite existsb_exists. split.
  - intros (v' & Hin & Heq). apply Nat.eqb_eq in Heq. by subst.
  - intros Hin. exists v. split; [done|apply Nat.eqb_refl].
Qed.

Lemma list_remove_subset v u l : In u (list_remove v l) -> In u l.
Proof.
  induction l as [|a l IH]; simpl; [done|].
  destruct (a =? v)%nat; simpl; tauto.
Qed.

Lemma list_remove_NoDup v l : List.NoDup l -> ~ In v (list_remove v l).
Proof.
  induction 1 as [|a l Ha Hl IH]; simpl; [tauto|].
  destruct (Nat.eqb_spec a v) as [->|Hne]; [done|].
  simpl. intros [H|H]; [done|tauto].
Qed.

Lemma dict_del_values {V} (d : dict V) k v :
  In v (dict_values (dict_del d k)) -> In v (dict_values d).
Proof.
  unfold dict_values. induction d as [|[k' v'] d IH]; simpl; [done|].
  destruct (String.eqb k' k); simpl; tauto.
Qed.

Lemma forget_enemy_gone (d : dict oid) (t : oid) :
  List.NoDup (map fst d) -> List.NoDup (dict_values d) ->
  ~ In t (dict_values (Game.forget_enemy d t)).
Proof.
  unfold Game.forget_enemy, dict_values.
  induction d as [|[k v] d IH]; simpl; [tauto|].
  intros Hk Hv. inversion Hk as [|? ? Hk1 Hk2]; inversion Hv as [|? ? Hv1 Hv2]; subst.
  destruct (Nat.eqb_spec v t) as [->|Hne]; simpl.
  - by rewrite String.eqb_refl.
  - specialize (IH Hk2 Hv2).
    destruct (find (fun kv => (snd kv =? t)%nat) d) as [kv|] eqn:Hfind.
    + destruct (String.eqb_spec k (fst kv)) as [->|Hkne].
      * exfalso. apply Hk1. apply find_some in Hfind as [Hin _].
        apply in_map_iff. by exists kv.
      * simpl. intros [H|H]; [done|tauto].
    + simpl. intros [H|H]; [done|tauto].
Qed.

Lemma f_val w pl t p e b w1 :
  heap w !! pl = Some (OPlayer p) ->
  heap w !! t = Some (OEnemy e) ->
  Character.f pl t w = Val b w1 ->
  exists dmg,
    w1 = with_heap w
           (<[t := OEnemy (enemy_with_character e (fst (Character.take_damage e dmg)))]>
              (heap w))
    /\ b = snd (Character.take_damage e dmg).
Proof.
  intros Hp He. unfold Character.f.
  erewrite (bind_val (get_character pl)) by (eapply get_character_val; [eassumption|reflexivity]).
  cbv beta.
  destruct (current_weapon p) as [wp|].
  - unfold bind at 1. unfold bind at 1.
    destruct (get_item wp w) as [it w0|] eqn:Hit; [|discriminate].
    assert (w0 = w) as ->.
    { unfold get_item, bind, deref in Hit.
      destruct (heap w !! wp) as [[]|]; inversion Hit; done. }
    destruct (variant it); try discriminate.
    unfold ret at 1.
    erewrite on_character_val by (eassumption || reflexivity).
    intros H. inversion H. eexists. split; reflexivity.
  - unfold ret at 1. unfold bind at 1.
    erewrite on_character_val by (eassumption || reflexivity).
    intros H. inversion H. eexists. split; reflexivity.
Qed.

(** C4, as amended: defeating an adjacent Police enemy at wanted level 0
    leaves the wanted level at 2, removes the enemy from the map and from
    the enemies table, and leaves the player's money as it was. *)
Theorem police_defeat (w w1 : World) (t : oid) (p : Player) (e : Enemy) :
  heap w !! player (game w) = Some (OPlayer p) ->
  wanted_level p = 0 ->
  Game.find_target (heap w) (objects (game_map (game w))) (x p) (y p)
    Game.neighbours = Some t ->
  heap w !! t = Some (OEnemy e) ->
  faction e = "Police" ->
  Character.f (player (game w)) t w = Val true w1 ->
  List.NoDup (objects (game_map (game w))) ->
  List.NoDup (map fst (enemies (game w))) ->
  List.NoDup (dict_values (enemies (game w))) ->
  exists p',
    heap (result_world (Game.handle_input "f" w)) !! player (game w) = Some (OPlayer p')
    /\ wanted_level p' = 2
    /\ money p' = money p
    /\ ~ In t (objects (game_map (game (result_world (Game.handle_input "f" w)))))
    /\ ~ In t (dict_values (enemies (game (result_world (Game.handle_input "f" w))))).
Proof.
  intros Hp Hwl Htarget He Hfac Hf Hnd Hndk Hndv.
  assert (Hne : player (game w) <> t) by (intros Heq; rewrite Heq in Hp; congruence).
  destruct (f_val _ _ _ _ _ _ _ Hp He Hf) as (dmg & -> & Hdef).
  set (P := fun r : Result unit =>
    exists p',
      heap (result_world r) !! player (game w) = Some (OPlayer p')
      /\ wanted_level p' = 2
      /\ money p' = money p
      /\ ~ In t (objects (game_map (game (result_world r))))
      /\ ~ In t (dict_values (enemies (game (result_world r))))).
  change (P (Game.handle_input "f" w)).
  unfold Game.handle_input, get_game. unfold gets at 1. unfold bind at 1. cbv beta iota.
  unfold Game.dispatch. msimpl. run_get_player.
  cbn [String.eqb Ascii.eqb Bool.eqb].
  unfold Game.attack. msimpl. run_get_player. msimpl.
  rewrite Htarget. msimpl. rewrite (bind_val _ _ _ _ _ Hf). cbv beta iota.
  unfold GameMap.remove_object. msimpl.
  erewrite (bind_val (get_enemy t)) by (apply get_enemy_val; heap_lookup).
  cbv beta. cbn [faction enemy_with_character]. rewrite Hfac.
  cbn [String.eqb Ascii.eqb Bool.eqb].
  erewrite (bind_val (update_player _ _)) by (apply update_player_val; heap_lookup).
  msimpl. unfold Player.discover_area. run_get_player. msimpl.
  match goal with |- P ((if ?b then _ else _) ?W) =>
    assert (Hres : result_world ((if b then ret tt else raise IndexError) W) = W)
      by (destruct b; reflexivity);
    set (r := (if b then ret tt else raise IndexError) W) in *
  end.
  subst P. cbv beta. rewrite Hres. clear Hres r.
  eexists. cbn [heap game with_heap with_game game_map with_game_map objects
                with_objects enemies with_enemies].
  split_and!.
  - apply list_lookup_insert_eq. rewrite !length_insert. eauto using lookup_lt_Some.
  - cbn. rewrite Hwl. reflexivity.
  - reflexivity.
  - destruct (list_mem t _) eqn:Hmem.
    + by apply list_remove_NoDup.
    + intros Hin. apply list_mem_In in Hin. congruence.
  - by apply forget_enemy_gone.
Qed.

(** ** A new game *)

Lemma new_app {B} (o : Obj) (k : oid -> M B) (h l : list Obj) g i rs rp c d dw df :
  bind (new o) k (mkWorld (h ++ l) g i rs rp c d dw df)
  = k (length h + length l)%nat (mkWorld (h ++ (l ++ [o])) g i rs rp c d dw df).
Proof.
  unfold bind, new. simpl. rewrite length_app, <- app_assoc. reflexivity.
Qed.

Lemma update_npc_app {B} (k : unit -> M B) (h l : list Obj) (j : nat) n upd g i rs rp c d dw df :
  l !! j = Some (ONPC n) ->
  bind (update_npc (length h + j)%nat upd) k (mkWorld (h ++ l) g i rs rp c d dw df)
  = k tt (mkWorld (h ++ <[j := ONPC (upd n)]> l) g i rs rp c d dw df).
Proof.
  intros Hl. unfold update_npc, deref, store, modify, bind. cbn [heap].
  rewrite lookup_app_r by lia.
  replace (length h + j - length h)%nat with j by lia. rewrite Hl.
  cbn [obj_npc obj_with_npc with_heap heap]. rewrite insert_app_r. reflexivity.
Qed.

Lemma update_bigsmoke_app {B} (k : unit -> M B) (h l : list Obj) (j : nat) b upd g i rs rp c d dw df :
  l !! j = Some (OBigSmoke b) ->
  bind (update_npc (length h + j)%nat upd) k (mkWorld (h ++ l) g i rs rp c d dw df)
  = k tt (mkWorld (h ++ <[j := OBigSmoke (bigsmoke_with_npc b (upd b))]> l) g i rs rp c d dw df).
Proof.
  intros Hl. unfold update_npc, deref, store, modify, bind. cbn [heap].
  rewrite lookup_app_r by lia.
  replace (length h + j - length h)%nat with j by lia. rewrite Hl.
  cbn [obj_npc obj_with_npc with_heap heap]. rewrite insert_app_r. reflexivity.
Qed.

Lemma start_new_game_val (w : World) : Game.start_new_game w = Val tt (fresh_world w).
Proof.
  destruct w as [h g i rs rp c d dw df].
  unfold Game.start_new_game, Game.__init__. msimpl. cbv iota. msimpl.
  rewrite <- (app_nil_r h) at 1.
  rewrite new_app. cbn [length app Nat.add].
  unfold GameMap.add_object. msimpl.
  unfold Game._initialize_game_objects, Game.add_npc, Game.add_item, Game.add_shop,
    Game.add_enemy, Game.add_vehicle, GameMap.add_object.
  msimpl.
  repeat (rewrite new_app; cbn [length app]; msimpl).
  unfold Game._initialize_missions, Game.assign_mission. msimpl.
  cbn [dict_set dict_get String.eqb Ascii.eqb Bool.eqb]. msimpl.
  erewrite update_npc_app by reflexivity. msimpl.
  cbn [dict_set dict_get String.eqb Ascii.eqb Bool.eqb]. msimpl.
  erewrite update_npc_app by reflexivity. msimpl.
  cbn [dict_set dict_get String.eqb Ascii.eqb Bool.eqb]. msimpl.
  erewrite update_bigsmoke_app by reflexivity. msimpl.
  unfold update_game, modify, fresh_world, fresh_game, fresh_objects. wsimpl.
  cbn. rewrite !Nat.add_0_r. reflexivity.
Qed.

(** ** Loading *)

Lemma getitem_reads data k : reads (Json.getitem data k).
Proof.
  intros w. unfold Json.getitem, lookup_error.
  destruct data; try (right; eexists; split; [reflexivity|]; by left).
  destruct (dict_get fields k); [left|right]; eexists; [reflexivity|].
  split; [reflexivity|]. right; right; by eexists.
Qed.

Lemma get_reads data k dflt : reads (Json.get data k dflt).
Proof.
  intros w. unfold Json.get, lookup_error.
  destruct data; try (right; eexists; split; [reflexivity|]; right; by left).
  destruct (dict_get fields k); left; eexists; reflexivity.
Qed.

Lemma as_int_reads j : reads (Json.as_int j).
Proof.
  intros w. unfold lookup_error.
  destruct j; try (right; eexists; split; [reflexivity|]; by left).
  left; eexists; reflexivity.
Qed.

(** Running a reading call in front of a continuation. *)
Ltac read_step lem :=
  match goal with
  | |- context [bind ?m ?k ?w] =>
      let a := fresh "v" in
      let e := fresh "e" in
      let H := fresh "H" in
      let He := fresh "He" in
      destruct (lem w) as [[a H]|[e [H He]]];
      [ rewrite (bind_val _ _ _ _ _ H); cbv beta
      | rewrite (bind_raise _ _ _ _ _ H); eauto ]
  end.

(** [Character.from_dict] calls [cls] with seven positional arguments;
    [Player.__init__] takes two, [NPC.__init__] at most five. *)
Lemma instantiate_player_raises a1 a2 a3 a4 a5 a6 a7 w :
  Character.instantiate ClassPlayer [a1; a2; a3; a4; a5; a6; a7] w = Raise TypeError w.
Proof. reflexivity. Qed.

Lemma instantiate_npc_raises a1 a2 a3 a4 a5 a6 a7 w :
  Character.instantiate ClassNPC [a1; a2; a3; a4; a5; a6; a7] w = Raise TypeError w.
Proof. reflexivity. Qed.

Lemma character_from_dict_raises cls data w :
  exists e, Character.from_dict cls data w = Raise e w /\ lookup_error e.
Proof.
  unfold Character.from_dict.
  read_step (getitem_reads data "x").
  read_step (getitem_reads data "y").
  read_step (getitem_reads data "char").
  read_step (getitem_reads data "name").
  read_step (getitem_reads data "health").
  read_step (get_reads data "money" (JInt 0)).
  read_step (get_reads data "stamina" (JInt 100)).
  exists TypeError. unfold bind.
  destruct cls; [rewrite instantiate_player_raises|rewrite instantiate_npc_raises];
    (split; [reflexivity|by left]).
Qed.

(** [Player.from_dict] never returns. *)
Lemma player_from_dict_raises data w :
  exists e, Player.from_dict data w = Raise e w /\ lookup_error e.
Proof.
  unfold Player.from_dict.
  destruct (character_from_dict_raises ClassPlayer data w) as (e & He & Hl).
  exists e. by rewrite (bind_raise _ _ _ _ _ He).
Qed.

Lemma fresh_world_with_game w g : fresh_world (with_game w g) = fresh_world w.
Proof. reflexivity. Qed.

Lemma lookup_error_not_file e :
  lookup_error e -> e <> FileNotFoundError /\ e <> JSONDecodeError.
Proof. intros [->|[->|[k ->]]]; split; discriminate. Qed.

(** The [try] block of [load_game] never completes: it raises, having
    touched nothing but fields of the game. *)
Lemma load_game_try_raises w :
  exists e g, Game.load_game_try w = Raise e (with_game w g)
    /\ (disk w = NoFile -> e = FileNotFoundError)
    /\ (disk w = Malformed -> e = JSONDecodeError)
    /\ (disk w = Unreadable -> e = OSError)
    /\ (forall d, disk w = Document d -> lookup_error e).
Proof.
  assert (Hw : forall w : World, with_game w (game w) = w) by (by intros []).
  assert (Hww : forall (w : World) g g', with_game (with_game w g) g' = with_game w g')
    by (by intros []).
  unfold Game.load_game_try.
  unfold bind at 1. unfold json_load_file at 1.
  destruct (disk w) as [| | |data] eqn:Hd.
  1-3: eexists _, (game w); rewrite Hw; split_and!; done.
  assert (Hgoal : forall (r : Result unit),
    (exists e g, r = Raise e (with_game w g) /\ lookup_error e) ->
    exists e g, r = Raise e (with_game w g)
      /\ (Document data = NoFile -> e = FileNotFoundError)
      /\ (Document data = Malformed -> e = JSONDecodeError)
      /\ (Document data = Unreadable -> e = OSError)
      /\ (forall d, Document data = Document d -> lookup_error e)).
  { intros r (e & g & -> & He). exists e, g. split_and!; done. }
  apply Hgoal. clear Hgoal.
  destruct (get_reads data "version" (JInt 1) w) as [[v H]|[e [H He]]];
    [rewrite (bind_val _ _ _ _ _ H); cbv beta
    |rewrite (bind_raise _ _ _ _ _ H); exists e, (game w); by rewrite Hw].
  do 6 rewrite bind_update_game.
  match goal with |- context [bind _ _ ?W] => set (w1 := W) end.
  assert (Hw1 : exists g1, w1 = with_game w g1).
  { subst w1. rewrite !Hww. by eexists. }
  destruct Hw1 as [g1 Hw1]. rewrite Hw1. clear w1 Hw1.
  destruct (get_reads data "game_time" (JInt 0) (with_game w g1)) as [[jt H1]|[e [H1 He]]];
    [rewrite (bind_val _ _ _ _ _ H1); cbv beta
    |rewrite (bind_raise _ _ _ _ _ H1); by exists e, g1].
  destruct (as_int_reads jt (with_game w g1)) as [[t H2]|[e [H2 He]]];
    [rewrite (bind_val _ _ _ _ _ H2); cbv beta
    |rewrite (bind_raise _ _ _ _ _ H2); by exists e, g1].
  rewrite bind_update_game. rewrite Hww.
  match goal with |- context [with_game w ?G] => set (g2 := G) end.
  destruct (getitem_reads data "player" (with_game w g2)) as [[jp H3]|[e [H3 He]]];
    [rewrite (bind_val _ _ _ _ _ H3); cbv beta
    |rewrite (bind_raise _ _ _ _ _ H3); by exists e, g2].
  destruct (player_from_dict_raises jp (with_game w g2)) as (e & H4 & He).
  rewrite (bind_raise _ _ _ _ _ H4). by exists e, g2.
Qed.

(** Whatever the file holds, [load_game] ends in a new game. *)
Lemma load_game_val (w : World) :
  exists e,
    Game.load_game w
    = Val tt (fresh_world (with_console w (console w ++ [load_report e])))
    /\ (disk w = NoFile -> e = FileNotFoundError)
    /\ (disk w = Malformed -> e = JSONDecodeError)
    /\ (disk w = Unreadable -> e = OSError)
    /\ (forall d, disk w = Document d -> lookup_error e).
Proof.
  destruct (load_game_try_raises w) as (e & g & Htry & H).
  exists e. split; [|exact H].
  unfold Game.load_game, try_except. rewrite Htry.
  assert (Hh : forall m, (print m ;; Game.start_new_game) (with_game w g)
                 = Val tt (fresh_world (with_console w (console w ++ [m])))).
  { intros m. rewrite bind_print. rewrite start_new_game_val. reflexivity. }
  destruct e; apply Hh.
Qed.

(** ** What an operation leaves alone *)

Create HintDb frame.

Section Frame.

(** [R w w'] relates the world before an operation to the world after it,
    whether the operation returned or raised. *)
Variable R : World -> World -> Prop.

Hypothesis R_refl : forall w, R w w.

Hypothesis R_trans : forall a b c, R a b -> R b c -> R a c.

Hypothesis R_heap : forall w h, R w (with_heap w h).

Hypothesis R_random : forall w n, R w (with_random_pos w n).

Hypothesis R_game : forall w g, running g = running (game w) -> R w (with_game w g).

Hypothesis R_stdin : forall w l rest, stdin w = l :: rest -> R w (with_stdin w rest).

Hypothesis R_console : forall w c, R w (with_console w c).

Hypothesis R_disk : forall w f, R w (with_disk w f).

Hypothesis R_new_game : forall w, R w (fresh_world w).

Lemma framed_ret {A} (a : A) : framed R (ret a).
Proof. intros w. apply R_refl. Qed.

Lemma framed_raise {A} e : framed R (@raise A e).
Proof. intros w. apply R_refl. Qed.

Lemma framed_bind {A B} (m : M A) (k : A -> M B) :
  framed R m -> (forall a, framed R (k a)) -> framed R (bind m k).
Proof.
  intros Hm Hk w. unfold bind. specialize (Hm w).
  destruct (m w) as [a w1|e w1]; simpl in *; [|done].
  eapply R_trans; [exact Hm|apply Hk].
Qed.

Lemma framed_try_except {A} (m : M A) (h : Exn -> M A) :
  framed R m -> (forall e, framed R (h e)) -> framed R (try_except m h).
Proof.
  intros Hm Hh w. unfold try_except. specialize (Hm w).
  destruct (m w) as [a w1|e w1]; simpl in *; [done|].
  eapply R_trans; [exact Hm|apply Hh].
Qed.

Lemma framed_for_each {A} (l : list A) (body : A -> M unit) :
  (forall a, framed R (body a)) -> framed R (for_each l body).
Proof.
  intros Hb. induction l as [|a l IH]; simpl.
  - apply framed_ret.
  - apply framed_bind; [apply Hb|intros _; exact IH].
Qed.

Lemma framed_map_M {A B} (f : A -> M B) (l : list A) :
  (forall a, framed R (f a)) -> framed R (map_M f l).
Proof.
  intros Hf. induction l as [|a l IH]; simpl.
  - apply framed_ret.
  - apply framed_bind; [apply Hf|intros b].
    apply framed_bind; [exact IH|intros bs; apply framed_ret].
Qed.

Lemma framed_gets {A} (f : World -> A) : framed R (gets f).
Proof. intros w. apply R_refl. Qed.

Lemma framed_get_game : framed R get_game.
Proof. apply framed_gets. Qed.

Lemma framed_deref i : framed R (deref i).
Proof. intros w. unfold deref. destruct (heap w !! i); apply R_refl. Qed.

Lemma framed_store i o : framed R (store i o).
Proof. intros w. apply R_heap. Qed.

Lemma framed_new o : framed R (new o).
Proof. intros w. apply R_heap. Qed.

Lemma framed_update_game f :
  (forall g, running (f g) = running g) -> framed R (update_game f).
Proof. intros Hf w. apply R_game, Hf. Qed.

Lemma framed_print m : framed R (print m).
Proof. intros w. apply R_console. Qed.

Lemma framed_input : framed R input.
Proof.
  intros w. unfold input. destruct (stdin w) eqn:Hin; [apply R_refl|].
  eapply R_stdin, Hin.
Qed.

Lemma framed_draw : framed R draw.
Proof. intros w. apply R_random. Qed.

Lemma framed_json_dump_file d : framed R (json_dump_file d).
Proof.
  intros w. unfold json_dump_file.
  destruct (disk_writable w); [destruct (disk_full w); apply R_disk|apply R_refl].
Qed.

Lemma framed_load_game : framed R Game.load_game.
Proof.
  intros w. destruct (load_game_val w) as (e & -> & _). simpl.
  eapply R_trans; [apply R_console|apply R_new_game].
Qed.

Hint Resolve framed_ret framed_raise framed_gets framed_get_game framed_deref
  framed_store framed_new framed_print framed_input framed_draw
  framed_json_dump_file framed_load_game : frame.

Ltac frame_tac :=
  repeat first
    [ assumption
    | solve [auto with frame]
    | apply framed_bind; [|intros ?]
    | apply framed_for_each; intros ?
    | apply framed_map_M; intros ?
    | apply framed_try_except; [|intros ?]
    | apply framed_update_game; intros ?; reflexivity
    | match goal with
      | |- framed R (match ?x with _ => _ end) => destruct x
      | |- framed R (if ?b then _ else _) => destruct b
      | |- framed R (when ?b _) => unfold when; destruct b
      end ].

Lemma framed_get_player i : framed R (get_player i).
Proof. unfold get_player. frame_tac. Qed.

Lemma framed_get_character i : framed R (get_character i).
Proof. unfold get_character. frame_tac. Qed.

Lemma framed_get_npc i : framed R (get_npc i).
Proof. unfold get_npc. frame_tac. Qed.

Lemma framed_get_enemy i : framed R (get_enemy i).
Proof. unfold get_enemy. frame_tac. Qed.

Lemma framed_get_item i : framed R (get_item i).
Proof. unfold get_item. frame_tac. Qed.

Lemma framed_get_shop i : framed R (get_shop i).
Proof. unfold get_shop. frame_tac. Qed.

Lemma framed_get_vehicle i : framed R (get_vehicle i).
Proof. unfold get_vehicle. frame_tac. Qed.

Lemma framed_on_character {A} i (f : Character -> Character * A) :
  framed R (on_character i f).
Proof. unfold on_character. frame_tac. Qed.

Hint Resolve framed_get_player framed_get_character framed_get_npc framed_get_enemy
  framed_get_item framed_get_shop framed_get_vehicle framed_on_character : frame.

Lemma framed_update_player i f : framed R (update_player i f).
Proof. unfold update_player. frame_tac. Qed.

Lemma framed_update_npc i f : framed R (update_npc i f).
Proof. unfold update_npc. frame_tac. Qed.

Lemma framed_randint a b : framed R (randint a b).
Proof. unfold randint. frame_tac. Qed.

Lemma framed_shuffle_from {A} i (l : list A) : framed R (shuffle_from i l).
Proof. revert l. induction i as [|i IH]; intros l; simpl; frame_tac. Qed.

Lemma framed_shuffle {A} (l : list A) : framed R (shuffle l).
Proof. apply framed_shuffle_from. Qed.

Hint Resolve framed_update_player framed_update_npc framed_randint framed_shuffle : frame.

Lemma framed_add_object i : framed R (GameMap.add_object i).
Proof. unfold GameMap.add_object. frame_tac. Qed.

Lemma framed_remove_object i : framed R (GameMap.remove_object i).
Proof. unfold GameMap.remove_object. frame_tac. Qed.

Lemma framed_get_object_at px py : framed R (GameMap.get_object_at px py).
Proof. unfold GameMap.get_object_at. frame_tac. Qed.

Lemma framed_render i : framed R (GameMap.render i).
Proof. unfold GameMap.render. frame_tac. Qed.

Hint Resolve framed_add_object framed_remove_object framed_get_object_at
  framed_render : frame.

Lemma framed_equip_weapon a b : framed R (Character.equip_weapon a b).
Proof. unfold Character.equip_weapon. frame_tac. Qed.

Lemma framed_f a b : framed R (Character.f a b).
Proof. unfold Character.f. frame_tac. Qed.

Lemma framed_is_completed m i : framed R (Mission.is_completed m i).
Proof. unfold Mission.is_completed. frame_tac. Qed.

Lemma framed_complete m i : framed R (Mission.complete m i).
Proof. unfold Mission.complete. frame_tac. Qed.

Hint Resolve framed_equip_weapon framed_f framed_is_completed framed_complete : frame.

Lemma framed_vehicle_enter a b : framed R (Vehicle.enter a b).
Proof. unfold Vehicle.enter. frame_tac. Qed.

Lemma framed_vehicle_exit a b : framed R (Vehicle.exit a b).
Proof. unfold Vehicle.exit. frame_tac. Qed.

Lemma framed_vehicle_move a dx dy b : framed R (Vehicle.move a dx dy b).
Proof. unfold Vehicle.move. frame_tac. Qed.

Hint Resolve framed_vehicle_enter framed_vehicle_exit framed_vehicle_move : frame.

Lemma framed_discover_area i : framed R (Player.discover_area i).
Proof. unfold Player.discover_area. frame_tac. Qed.

Lemma framed_player_move i dx dy : framed R (Player.move i dx dy).
Proof. unfold Player.move. frame_tac. Qed.

Hint Resolve framed_discover_area framed_player_move : frame.

Lemma framed_complete_mission a b m : framed R (NPC.complete_mission a b m).
Proof. unfold NPC.complete_mission. frame_tac. Qed.

Lemma framed_accept_prompt a m : framed R (NPC.accept_prompt a m).
Proof. unfold NPC.accept_prompt. frame_tac. Qed.

Hint Resolve framed_complete_mission framed_accept_prompt : frame.

Lemma framed_npc_talk a b : framed R (NPC.talk a b).
Proof. unfold NPC.talk. frame_tac. Qed.

Lemma framed_bigsmoke_talk a b : framed R (BigSmoke.talk a b).
Proof. unfold BigSmoke.talk. frame_tac. Qed.

Hint Resolve framed_npc_talk framed_bigsmoke_talk : frame.

Lemma framed_talk a b : framed R (talk a b).
Proof. unfold talk. frame_tac. Qed.

Hint Resolve framed_talk : frame.

Lemma framed_move_randomly i : framed R (Enemy.move_randomly i).
Proof. unfold Enemy.move_randomly. frame_tac. Qed.

Lemma framed_move_towards i tx ty : framed R (Enemy.move_towards i tx ty).
Proof. unfold Enemy.move_towards. frame_tac. Qed.

Hint Resolve framed_move_randomly framed_move_towards : frame.

Lemma framed_take_turn a b : framed R (Enemy.take_turn a b).
Proof. unfold Enemy.take_turn. frame_tac. Qed.

Hint Resolve framed_take_turn : frame.

Lemma framed_buy a b n : framed R (Shop.buy a b n).
Proof. unfold Shop.buy. frame_tac. Qed.

Hint Resolve framed_buy : frame.

Lemma framed_menu_loop fuel a b : framed R (Shop.menu_loop fuel a b).
Proof. induction fuel as [|fuel IH]; simpl; frame_tac. Qed.

Hint Resolve framed_menu_loop : frame.

Lemma framed_shop_enter a b : framed R (Shop.enter a b).
Proof. unfold Shop.enter. frame_tac. Qed.

Hint Resolve framed_shop_enter : frame.

Lemma framed_character_to_dict c ty : framed R (Character.to_dict c ty).
Proof. unfold Character.to_dict. frame_tac. Qed.

Hint Resolve framed_character_to_dict : frame.

Lemma framed_player_to_dict p : framed R (Player.to_dict p).
Proof. unfold Player.to_dict. frame_tac. Qed.

Lemma framed_npc_to_dict n ty : framed R (NPC.to_dict n ty).
Proof. unfold NPC.to_dict. frame_tac. Qed.

Hint Resolve framed_player_to_dict framed_npc_to_dict : frame.

Lemma framed_bigsmoke_to_dict b : framed R (BigSmoke.to_dict b).
Proof. unfold BigSmoke.to_dict. frame_tac. Qed.

Lemma framed_enemy_to_dict e : framed R (Enemy.to_dict e).
Proof. unfold Enemy.to_dict. frame_tac. Qed.

Lemma framed_shop_to_dict s : framed R (Shop.to_dict s).
Proof. unfold Shop.to_dict. frame_tac. Qed.

Lemma framed_vehicle_to_dict v : framed R (Vehicle.to_dict v).
Proof. unfold Vehicle.to_dict. frame_tac. Qed.

Hint Resolve framed_bigsmoke_to_dict framed_enemy_to_dict framed_shop_to_dict
  framed_vehicle_to_dict : frame.

Lemma framed_game_npc_to_dict i : framed R (Game.npc_to_dict i).
Proof. unfold Game.npc_to_dict. frame_tac. Qed.

Lemma framed_dict_to_dict f d :
  (forall i, framed R (f i)) -> framed R (Game.dict_to_dict f d).
Proof. intros Hf. unfold Game.dict_to_dict. frame_tac. Qed.

Hint Resolve framed_game_npc_to_dict : frame.

Lemma framed_save_game : framed R Game.save_game.
Proof.
  unfold Game.save_game. frame_tac.
  all: try (apply framed_dict_to_dict; intros ?; frame_tac).
Qed.

Hint Resolve framed_save_game : frame.

Lemma framed_interact_npc a b : framed R (Game.interact_npc a b).
Proof. unfold Game.interact_npc. frame_tac. Qed.

Hint Resolve framed_interact_npc : frame.

Lemma framed_interact_at a px py : framed R (Game.interact_at a px py).
Proof. unfold Game.interact_at. frame_tac. Qed.

Hint Resolve framed_interact_at : frame.

Lemma framed_interact_scan a px py cells : framed R (Game.interact_scan a px py cells).
Proof. induction cells as [|[dx dy] cells IH]; simpl; frame_tac. Qed.

Lemma framed_use_item a n : framed R (Game.use_item a n).
Proof. unfold Game.use_item. frame_tac. Qed.

Lemma framed_attack a : framed R (Game.attack a).
Proof. unfold Game.attack. frame_tac. Qed.

Hint Resolve framed_interact_scan framed_use_item framed_attack : frame.

(** Every command but [q]. *)
Lemma framed_dispatch key pl : key <> "q" -> framed R (Game.dispatch key pl).
Proof.
  intros Hq. unfold Game.dispatch. apply framed_bind; [frame_tac|intros p].
  repeat match goal with
  | |- framed R (if String.eqb key "q" then _ else _) =>
      destruct (String.eqb_spec key "q"); [done|]
  | |- framed R (if String.eqb key _ then _ else _) =>
      destruct (String.eqb key _); [frame_tac|]
  end.
  frame_tac.
Qed.

Lemma framed_handle_input key : key <> "q" -> framed R (Game.handle_input key).
Proof.
  intros Hq. unfold Game.handle_input.
  apply framed_bind; [frame_tac|intros g].
  apply framed_bind; [by apply framed_dispatch|intros r].
  frame_tac.
Qed.

Lemma framed_spawn_one : framed R Game.spawn_one.
Proof. unfold Game.spawn_one. frame_tac. Qed.

Hint Resolve framed_spawn_one : frame.

Lemma framed_spawn_police : framed R Game.spawn_police.
Proof. unfold Game.spawn_police. frame_tac. Qed.

Lemma framed_enemy_turn i : framed R (Game.enemy_turn i).
Proof. unfold Game.enemy_turn. frame_tac. Qed.

Hint Resolve framed_spawn_police framed_enemy_turn : frame.

Lemma framed_periodic_effects pl t : framed R (Game.periodic_effects pl t).
Proof. unfold Game.periodic_effects. frame_tac. Qed.

Lemma framed_enemy_turns : framed R Game.enemy_turns.
Proof. unfold Game.enemy_turns. frame_tac. Qed.

End Frame.

(** ** The main loop *)

Lemma quiet_refl w : quiet w w.
Proof. by unfold quiet. Qed.

Lemma quiet_trans a b c : quiet a b -> quiet b c -> quiet a c.
Proof. unfold quiet. intros (?&?&?) (?&?&?). split_and!; congruence. Qed.

Lemma quiet_heap w h : quiet w (with_heap w h).
Proof. by unfold quiet. Qed.

Lemma quiet_random w n : quiet w (with_random_pos w n).
Proof. by unfold quiet. Qed.

Lemma quiet_game w g : running g = running (game w) -> quiet w (with_game w g).
Proof. by unfold quiet. Qed.

Lemma still_running_refl w : still_running w w.
Proof. by unfold still_running. Qed.

Lemma still_running_trans a b c :
  still_running a b -> still_running b c -> still_running a c.
Proof. unfold still_running. auto. Qed.

Lemma bind_inv {A B} (m : M A) (k : A -> M B) w b w' :
  bind m k w = Val b w' -> exists a w1, m w = Val a w1 /\ k a w1 = Val b w'.
Proof. unfold bind. destruct (m w) as [a w1|]; [eauto|discriminate]. Qed.

Lemma render_val i w a w' : GameMap.render i w = Val a w' -> w' = w.
Proof.
  intros H. pose proof (framed_render eq (fun _ => eq_refl)
                          (fun a b c H1 H2 => eq_trans H1 H2) i w) as Hr.
  rewrite H in Hr. by simpl in Hr.
Qed.

Lemma get_player_inv i w p w' :
  get_player i w = Val p w' -> w' = w /\ heap w !! i = Some (OPlayer p).
Proof.
  unfold get_player, bind, deref. destruct (heap w !! i) as [[]|]; try discriminate.
  intros H. by inversion H.
Qed.

(** The quit command. *)
Lemma handle_quit w w' :
  Game.handle_input "q" w = Val tt w' ->
  w' = with_game (with_console w (console w ++ [MsgQuit])) (with_running (game w) false).
Proof.
  unfold Game.handle_input. rewrite bind_get_game. intros H.
  apply bind_inv in H as (r & w1 & H1 & H2).
  unfold Game.dispatch in H1. apply bind_inv in H1 as (p & w2 & Hp & H1).
  apply get_player_inv in Hp as [-> _].
  cbn [String.eqb Ascii.eqb Bool.eqb] in H1.
  rewrite bind_print, bind_update_game in H1. inversion H1; subst.
  by inversion H2.
Qed.

(** A pass that ends in [break]: the player was down. *)
Lemma pass_break w w' :
  Game.loop_body w = Val true w' ->
  exists p, heap w !! player (game w) = Some (OPlayer p) /\ health p <= 0
    /\ w' = with_game (with_console w (console w ++ [MsgGameOver]))
              (with_running (game w) false).
Proof.
  unfold Game.loop_body. rewrite bind_get_game. intros H.
  apply bind_inv in H as ([] & w1 & Hr & H). apply render_val in Hr as ->.
  apply bind_inv in H as (p & w1 & Hp & H). apply get_player_inv in Hp as [-> Hp].
  exists p. destruct (Z.leb_spec (health p) 0) as [Hh|Hh].
  - rewrite bind_print, bind_update_game in H. by inversion H.
  - repeat (apply bind_inv in H as (? & ? & _ & H)). discriminate.
Qed.

(** A pass that runs to its end: the player was up, and the loop is
    switched off exactly when the line read was the quit command. *)
Lemma pass_continue w w' :
  running (game w) = true ->
  Game.loop_body w = Val false w' ->
  exists p l rest,
    heap w !! player (game w) = Some (OPlayer p) /\ 0 < health p
    /\ stdin w = l :: rest
    /\ (running (game w') = false <-> lower l = "q")
    /\ (lower l = "q" -> last (console w') = Some MsgQuit).
Proof.
  intros Hrun. unfold Game.loop_body. rewrite bind_get_game. intros H.
  apply bind_inv in H as ([] & w1 & Hr & H). apply render_val in Hr as ->.
  apply bind_inv in H as (p & w1 & Hp & H). apply get_player_inv in Hp as [-> Hp].
  destruct (Z.leb_spec (health p) 0) as [Hh|Hh].
  { rewrite bind_print, bind_update_game in H. discriminate. }
  apply bind_inv in H as ([] & w1 & Hper & H).
  pose proof (framed_periodic_effects quiet quiet_refl quiet_trans quiet_heap
                quiet_random quiet_game (player (game w)) (game_time (game w)) w) as Hq.
  rewrite Hper in Hq. destruct Hq as (Hin1 & Hc1 & Hr1). simpl in Hin1, Hc1, Hr1.
  apply bind_inv in H as (l & w2 & Hinp & H).
  unfold input in Hinp. destruct (stdin w1) as [|l' rest] eqn:Hst; [discriminate|].
  inversion Hinp; subst l' w2. clear Hinp.
  apply bind_inv in H as ([] & w3 & Hcmd & H).
  apply bind_inv in H as ([] & w4 & Hen & H).
  rewrite bind_update_game in H. inversion H; subst w'. clear H.
  pose proof (framed_enemy_turns quiet quiet_refl quiet_trans quiet_heap quiet_random w3) as Hq.
  rewrite Hen in Hq. destruct Hq as (_ & Hc4 & Hr4). simpl in Hc4, Hr4.
  exists p, l, rest. split_and!; [done|done|congruence| |].
  - wsimpl. rewrite Hr4.
    destruct (String.eqb_spec (lower l) "q") as [Hq|Hq].
    + rewrite Hq in Hcmd. apply handle_quit in Hcmd as ->. by wsimpl.
    + split; [|done]. intros Hoff.
      assert (Hsr : still_running (with_stdin w1 rest) w3).
      { pose proof (framed_handle_input still_running still_running_refl
                      still_running_trans) as Hf.
        specialize (Hf ltac:(by unfold still_running)
                       ltac:(unfold still_running; simpl; congruence)
                       ltac:(by unfold still_running)
                       ltac:(by unfold still_running)
                       ltac:(by unfold still_running)
                       ltac:(by unfold still_running)
                       (lower l) Hq (with_stdin w1 rest)).
        by rewrite Hcmd in Hf. }
      unfold still_running in Hsr. simpl in Hsr. rewrite Hsr in Hoff; [done|congruence].
  - intros Hq. rewrite Hq in Hcmd. apply handle_quit in Hcmd as ->.
    wsimpl. rewrite Hc4. wsimpl. by rewrite last_snoc.
Qed.

Lemma while_running_exits fuel : forall w r w',
  running (game w) = true ->
  Game.while_running fuel w = Val r w' ->
  match r with
  | ExitDefeat =>
      exists p, heap w' !! player (game w') = Some (OPlayer p) /\ health p <= 0
                /\ last (console w') = Some MsgGameOver
  | ExitNotRunning =>
      running (game w') = false /\ last (console w') = Some MsgQuit
  end.
Proof.
  induction fuel as [|fuel IH]; intros w r w' Hrun H; [discriminate|].
  simpl in H. rewrite bind_get_game, Hrun in H.
  apply bind_inv in H as (broke & w1 & Hpass & H).
  destruct broke.
  - inversion H; subst r w'. clear H.
    apply pass_break in Hpass as (p & Hp & Hh & ->).
    exists p. wsimpl. split_and!; [done|done|by rewrite last_snoc].
  - destruct (pass_continue w w1 Hrun Hpass) as (p & l & rest & _ & _ & _ & Hoff & Hmsg).
    destruct (running (game w1)) eqn:Hrun1.
    + by apply (IH w1).
    + destruct fuel as [|fuel]; [discriminate|].
      simpl in H. rewrite bind_get_game, Hrun1 in H.
      inversion H; subst r w'. split; [done|]. apply Hmsg. by apply Hoff.
Qed.

(** A pass that starts with the player down ends the loop: unless
    drawing the map raises, it prints "Game Over", switches [running]
    off and breaks, and reads no input. *)
Lemma loop_breaks_on_defeat (v : World) (p : Player) (n : nat) :
  running (game v) = true ->
  heap v !! player (game v) = Some (OPlayer p) -> health p <= 0 ->
  Game.while_running (S n) v
  = match GameMap.render (player (game v)) v with
    | Val _ _ =>
        Val ExitDefeat (with_game (with_console v (console v ++ [MsgGameOver]))
                          (with_running (game v) false))
    | Raise e v' => Raise e v'
    end.
Proof.
  intros Hrun Hp Hh.
  assert (Hbody : Game.loop_body v
                  = match GameMap.render (player (game v)) v with
                    | Val _ _ =>
                        Val true (with_game (with_console v (console v ++ [MsgGameOver]))
                                    (with_running (game v) false))
                    | Raise e v' => Raise e v'
                    end).
  { unfold Game.loop_body. rewrite bind_get_game. unfold bind at 1.
    destruct (GameMap.render (player (game v)) v) as [[] v'|e v'] eqn:Hr; [|reflexivity].
    apply render_val in Hr as ->.
    rewrite (bind_val _ _ _ _ _ (get_player_val _ _ _ Hp)).
    apply Z.leb_le in Hh. rewrite Hh. by rewrite bind_print, bind_update_game. }
  cbn [Game.while_running]. rewrite bind_get_game, Hrun. unfold bind. rewrite Hbody.
  by destruct (GameMap.render (player (game v)) v).
Qed.

(** The pass that reads the quit command is the last one: whatever
    input is left, the loop is that pass and the [while] test after it. *)
Lemma loop_ends_on_quit (v : World) (p : Player) (l : Line) (rest : list Line) (n : nat) :
  running (game v) = true ->
  heap v !! player (game v) = Some (OPlayer p) -> 0 < health p ->
  stdin v = l :: rest -> lower l = "q" ->
  Game.while_running (S (S n)) v = (Game.loop_body ;; ret ExitNotRunning) v
  /\ forall b v1, Game.loop_body v = Val b v1 ->
       b = false /\ running (game v1) = false /\ last (console v1) = Some MsgQuit.
Proof.
  intros Hrun Hp Hh Hin Hq.
  assert (Hpass : forall b v1, Game.loop_body v = Val b v1 ->
            b = false /\ running (game v1) = false /\ last (console v1) = Some MsgQuit).
  { intros [] v1 Hb.
    - apply pass_break in Hb as (p' & Hp' & Hh' & _). rewrite Hp in Hp'.
      inversion Hp'; subst p'. lia.
    - destruct (pass_continue v v1 Hrun Hb) as (_ & l' & rest' & _ & _ & Hin' & Hoff & Hmsg).
      rewrite Hin in Hin'. inversion Hin'; subst l' rest'.
      split_and!; [done|by apply Hoff|by apply Hmsg]. }
  split; [|exact Hpass].
  change (Game.while_running (S (S n)) v)
    with (bind get_game (fun g => if running g then
            bind Game.loop_body (fun broke =>
              if broke then ret ExitDefeat else Game.while_running (S n))
          else ret ExitNotRunning) v).
  rewrite bind_get_game, Hrun. unfold bind.
  destruct (Game.loop_body v) as [b v1|e v1] eqn:Hb; [|reflexivity].
  destruct (Hpass b v1 eq_refl) as (-> & Hoff & _).
  cbn [Game.while_running]. unfold bind, get_game, gets. by rewrite Hoff.
Qed.

(** C5, as amended: the loop has two exits and both are taken.  When
    [game_loop] returns, it was left either by the [break] of a defeated
    player (health 0 or less, "Game Over" printed last) or by the [while]
    test after the quit command (which switched [running] off and printed
    the last line).  A pass that starts with the player's health at 0 or
    less ends the loop by the [break], and the pass that reads the quit
    command is the last one, whatever input is left.  Completing the
    three missions is not among the exits. *)
Theorem game_loop_exits (w : World) :
  running (game w) = true ->
  (forall r w',
     Game.game_loop w = Val r w' ->
     match r with
     | ExitDefeat =>
         exists p, heap w' !! player (game w') = Some (OPlayer p) /\ health p <= 0
                   /\ last (console w') = Some MsgGameOver
     | ExitNotRunning =>
         running (game w') = false /\ last (console w') = Some MsgQuit
     end)
  /\ (forall p n,
        heap w !! player (game w) = Some (OPlayer p) -> health p <= 0 ->
        Game.while_running (S n) w
        = match GameMap.render (player (game w)) w with
          | Val _ _ =>
              Val ExitDefeat (with_game (with_console w (console w ++ [MsgGameOver]))
                                (with_running (game w) false))
          | Raise e w' => Raise e w'
          end)
  /\ (forall p l rest n,
        heap w !! player (game w) = Some (OPlayer p) -> 0 < health p ->
        stdin w = l :: rest -> lower l = "q" ->
        Game.while_running (S (S n)) w = (Game.loop_body ;; ret ExitNotRunning) w
        /\ forall b w1, Game.loop_body w = Val b w1 ->
             b = false /\ running (game w1) = false
             /\ last (console w1) = Some MsgQuit).
Proof.
  intros Hrun. split_and!.
  - intros r w' H. unfold Game.game_loop in H. rewrite bind_get_game in H.
    apply bind_inv in H as ([] & w1 & H1 & H).
    apply bind_inv in H as (p & w2 & Hp & H). apply get_player_inv in Hp as [-> Hp].
    apply bind_inv in H as ([] & w2 & H2 & H).
    rewrite bind_gets in H.
    apply while_running_exits in H; [done|].
    assert (Hq1 : quiet w w1).
    { pose proof (framed_discover_area quiet quiet_refl quiet_trans quiet_heap
                    (player (game w)) w) as Hq. by rewrite H1 in Hq. }
    assert (Hq2 : quiet w1 w2).
    { assert (Hf : framed quiet (when (0 <? wanted_level p) Game.spawn_police)).
      { unfold when. destruct (0 <? wanted_level p).
        - apply (framed_spawn_police quiet quiet_refl quiet_trans quiet_heap
                   quiet_random quiet_game).
        - apply framed_ret, quiet_refl. }
      specialize (Hf w1). by rewrite H2 in Hf. }
    destruct Hq1 as (_ & _ & Hr1). destruct Hq2 as (_ & _ & Hr2). congruence.
  - intros p n Hp Hh. by apply (loop_breaks_on_defeat w p n).
  - intros p l rest n Hp Hh Hin Hq. by apply (loop_ends_on_quit w p l rest n).
Qed.

(** C5 as stated fails: after the play above all three missions are in
    the completed list and CJ is alive, yet the loop has gone on to ask
    for the next command (here the input has run out); with two more
    lines it handles them and leaves only on [q]. *)
Lemma victory_does_not_end_the_loop :
  (exists w p,
     main (boot play_to_victory (fun _ => 0%nat) NoFile true) = Raise EOFError w
     /\ player_of w = Some p /\ victory p = true /\ 0 < health p
     /\ running (game w) = true /\ game_time (game w) = 235)
  /\ (exists w p,
        main (boot (play_to_victory ++ [cmd "i"; cmd "q"]) (fun _ => 0%nat) NoFile true)
        = Val ExitNotRunning w
        /\ player_of w = Some p /\ victory p = true
        /\ game_time (game w) = 237 /\ last (console w) = Some MsgQuit).
Proof.
  split.
  - eexists _, _. split_and!; [vm_compute; reflexivity|vm_compute; reflexivity|..];
      vm_compute; reflexivity.
  - eexists _, _. split_and!; [vm_compute; reflexivity|vm_compute; reflexivity|..];
      vm_compute; reflexivity.
Qed.

(** ** The fuel of the loop *)

Lemma consumed_refl w : consumed w w.
Proof. unfold consumed. lia. Qed.

Lemma consumed_trans a b c : consumed a b -> consumed b c -> consumed a c.
Proof. unfold consumed. lia. Qed.

Lemma consumed_same w w' : stdin w' = stdin w -> consumed w w'.
Proof. unfold consumed. intros ->. lia. Qed.

Lemma consumed_stdin w l rest : stdin w = l :: rest -> consumed w (with_stdin w rest).
Proof. unfold consumed. intros ->. simpl. lia. Qed.

(** A pass that runs to its end has read at least one line. *)
Lemma pass_consumes w w' :
  Game.loop_body w = Val false w' -> (length (stdin w') < length (stdin w))%nat.
Proof.
  unfold Game.loop_body. rewrite bind_get_game. intros H.
  apply bind_inv in H as ([] & w1 & Hr & H). apply render_val in Hr as ->.
  apply bind_inv in H as (p & w1 & Hp & H). apply get_player_inv in Hp as [-> Hp].
  destruct (Z.leb_spec (health p) 0) as [Hh|Hh].
  { rewrite bind_print, bind_update_game in H. discriminate. }
  apply bind_inv in H as ([] & w1 & Hper & H).
  pose proof (framed_periodic_effects quiet quiet_refl quiet_trans quiet_heap
                quiet_random quiet_game (player (game w)) (game_time (game w)) w) as Hq.
  rewrite Hper in Hq. destruct Hq as (Hin1 & _). simpl in Hin1.
  apply bind_inv in H as (l & w2 & Hinp & H).
  unfold input in Hinp. destruct (stdin w1) as [|l' rest] eqn:Hst; [discriminate|].
  inversion Hinp; subst l' w2. clear Hinp.
  apply bind_inv in H as ([] & w3 & Hcmd & H).
  apply bind_inv in H as ([] & w4 & Hen & H).
  rewrite bind_update_game in H. inversion H; subst w'. clear H.
  pose proof (framed_enemy_turns quiet quiet_refl quiet_trans quiet_heap quiet_random w3) as Hq.
  rewrite Hen in Hq. destruct Hq as (Hin4 & _). simpl in Hin4.
  wsimpl. rewrite Hin4, <- Hin1. simpl.
  assert (Hc : consumed (with_stdin w1 rest) w3).
  { destruct (String.eqb_spec (lower l) "q") as [Hq|Hq].
    - rewrite Hq in Hcmd. apply handle_quit in Hcmd as ->. by apply consumed_same.
    - pose proof (framed_handle_input consumed consumed_refl consumed_trans) as Hf.
      specialize (Hf ltac:(intros; by apply consumed_same)
                     ltac:(intros; by apply consumed_same)
                     consumed_stdin
                     ltac:(intros; by apply consumed_same)
                     ltac:(intros; by apply consumed_same)
                     ltac:(intros; by apply consumed_same)
                     (lower l) Hq (with_stdin w1 rest)).
      by rewrite Hcmd in Hf. }
  unfold consumed in Hc. simpl in Hc. lia.
Qed.

(** With more fuel than console lines, one unit more makes no
    difference: the loop never runs out of it. *)
Lemma while_running_fuel (fuel : nat) : forall w,
  (length (stdin w) < fuel)%nat ->
  Game.while_running (S fuel) w = Game.while_running fuel w.
Proof.
  induction fuel as [|fuel IH]; intros w Hlen; [lia|].
  change (Game.while_running (S (S fuel)) w)
    with (bind get_game (fun g => if running g then
            bind Game.loop_body (fun broke =>
              if broke then ret ExitDefeat else Game.while_running (S fuel))
          else ret ExitNotRunning) w).
  change (Game.while_running (S fuel) w)
    with (bind get_game (fun g => if running g then
            bind Game.loop_body (fun broke =>
              if broke then ret ExitDefeat else Game.while_running fuel)
          else ret ExitNotRunning) w).
  rewrite !bind_get_game. destruct (running (game w)); [|reflexivity].
  unfold bind. destruct (Game.loop_body w) as [[] w1|e w1] eqn:Hpass; try reflexivity.
  apply IH. apply pass_consumes in Hpass. lia.
Qed.

(** The fuel [game_loop] starts with is as good as any larger amount. *)
Lemma fuel_is_enough (n : nat) (w : World) :
  Game.while_running (n + S (length (stdin w))) w
  = Game.while_running (S (length (stdin w))) w.
Proof.
  induction n as [|n IH]; [reflexivity|].
  rewrite <- IH. apply while_running_fuel. lia.
Qed.

(** ** A new game is a valid world *)

Lemma lookup_fresh (h l : list Obj) (k : nat) : (h ++ l) !! (length h + k)%nat = l !! k.
Proof.
  rewrite lookup_app_r by lia. f_equal. lia.
Qed.

Lemma fresh_world_is_new_game (w : World) : new_game_state (fresh_world w).
Proof.
  unfold new_game_state, fresh_world, map_view. wsimpl.
  split_and!; try reflexivity.
  - unfold fresh_game. wsimpl. rewrite <- (Nat.add_0_r (length (heap w))) at 1.
    rewrite lookup_fresh. reflexivity.
  - unfold fresh_game. wsimpl. cbn [map]. rewrite !lookup_fresh.
    unfold fresh_objects. cbn [lookup list_lookup].
    match goal with |- exists objs, ?l = _ /\ _ => exists (omap id l) end.
    split; [reflexivity|]. split; vm_compute; reflexivity.
Qed.

(** C3: with the save file missing, not JSON, or unreadable, [load_game]
    returns (nothing escapes it), prints its report and leaves the world
    a new game starts in. *)
Theorem load_failure_starts_new_game (w : World) :
  disk w = NoFile \/ disk w = Malformed \/ disk w = Unreadable ->
  exists msg w',
    Game.load_game w = Val tt w'
    /\ console w' = console w ++ [msg]
    /\ (msg = MsgLoadNotFound \/ msg = MsgLoadCorrupt \/ msg = MsgLoadUnexpected OSError)
    /\ w' = fresh_world (with_console w (console w ++ [msg]))
    /\ new_game_state w'.
Proof.
  intros Hd. destruct (load_game_val w) as (e & Hload & H1 & H2 & H3 & _).
  exists (load_report e), (fresh_world (with_console w (console w ++ [load_report e]))).
  split_and!; [done|done| |done|apply fresh_world_is_new_game].
  destruct Hd as [Hd|[Hd|Hd]].
  - rewrite (H1 Hd). by left.
  - rewrite (H2 Hd). right; by left.
  - rewrite (H3 Hd). right; by right.
Qed.

Lemma load_failure_starts_new_game_witness :
  (disk (boot [] (fun _ => 0%nat) NoFile true) = NoFile
   \/ disk (boot [] (fun _ => 0%nat) NoFile true) = Malformed
   \/ disk (boot [] (fun _ => 0%nat) NoFile true) = Unreadable)
  /\ exists msg w',
       Game.load_game (boot [] (fun _ => 0%nat) NoFile true) = Val tt w'
       /\ console w' = console (boot [] (fun _ => 0%nat) NoFile true) ++ [msg]
       /\ (msg = MsgLoadNotFound \/ msg = MsgLoadCorrupt \/ msg = MsgLoadUnexpected OSError)
       /\ w' = fresh_world (with_console (boot [] (fun _ => 0%nat) NoFile true)
                              (console (boot [] (fun _ => 0%nat) NoFile true) ++ [msg]))
       /\ new_game_state w'.
Proof.
  split; [left; reflexivity|].
  apply (load_failure_starts_new_game (boot [] (fun _ => 0%nat) NoFile true)).
  left; reflexivity.
Defined.

(** ** Big Smoke's two tiles *)

Lemma collision_true h self other nx ny objs i o :
  In i objs -> i <> self -> same_ref other i = false ->
  h !! i = Some o -> in_the_way o nx ny = true ->
  collision h self other nx ny objs = true.
Proof.
  intros Hin Hself Hother Ho Hway.
  induction objs as [|j objs IH]; [done|]. simpl.
  destruct Hin as [->|Hin].
  - destruct (Nat.eqb_spec i self); [done|]. rewrite Hother. simpl.
    by rewrite Ho, Hway.
  - specialize (IH Hin).
    destruct (negb (j =? self)%nat && negb (same_ref other j)); [|exact IH].
    destruct (h !! j) as [oj|]; [|exact IH].
    by destruct (in_the_way oj nx ny).
Qed.

Lemma big_smoke_in_the_way (b : BigSmoke) nx ny :
  (nx = x b /\ ny = y b) \/ (nx = x b + 1 /\ ny = y b) ->
  in_the_way (OBigSmoke b) nx ny = true.
Proof.
  unfold in_the_way. simpl. intros [[-> ->]|[-> ->]]; rewrite !Z.eqb_refl; simpl;
    [reflexivity|apply orb_true_r].
Qed.

(** The player on foot is stopped at both of Big Smoke's tiles. *)
Lemma player_stopped_by_big_smoke w pl smoke p b dx dy :
  heap w !! pl = Some (OPlayer p) -> current_vehicle p = None ->
  heap w !! smoke = Some (OBigSmoke b) ->
  In smoke (objects (game_map (game w))) ->
  (x p + dx = x b /\ y p + dy = y b) \/ (x p + dx = x b + 1 /\ y p + dy = y b) ->
  Player.move pl dx dy w = Val false w.
Proof.
  intros Hp Hveh Hb Hin Hcell.
  assert (Hne : smoke <> pl) by (intros ->; congruence).
  unfold Player.move. rewrite (bind_val _ _ _ _ _ (get_player_val _ _ _ Hp)).
  cbv beta zeta. rewrite Hveh. destruct (in_bounds _ _); [|reflexivity]. cbn [negb]. cbv beta iota.
  rewrite !bind_gets. cbv beta.
  erewrite collision_true; [reflexivity|exact Hin|exact Hne|reflexivity|exact Hb|].
  by apply big_smoke_in_the_way.
Qed.

(** So is a vehicle, with or without its driver. *)
Lemma vehicle_stopped_by_big_smoke w v pl smoke veh b dx dy :
  heap w !! v = Some (OVehicle veh) ->
  heap w !! smoke = Some (OBigSmoke b) ->
  In smoke (objects (game_map (game w))) ->
  same_ref (occupant veh) smoke = false ->
  (x veh + dx = x b /\ y veh + dy = y b) \/ (x veh + dx = x b + 1 /\ y veh + dy = y b) ->
  Vehicle.move v dx dy pl w = Val false w.
Proof.
  intros Hv Hb Hin Hocc Hcell.
  assert (Hne : smoke <> v) by (intros ->; congruence).
  unfold Vehicle.move. rewrite (bind_val _ _ _ _ _ (get_vehicle_val _ _ _ Hv)).
  cbv beta zeta. destruct (in_bounds _ _); [|reflexivity]. cbn [negb]. cbv beta iota.
  rewrite !bind_gets. cbv beta.
  erewrite collision_true; [reflexivity|exact Hin|exact Hne|exact Hocc|exact Hb|].
  by apply big_smoke_in_the_way.
Qed.

(** C6 fails for enemies: ten passes into a new game the gangster stands
    at (21, 14), right above Big Smoke's second tile; his next random move
    goes down, and [move_randomly] lets him step onto that tile, although
    Big Smoke is alive and on the map.  The eleventh pass of the same play
    shows it in the running game. *)
Theorem enemy_steps_onto_big_smoke :
  exists (b : BigSmoke) w',
    dict_get (npcs (game above_big_smoke)) "big_smoke" = Some 3%nat
    /\ dict_get (enemies (game above_big_smoke)) "gangster1" = Some 15%nat
    /\ heap above_big_smoke !! 3%nat = Some (OBigSmoke b)
    /\ In 3%nat (objects (game_map (game above_big_smoke)))
    /\ 0 < health b
    /\ (x b + 1, y b) = (21, 15)
    /\ position above_big_smoke 15%nat = Some (21, 14)
    /\ Enemy.move_randomly 15%nat above_big_smoke = Val true w'
    /\ position w' 15%nat = Some (21, 15)
    /\ position (result_world (main (boot (cmd "" :: keys 11 "i") steer NoFile true)))
         15%nat = Some (21, 15).
Proof.
  eexists _, _. split_and!; try (vm_compute; reflexivity).
  vm_compute. tauto.
Qed.

(** ** What a save is meant to keep *)

Ltac evaluate :=
  lazymatch goal with
  | |- _ /\ _ => split; [vm_compute; reflexivity|evaluate]
  | |- _ => vm_compute; reflexivity
  end.

(** C1 fails: [load_game] of the document [save_game] has just written
    never restores it.  After the play through the three missions, save
    writes the document and load answers with "unexpected error" for a
    [TypeError] and starts a new game: position, money, inventory and
    completed missions are those of a new game.  The same after the hunt
    for the officer (health 70 becomes 100) and at the wheel of the Green
    Sabre (the link between driver and car is gone). *)
Theorem save_then_load_starts_over :
  (exists w1 w2,
     Game.save_game after_victory = Val tt w1
     /\ Game.load_game w1 = Val tt w2
     /\ disk w1 = Document (saved_document after_victory)
     /\ progress after_victory
        = Some (19, 14, 100, 950,
                [Some ("Pistol", "Weapon"); Some ("Shotgun", "Weapon");
                 Some ("Cash Bundle", "MoneyBundle")],
                ["Sweet's Mission"; "Ryder's Mission"; "Big Smoke's Mission"])
     /\ progress w2 = Some (40, 12, 100, 500, [], [])
     /\ console w2 = [MsgSaved; MsgLoadUnexpected TypeError])
  /\ (exists w1 w2,
        Game.save_game before_last_shot = Val tt w1
        /\ Game.load_game w1 = Val tt w2
        /\ progress before_last_shot = Some (79, 1, 70, 500, [Some ("Shotgun", "Weapon")], [])
        /\ progress w2 = Some (40, 12, 100, 500, [], []))
  /\ (exists w1 w2,
        Game.save_game at_edge = Val tt w1
        /\ Game.load_game w1 = Val tt w2
        /\ linked at_edge = true
        /\ linked w2 = false).
Proof.
  split; [|split]; eexists _, _; evaluate.
Qed.

(** No document is ever loaded: whatever the file holds, [load_game]
    catches an exception of a failed lookup or call and starts a new
    game. *)
Lemma no_document_is_loaded (w : World) (d : json) :
  disk w = Document d ->
  exists e,
    lookup_error e
    /\ Game.load_game w
       = Val tt (fresh_world (with_console w (console w ++ [MsgLoadUnexpected e]))).
Proof.
  intros Hd. destruct (load_game_val w) as (e & Hload & _ & _ & _ & He).
  specialize (He d Hd). exists e. split; [exact He|].
  rewrite Hload. by destruct He as [->|[->|[k ->]]].
Qed.

(** C2 fails: take the document saved after the three missions and drop
    the player's "stamina", as a save of an older version would have it.
    Every other field is there, money 950 among them; [load_game]
    answers with "unexpected error" for a [TypeError] and starts a new
    game with money 500 and no mission completed: nothing of the
    document is deserialized. *)
Theorem older_save_is_not_loaded :
  exists w',
    player_field "stamina" (without_player_field "stamina" (saved_document after_victory)) = None
    /\ player_field "money" (without_player_field "stamina" (saved_document after_victory))
       = Some (JInt 950)
    /\ Game.load_game
         (with_disk after_victory
            (Document (without_player_field "stamina" (saved_document after_victory))))
       = Val tt w'
    /\ console w' = [MsgLoadUnexpected TypeError]
    /\ progress w' = Some (40, 12, 100, 500, [], [])
    /\ game_time (game after_victory) = 235
    /\ game_time (game w') = 0.
Proof.
  eexists. evaluate.
Qed.

(** ** Instances *)

Lemma NoDup_check `{EqDecision A} (l : list A) :
  bool_decide (NoDup l) = true -> List.NoDup l.
Proof. intros H. apply NoDup_ListNoDup. by apply bool_decide_eq_true_1 in H. Qed.

Lemma police_defeat_witness :
  exists p,
    player_of before_last_shot = Some p /\ wanted_level p = 0 /\ money p = 500
    /\ exists p',
    heap (result_world (Game.handle_input "f" before_last_shot))
      !! player (game before_last_shot) = Some (OPlayer p')
    /\ wanted_level p' = 2
    /\ money p' = money p
    /\ ~ In 17%nat (objects (game_map (game (result_world
                      (Game.handle_input "f" before_last_shot)))))
    /\ ~ In 17%nat (dict_values (enemies (game (result_world
                      (Game.handle_input "f" before_last_shot))))).
Proof.
  eexists. split; [vm_compute; reflexivity|].
  split; [vm_compute; reflexivity|]. split; [vm_compute; reflexivity|].
  refine (police_defeat before_last_shot _ 17%nat _ _ _ _ _ _ _ _ _ _ _).
  - vm_compute; reflexivity.
  - vm_compute; reflexivity.
  - vm_compute; reflexivity.
  - vm_compute; reflexivity.
  - vm_compute; reflexivity.
  - vm_compute; reflexivity.
  - apply (@NoDup_check nat _). vm_compute; reflexivity.
  - apply (@NoDup_check string _). vm_compute; reflexivity.
  - apply (@NoDup_check nat _). vm_compute; reflexivity.
Defined.

(** C4 as stated fails on the money: before the last shot CJ has wanted
    level 0 and 500 dollars and the police officer stands next to him;
    the attack command defeats and removes the officer and raises the
    wanted level to 2, and CJ still has 500 dollars. *)
Lemma defeating_police_pays_nothing :
  exists p e p',
    player_of before_last_shot = Some p
    /\ wanted_level p = 0
    /\ dict_get (enemies (game before_last_shot)) "police_officer" = Some 17%nat
    /\ heap before_last_shot !! 17%nat = Some (OEnemy e)
    /\ faction e = "Police"
    /\ Z.abs (x e - x p) <= 1 /\ Z.abs (y e - y p) <= 1
    /\ player_of (result_world (Game.handle_input "f" before_last_shot)) = Some p'
    /\ dict_get (enemies (game (result_world (Game.handle_input "f" before_last_shot))))
         "police_officer" = None
    /\ wanted_level p' = 2
    /\ money p = 500 /\ money p' = 500
    /\ ~ (money p < money p').
Proof.
  eexists _, _, _.
  split; [vm_compute; reflexivity|].
  split; [vm_compute; reflexivity|].
  split; [vm_compute; reflexivity|].
  split; [vm_compute; reflexivity|].
  split; [vm_compute; reflexivity|].
  split; [vm_compute; discriminate|].
  split; [vm_compute; discriminate|].
  split; [vm_compute; reflexivity|].
  split; [vm_compute; reflexivity|].
  split; [vm_compute; reflexivity|].
  split; [vm_compute; reflexivity|].
  split; [vm_compute; reflexivity|].
  vm_compute. discriminate.
Qed.

Lemma game_loop_exits_witness :
  (running (game (new_game [cmd "q"; cmd "w"])) = true
   /\ exists w',
        Game.game_loop (new_game [cmd "q"; cmd "w"]) = Val ExitNotRunning w'
        /\ running (game w') = false /\ last (console w') = Some MsgQuit)
  /\ (exists w',
        Game.while_running 3 (new_game [cmd "q"; cmd "w"]) = Val ExitNotRunning w'
        /\ stdin w' = [cmd "w"])
  /\ (running (game fallen) = true
      /\ exists w',
           Game.while_running 1 fallen = Val ExitDefeat w'
           /\ stdin w' = [cmd "w"] /\ console w' = [MsgGameOver]
           /\ running (game w') = false).
Proof.
  assert (Hq : running (game (new_game [cmd "q"; cmd "w"])) = true)
    by (vm_compute; reflexivity).
  assert (Hf : running (game fallen) = true) by (vm_compute; reflexivity).
  split; [|split].
  - split; [exact Hq|].
    eexists. split; [vm_compute; reflexivity|].
    apply (proj1 (game_loop_exits (new_game [cmd "q"; cmd "w"]) Hq) ExitNotRunning).
    vm_compute; reflexivity.
  - eexists.
    rewrite (proj1 (proj2 (proj2 (game_loop_exits (new_game [cmd "q"; cmd "w"]) Hq))
                      (Player_init 40 12) (cmd "q") [cmd "w"] 1%nat
                      ltac:(vm_compute; reflexivity) ltac:(vm_compute; reflexivity)
                      ltac:(vm_compute; reflexivity) ltac:(vm_compute; reflexivity))).
    split; [vm_compute; reflexivity|vm_compute; reflexivity].
  - split; [exact Hf|]. eexists.
    rewrite (proj1 (proj2 (game_loop_exits fallen Hf))
               (with_character (Player_init 40 12) downed_cj) 0%nat
               ltac:(vm_compute; reflexivity) ltac:(vm_compute; discriminate)).
    evaluate.
Defined.

(** Both exits are taken by plays of a new game. *)
Lemma both_exits_are_reachable :
  (exists w p,
     main (boot stand_by_officer (fun _ => 0%nat) NoFile true) = Val ExitDefeat w
     /\ player_of w = Some p /\ health p = 0 /\ console w = [MsgGameOver])
  /\ (exists w,
        main (boot [cmd ""; cmd "q"] (fun _ => 0%nat) NoFile true) = Val ExitNotRunning w
        /\ running (game w) = false /\ console w = [MsgQuit]).
Proof.
  split.
  - eexists _, _. evaluate.
  - eexists. evaluate.
Qed.

Lemma mission_needs_prerequisites_witness :
  (dict_get (npcs (game (new_game []))) "ryder" = Some 2%nat
   /\ Game.all_prereqs_met Game.ryder_mission (Player_init 40 12) = false
   /\ Game.interact_npc 2%nat 0%nat (new_game []) = Val false (new_game []))
  /\ (dict_get (npcs (game (new_game [cmd "yes"]))) "sweet" = Some 1%nat
      /\ Game.all_prereqs_met Game.sweet_mission (Player_init 40 12) = true
      /\ Game.interact_npc 1%nat 0%nat (new_game [cmd "yes"])
         = Val true
             (with_heap (with_stdin (new_game [cmd "yes"]) [])
                (<[0%nat := OPlayer (with_current_mission (Player_init 40 12)
                                       (Some Game.sweet_mission))]>
                   (heap (new_game [cmd "yes"]))))).
Proof.
  split.
  - split; [vm_compute; reflexivity|].
    split; [vm_compute; reflexivity|].
    refine (proj1 (mission_needs_prerequisites (new_game []) 2%nat 0%nat _ _
                     (Player_init 40 12) Game.ryder_mission _ _ _ _) _).
    + vm_compute; reflexivity.
    + vm_compute; reflexivity.
    + vm_compute; reflexivity.
    + vm_compute; reflexivity.
    + vm_compute; reflexivity.
  - split; [vm_compute; reflexivity|].
    split; [vm_compute; reflexivity|].
    refine (proj2 (proj2 (mission_needs_prerequisites (new_game [cmd "yes"]) 1%nat 0%nat
                            _ _ (Player_init 40 12) Game.sweet_mission _ _ _ _))
              (cmd "yes") [] _ _ _).
    + vm_compute; reflexivity.
    + vm_compute; reflexivity.
    + vm_compute; reflexivity.
    + vm_compute; reflexivity.
    + vm_compute; reflexivity.
    + repeat split; vm_compute; reflexivity.
    + vm_compute; reflexivity.
Defined.

(** A mission is accepted: at a new game Sweet's has no prerequisite, and
    the answer "yes" makes it the current mission. *)
Lemma mission_is_accepted :
  exists w' p',
    Game.interact_npc 1%nat 0%nat (new_game [cmd "yes"]) = Val true w'
    /\ player_of (new_game [cmd "yes"]) = Some (Player_init 40 12)
    /\ player_of w' = Some p'
    /\ option_map mission_name (current_mission p') = Some "Sweet's Mission".
Proof.
  eexists _, _. evaluate.
Qed.

Lemma completion_is_idempotent_witness :
  dict_get (npcs (game after_sweet)) "sweet" = Some 1%nat
  /\ progress after_sweet
     = Some (4, 4, 100, 600, [Some ("Pistol", "Weapon")], ["Sweet's Mission"])
  /\ talk 1%nat 0%nat after_sweet = Val tt after_sweet.
Proof.
  split; [vm_compute; reflexivity|].
  split; [vm_compute; reflexivity|].
  refine (proj1 (proj2 (completion_is_idempotent after_sweet 1%nat 0%nat _ _ _ _ _ _)) _).
  - vm_compute; reflexivity.
  - vm_compute; reflexivity.
  - vm_compute; reflexivity.
  - vm_compute; reflexivity.
Defined.

Lemma exit_is_unchecked_witness :
  exists veh,
    heap at_edge !! 18%nat = Some (OVehicle veh)
    /\ occupant veh = Some 0%nat
    /\ x veh = MAP_WIDTH - 1
    /\ exists w' p',
         Vehicle.exit 18%nat 0%nat at_edge = Val true w'
         /\ heap w' !! 18%nat = Some (OVehicle (with_occupant veh None))
         /\ heap w' !! 0%nat = Some (OPlayer p')
         /\ current_vehicle p' = None
         /\ x p' = x veh + 1 /\ y p' = y veh.
Proof.
  eexists. split; [vm_compute; reflexivity|].
  split; [vm_compute; reflexivity|]. split; [vm_compute; reflexivity|].
  refine (proj1 exit_is_unchecked at_edge 18%nat 0%nat _ _ _ _ _).
  - vm_compute; reflexivity.
  - vm_compute; reflexivity.
  - vm_compute; reflexivity.
Defined.

(** ** Health, needs and wanted level *)

(** X1: [heal] adds the amount and clamps the result into
    [0, max_health]: a character whose [max_health] is not negative ends
    with [min(max_health, max(0, health + amount))], whatever the amount
    and the health before, and nothing but the health changes. *)
Theorem heal_spec (c : Character) (a : Z) :
  0 <= max_health c ->
  0 <= health (fst (Character.heal c a)) <= max_health c
  /\ health (fst (Character.heal c a)) = Z.min (max_health c) (Z.max 0 (health c + a))
  /\ with_health (fst (Character.heal c a)) (health c) = c.
Proof.
  intros Hmax. unfold Character.heal, clamp. destruct c as [b h mh inv m s ms cw].
  cbn in *. split_and!; try lia. reflexivity.
Qed.

Lemma heal_spec_witness :
  0 <= max_health (with_health cj 40)
  /\ 0 <= health (fst (Character.heal (with_health cj 40) 75)) <= 100
  /\ health (fst (Character.heal (with_health cj 40) 75))
     = Z.min (max_health (with_health cj 40)) (Z.max 0 (health (with_health cj 40) + 75))
  /\ with_health (fst (Character.heal (with_health cj 40) 75)) (health (with_health cj 40))
     = with_health cj 40.
Proof.
  split; [simpl; lia|].
  apply (heal_spec (with_health cj 40) 75). simpl; lia.
Defined.

(** X2: the wanted level never leaves [0, MAX_WANTED_LEVEL]: from a level
    in range, [add_wanted_level] with a non-negative amount gives
    [min(5, level + amount)] and [reduce_wanted_level] gives
    [max(0, level - amount)]; adding and then reducing by the same amount
    gives the player back exactly when the sum did not pass the maximum
    or the level was 0. *)
Theorem wanted_level_spec (p : Player) (a : Z) :
  0 <= wanted_level p <= MAX_WANTED_LEVEL -> 0 <= a ->
  wanted_level (Player.add_wanted_level p a) = Z.min MAX_WANTED_LEVEL (wanted_level p + a)
  /\ wanted_level (Player.reduce_wanted_level p a) = Z.max 0 (wanted_level p - a)
  /\ 0 <= wanted_level (Player.add_wanted_level p a) <= MAX_WANTED_LEVEL
  /\ 0 <= wanted_level (Player.reduce_wanted_level p a) <= MAX_WANTED_LEVEL
  /\ (Player.reduce_wanted_level (Player.add_wanted_level p a) a = p
      <-> wanted_level p + a <= MAX_WANTED_LEVEL \/ wanted_level p = 0).
Proof.
  unfold Player.add_wanted_level, Player.reduce_wanted_level, clamp, MAX_WANTED_LEVEL.
  destruct p as [c dm mc cm wl hg th ds ws cv]. cbn. intros Hw Ha.
  repeat split; try lia.
  - unfold with_wanted_level. cbn. intros H. injection H as H. lia.
  - intros H. unfold with_wanted_level. cbn. f_equal. lia.
Qed.

Lemma wanted_level_spec_witness :
  (0 <= wanted_level cj_in_trouble <= MAX_WANTED_LEVEL /\ 0 <= 2)
  /\ wanted_level (Player.add_wanted_level cj_in_trouble 2)
     = Z.min MAX_WANTED_LEVEL (wanted_level cj_in_trouble + 2)
  /\ wanted_level (Player.reduce_wanted_level cj_in_trouble 2)
     = Z.max 0 (wanted_level cj_in_trouble - 2)
  /\ 0 <= wanted_level (Player.add_wanted_level cj_in_trouble 2) <= MAX_WANTED_LEVEL
  /\ 0 <= wanted_level (Player.reduce_wanted_level cj_in_trouble 2) <= MAX_WANTED_LEVEL
  /\ (Player.reduce_wanted_level (Player.add_wanted_level cj_in_trouble 2) 2 = cj_in_trouble
      <-> wanted_level cj_in_trouble + 2 <= MAX_WANTED_LEVEL
          \/ wanted_level cj_in_trouble = 0).
Proof.
  split; [vm_compute; split; [split|]; discriminate|].
  apply (wanted_level_spec cj_in_trouble 2); vm_compute; [split|]; discriminate.
Defined.

(** X3: [update_needs] lowers hunger and thirst by one, not below 0, and
    takes 2 health (not below 0) exactly when one of them is at 0
    afterwards, that is when it was at 1 or less before; money, wanted
    level and inventory are not touched. *)
Theorem update_needs_spec (p : Player) :
  0 <= hunger p <= 100 -> 0 <= thirst p <= 100 ->
  hunger (Player.update_needs p) = Z.max 0 (hunger p - 1)
  /\ thirst (Player.update_needs p) = Z.max 0 (thirst p - 1)
  /\ health (Player.update_needs p)
     = (if (hunger p <=? 1) || (thirst p <=? 1) then Z.max 0 (health p - 2) else health p)
  /\ max_health (Player.update_needs p) = max_health p
  /\ money (Player.update_needs p) = money p
  /\ inventory (Player.update_needs p) = inventory p
  /\ wanted_level (Player.update_needs p) = wanted_level p.
Proof.
  intros Hh Ht. unfold Player.update_needs, Character.take_damage, clamp.
  destruct p as [[b h mh inv m s ms cw] dm mc cm wl hg th ds ws cv]. cbn in *.
  destruct (Z.leb_spec hg 1), (Z.leb_spec th 1);
    destruct (Z.leb_spec (Z.max 0 (Z.min (hg - 1) 100)) 0);
    destruct (Z.leb_spec (Z.max 0 (Z.min (th - 1) 100)) 0); cbn; try lia;
    destruct (Z.ltb_spec (h - 2) 0); cbn; repeat split; lia.
Qed.

Lemma update_needs_spec_witness :
  (0 <= hunger cj_in_trouble <= 100 /\ 0 <= thirst cj_in_trouble <= 100)
  /\ hunger (Player.update_needs cj_in_trouble) = Z.max 0 (hunger cj_in_trouble - 1)
  /\ thirst (Player.update_needs cj_in_trouble) = Z.max 0 (thirst cj_in_trouble - 1)
  /\ health (Player.update_needs cj_in_trouble)
     = (if (hunger cj_in_trouble <=? 1) || (thirst cj_in_trouble <=? 1)
        then Z.max 0 (health cj_in_trouble - 2) else health cj_in_trouble)
  /\ max_health (Player.update_needs cj_in_trouble) = max_health cj_in_trouble
  /\ money (Player.update_needs cj_in_trouble) = money cj_in_trouble
  /\ inventory (Player.update_needs cj_in_trouble) = inventory cj_in_trouble
  /\ wanted_level (Player.update_needs cj_in_trouble) = wanted_level cj_in_trouble.
Proof.
  split; [vm_compute; repeat split; discriminate|].
  apply (update_needs_spec cj_in_trouble); vm_compute; split; discriminate.
Defined.

(** ** The inventory *)

Lemma list_mem_In' v l : list_mem v l = true <-> In v l.
Proof.
  unfold list_mem. rewrite existsb_exists. split.
  - intros (u & Hin & Heq). apply Nat.eqb_eq in Heq. by subst.
  - intros Hin. exists v. split; [done|apply Nat.eqb_refl].
Qed.

Lemma list_remove_count (v : oid) (l : list oid) (j : oid) :
  In v l ->
  count_occ Nat.eq_dec (list_remove v l) j
  = if decide (j = v) then Nat.pred (count_occ Nat.eq_dec l j) else count_occ Nat.eq_dec l j.
Proof.
  induction l as [|u l IH]; [done|]. intros Hin. simpl.
  destruct (Nat.eqb_spec u v) as [->|Hne].
  - destruct (Nat.eq_dec v j) as [->|Hj]; case_decide; try congruence; reflexivity.
  - destruct Hin as [?|Hin]; [congruence|]. simpl. rewrite (IH Hin).
    destruct (Nat.eq_dec u j) as [->|Hj]; case_decide; try congruence; try reflexivity.
Qed.

(** X4: [remove_item] returns [True] exactly when the item is in the
    inventory.  Then one occurrence of it is gone (the first; an item held
    twice is still held once) and every other entry keeps its count, and
    the weapon in hand is dropped when it is that item.  Otherwise the
    character is returned unchanged. *)
Theorem remove_item_spec (c : Character) (item : oid) :
  (snd (Character.remove_item c item) = true <-> In item (inventory c))
  /\ (forall j,
        count_occ Nat.eq_dec (inventory (fst (Character.remove_item c item))) j
        = if decide (j = item) then Nat.pred (count_occ Nat.eq_dec (inventory c) j)
          else count_occ Nat.eq_dec (inventory c) j)
  /\ current_weapon (fst (Character.remove_item c item))
     = (if snd (Character.remove_item c item) && same_ref (current_weapon c) item
        then None else current_weapon c)
  /\ (snd (Character.remove_item c item) = false -> fst (Character.remove_item c item) = c)
  /\ health (fst (Character.remove_item c item)) = health c
  /\ money (fst (Character.remove_item c item)) = money c.
Proof.
  unfold Character.remove_item.
  destruct (list_mem item (inventory c)) eqn:Hmem.
  - apply list_mem_In' in Hmem. cbn [fst snd].
    split_and!; try done.
    + intros j. destruct (same_ref _ item); cbn; by apply list_remove_count.
    + cbn. destruct (same_ref (current_weapon c) item); reflexivity.
    + destruct (same_ref _ item); reflexivity.
    + destruct (same_ref _ item); reflexivity.
  - cbn [fst snd]. split_and!; try done.
    + split; [done|]. intros Hin. apply list_mem_In' in Hin. congruence.
    + intros j. case_decide; [|done]. subst j.
      assert (Hnot : ~ In item (inventory c)).
      { intros Hin. apply list_mem_In' in Hin. congruence. }
      by rewrite (proj1 (count_occ_not_In Nat.eq_dec _ _) Hnot).
Qed.

(** ** The attack *)

(** X5: an attack is one [take_damage] on the target with the damage of
    the attacker's weapon, or 5 without one: the target's health drops to
    [max(0, health - damage)], the result says whether it is 0 now, and
    the target's cell is the only thing in the world that changes. *)
Theorem f_spec (w : World) (a t : oid) (oa ot : Obj) (ca ct : Character) (dmg : Z) :
  heap w !! a = Some oa -> obj_character oa = Some ca ->
  heap w !! t = Some ot -> obj_character ot = Some ct ->
  attack_damage (heap w) ca = Some dmg ->
  Character.f a t w
  = Val (Z.max 0 (health ct - dmg) =? 0)
        (with_heap w
           (<[t := obj_with_character ot (with_health ct (Z.max 0 (health ct - dmg)))]>
              (heap w))).
Proof.
  intros Ha Hca Ht Hct Hd. unfold Character.f.
  rewrite (bind_val _ _ _ _ _ (get_character_val _ _ _ _ Ha Hca)).
  assert (Hdmg : (match current_weapon ca with
                  | Some wp =>
                      let* it := get_item wp in
                      match variant it with
                      | Weapon d => ret d
                      | _ => raise AttributeError
                      end
                  | None => ret 5
                  end) w = Val dmg w).
  { unfold attack_damage in Hd. destruct (current_weapon ca) as [wp|].
    - destruct (heap w !! wp) as [[| | | |it| |]|] eqn:Hwp; try discriminate.
      unfold get_item. rewrite bind_bind.
      rewrite (bind_val _ _ _ _ _ (deref_val _ _ _ Hwp)). rewrite bind_ret.
      destruct (variant it); try discriminate. by inversion Hd.
    - by inversion Hd. }
  rewrite (bind_val _ _ _ _ _ Hdmg).
  rewrite (on_character_val _ _ _ _ _ Ht Hct).
  unfold Character.take_damage. cbn [fst snd].
  destruct (Z.ltb_spec (health (with_health ct (health ct - dmg))) 0) as [Hlt|Hge].
  - cbn in Hlt |- *.
    replace (Z.max 0 (health ct - dmg)) with 0 by lia. reflexivity.
  - cbn in Hge |- *.
    replace (Z.max 0 (health ct - dmg)) with (health ct - dmg) by lia. reflexivity.
Qed.

Lemma f_spec_witness :
  attack_damage (heap before_last_shot) cj = Some 5
  /\ exists ca e,
       heap before_last_shot !! 0%nat = Some (OPlayer ca)
       /\ heap before_last_shot !! 17%nat = Some (OEnemy e)
       /\ attack_damage (heap before_last_shot) ca = Some 30
       /\ Character.f 0%nat 17%nat before_last_shot
          = Val (Z.max 0 (health e - 30) =? 0)
              (with_heap before_last_shot
                 (<[17%nat := obj_with_character (OEnemy e)
                                (with_health e (Z.max 0 (health e - 30)))]>
                    (heap before_last_shot))).
Proof.
  split; [reflexivity|].
  eexists _, _.
  split; [vm_compute; reflexivity|]. split; [vm_compute; reflexivity|].
  split; [vm_compute; reflexivity|].
  refine (f_spec before_last_shot 0%nat 17%nat _ _ _ _ 30 _ _ _ _ _).
  - vm_compute; reflexivity.
  - reflexivity.
  - vm_compute; reflexivity.
  - reflexivity.
  - vm_compute; reflexivity.
Defined.

(** ** Items on disk *)

Lemma create_item_to_dict (w : World) (it : Item) :
  item_well_formed it ->
  ItemFactory.create_item_from_dict (Item.to_dict it) w
  = Val (length (heap w)) (with_heap w (heap w ++ [OItem it])).
Proof.
  destruct it as [[px py c n] d v var]. unfold item_well_formed. cbn [variant value].
  destruct var; intros Hwf; subst; reflexivity.
Qed.

(** X6: an item written by [to_dict] and read back by
    [ItemFactory.create_item_from_dict] is a new object equal to the
    original in every field: position, character, name, description,
    value, class and the field of its class. *)
Theorem item_round_trip (w : World) (it : Item) :
  item_well_formed it ->
  exists w',
    ItemFactory.create_item_from_dict (Item.to_dict it) w = Val (length (heap w)) w'
    /\ heap w' !! length (heap w) = Some (OItem it)
    /\ (forall i o, heap w !! i = Some o -> heap w' !! i = Some o)
    /\ game w' = game w.
Proof.
  intros Hwf. eexists. split; [by apply create_item_to_dict|]. cbn. split_and!.
  - rewrite lookup_app_r by lia. by rewrite Nat.sub_diag.
  - intros i o Hi. by apply lookup_app_l_Some.
  - reflexivity.
Qed.

Lemma item_round_trip_witness :
  item_well_formed cash_bundle
  /\ exists w',
       ItemFactory.create_item_from_dict (Item.to_dict cash_bundle) (new_game [])
       = Val (length (heap (new_game []))) w'
       /\ heap w' !! length (heap (new_game [])) = Some (OItem cash_bundle)
       /\ (forall i o, heap (new_game []) !! i = Some o -> heap w' !! i = Some o)
       /\ game w' = game (new_game []).
Proof.
  split; [reflexivity|].
  apply (item_round_trip (new_game []) cash_bundle). reflexivity.
Defined.

(** X7: a document that has only the required keys is read with the
    defaults of its class: description, value 0, character [ITEM_CHAR]
    and the class's own default (damage 1, heal 25, amount 0, restore
    20); an unknown type makes a plain [Item]. *)
Theorem item_defaults (w : World) (px py : Z) (n ty : string) :
  ItemFactory.create_item_from_dict (minimal_item_document px py n ty) w
  = Val (length (heap w)) (with_heap w (heap w ++ [OItem (default_item px py n ty)])).
Proof.
  unfold ItemFactory.create_item_from_dict, minimal_item_document, default_item.
  cbn [Json.get dict_get String.eqb Ascii.eqb Bool.eqb]. rewrite bind_ret.
  cbn [Json.eq_str].
  repeat (destruct (String.eqb ty _); [reflexivity|]). reflexivity.
Qed.

(** X8: a document without the key ["x"] is refused with [KeyError],
    whatever its type and other fields, and nothing is created. *)
Theorem item_needs_position (w : World) (fields : list (string * json)) :
  dict_get fields "x" = None ->
  ItemFactory.create_item_from_dict (JObj fields) w = Raise (KeyError "x") w.
Proof.
  intros Hx. unfold ItemFactory.create_item_from_dict.
  unfold Json.get at 1. destruct (dict_get fields "type") as [ty|]; rewrite bind_ret.
  - repeat match goal with
           | |- (if ?b then _ else _) _ = _ => destruct b
           end;
      unfold Item.Weapon_from_dict, Item.HealthPack_from_dict, Item.Food_from_dict,
        Item.Drink_from_dict, Item.MoneyBundle_from_dict, Item.from_dict_sub, Item.from_dict;
      unfold Json.getitem at 1; rewrite Hx; reflexivity.
  - cbn [Json.eq_str String.eqb Ascii.eqb Bool.eqb].
    unfold Item.from_dict. unfold Json.getitem at 1. rewrite Hx. reflexivity.
Qed.

Lemma item_needs_position_witness :
  dict_get [("name", JStr "Pistol"); ("type", JStr "Weapon"); ("damage", JInt 15)] "x" = None
  /\ ItemFactory.create_item_from_dict
       (JObj [("name", JStr "Pistol"); ("type", JStr "Weapon"); ("damage", JInt 15)])
       (new_game [])
     = Raise (KeyError "x") (new_game []).
Proof.
  split; [reflexivity|].
  apply (item_needs_position (new_game [])). reflexivity.
Defined.

(** ** Enemies, vehicles and shops on disk *)

Lemma items_to_dict (w : World) (ids : list oid) (its : list Item) :
  items_at (heap w) ids its ->
  map_M (fun i => let* it := get_item i in ret (Item.to_dict it)) ids w
  = Val (map Item.to_dict its) w.
Proof.
  intros H. induction H as [|i it ids its Hi _ IH]; [reflexivity|].
  cbn [map_M map]. unfold get_item at 1. rewrite !bind_bind.
  rewrite (bind_val _ _ _ _ _ (deref_val _ _ _ Hi)). rewrite !bind_ret.
  rewrite (bind_val _ _ _ _ _ IH). reflexivity.
Qed.

Lemma create_items (its : list Item) : forall w,
  Forall item_well_formed its ->
  map_M ItemFactory.create_item_from_dict (map Item.to_dict its) w
  = Val (fresh_ids (length (heap w)) (length its))
        (with_heap w (heap w ++ map OItem its)).
Proof.
  induction its as [|it its IH]; intros w Hwf.
  - cbn. rewrite app_nil_r. by destruct w.
  - inversion Hwf as [|? ? Hit Hits]; subst. cbn [map map_M].
    rewrite (bind_val _ _ _ _ _ (create_item_to_dict w it Hit)). cbv beta.
    rewrite (bind_val _ _ _ _ _ (IH _ Hits)). unfold ret.
    cbn [heap with_heap length fresh_ids seq].
    rewrite length_app. cbn [length]. rewrite Nat.add_1_r.
    unfold with_heap. cbn. by rewrite <- app_assoc.
Qed.

Ltac jsimpl :=
  repeat (progress
    (cbn [Json.get Json.getitem Json.as_int Json.as_str Json.as_num Json.as_bool
          Json.as_list Json.iterate Json.dict_items Json.eq_str Json.truthy
          dict_get String.eqb Ascii.eqb Bool.eqb];
     rewrite ?bind_ret; cbv beta)).

Lemma character_to_dict (w : World) (c : Character) (ty : string) (its : list Item) :
  items_at (heap w) (inventory c) its -> weapon_at (heap w) c ->
  exists wp,
    Character.to_dict c ty w
    = Val [("x", JInt (x c)); ("y", JInt (y c)); ("char", JStr (char c));
           ("name", JStr (name c)); ("type", JStr ty);
           ("health", JInt (health c)); ("max_health", JInt (max_health c));
           ("money", JInt (money c)); ("stamina", JFloat (stamina c));
           ("max_stamina", JFloat (max_stamina c));
           ("inventory", JArr (map Item.to_dict its)); ("current_weapon", wp)] w.
Proof.
  intros Hinv Hwp. unfold Character.to_dict. cbv zeta.
  rewrite (bind_val _ _ _ _ _ (items_to_dict w _ _ Hinv)).
  unfold weapon_at in Hwp. destruct (current_weapon c) as [i|].
  - destruct Hwp as (it & Hit). exists (JStr (name it)).
    unfold get_item. rewrite !bind_bind.
    rewrite (bind_val _ _ _ _ _ (deref_val _ _ _ Hit)). reflexivity.
  - exists JNull. reflexivity.
Qed.

(** X9: an enemy written by [to_dict] and read back by [Enemy.from_dict]
    keeps position, name, health, maximal health, money, stamina, damage
    and faction.  Its inventory is re-created item by item as new
    objects, no weapon is in hand, and its character is chosen anew by
    the faction. *)
Theorem enemy_round_trip (w : World) (e : Enemy) (its : list Item) :
  items_at (heap w) (inventory e) its ->
  Forall item_well_formed its ->
  weapon_at (heap w) e ->
  exists j,
    Enemy.to_dict e w = Val j w
    /\ Enemy.from_dict j w
       = Val (length (heap w) + length its)%nat
           (with_heap w
              (heap w ++ map OItem its
               ++ [OEnemy (reloaded_enemy e (fresh_ids (length (heap w)) (length its)))])).
Proof.
  intros Hinv Hwf Hwp.
  destruct (character_to_dict w e "Enemy" its Hinv Hwp) as (wp & Hdoc).
  eexists. split.
  - unfold Enemy.to_dict. rewrite (bind_val _ _ _ _ _ Hdoc). reflexivity.
  - cbn [Json.update fold_left dict_set String.eqb Ascii.eqb Bool.eqb fst snd].
    unfold Enemy.from_dict. jsimpl. cbv zeta. jsimpl.
    cbn [health enemy_base Enemy_init Character_init]. jsimpl.
    rewrite (bind_val _ _ _ _ _ (create_items its w Hwf)).
    unfold new. cbn [heap with_heap]. unfold with_heap. cbn.
    rewrite length_app, length_map, <- app_assoc. reflexivity.
Qed.

Lemma enemy_round_trip_witness :
  (items_at (heap (new_game [])) (inventory officer_enemy) []
   /\ Forall item_well_formed [] /\ weapon_at (heap (new_game [])) officer_enemy)
  /\ exists j,
       Enemy.to_dict officer_enemy (new_game []) = Val j (new_game [])
       /\ Enemy.from_dict j (new_game [])
          = Val (length (heap (new_game [])) + length (@nil Item))%nat
              (with_heap (new_game [])
                 (heap (new_game []) ++ map OItem []
                  ++ [OEnemy (reloaded_enemy officer_enemy
                                (fresh_ids (length (heap (new_game []))) (length (@nil Item))))])).
Proof.
  split; [split; [constructor|split; [constructor|exact I]]|].
  apply (enemy_round_trip (new_game []) officer_enemy []);
    [constructor|constructor|exact I].
Defined.

(** X10: a vehicle written by [to_dict] and read back by
    [Vehicle.from_dict] keeps position, name, health, maximal health and
    speed; it comes back empty (the occupant is written by name only and
    is left for [load_game] to restore) and with the standard vehicle
    character. *)
Theorem vehicle_round_trip (w : World) (v : Vehicle) :
  occupant_at (heap w) v ->
  exists j,
    Vehicle.to_dict v w = Val j w
    /\ Vehicle.from_dict j w
       = Val (length (heap w))
           (with_heap w (heap w ++ [OVehicle (reloaded_vehicle v)])).
Proof.
  intros Hocc.
  assert (Hj : exists occ,
    (match occupant v with
     | Some c => let* o := deref c in ret (JStr (name (obj_base o)))
     | None => ret JNull
     end) w = Val occ w).
  { unfold occupant_at in Hocc. destruct (occupant v) as [c|].
    - destruct Hocc as (o & Ho). eexists.
      rewrite (bind_val _ _ _ _ _ (deref_val _ _ _ Ho)). reflexivity.
    - by eexists. }
  destruct Hj as (occ & Hj). eexists. split.
  - unfold Vehicle.to_dict. cbv zeta. rewrite (bind_val _ _ _ _ _ Hj). reflexivity.
  - cbn [Json.update fold_left dict_set GameObject.to_dict String.eqb Ascii.eqb Bool.eqb
         fst snd].
    unfold Vehicle.from_dict. jsimpl. cbv zeta. jsimpl. reflexivity.
Qed.

Lemma vehicle_round_trip_witness :
  occupant_at (heap at_edge) (mkVehicle (mkGameObject 79 10 VEHICLE_CHAR "Green Sabre") 100 100 3 (Some 0%nat))
  /\ exists j,
       Vehicle.to_dict (mkVehicle (mkGameObject 79 10 VEHICLE_CHAR "Green Sabre") 100 100 3 (Some 0%nat))
         at_edge = Val j at_edge
       /\ Vehicle.from_dict j at_edge
          = Val (length (heap at_edge))
              (with_heap at_edge
                 (heap at_edge
                  ++ [OVehicle (reloaded_vehicle
                        (mkVehicle (mkGameObject 79 10 VEHICLE_CHAR "Green Sabre")
                           100 100 3 (Some 0%nat)))])).
Proof.
  assert (H : occupant_at (heap at_edge)
                (mkVehicle (mkGameObject 79 10 VEHICLE_CHAR "Green Sabre") 100 100 3
                   (Some 0%nat))).
  { eexists. vm_compute. reflexivity. }
  split; [exact H|].
  apply (vehicle_round_trip at_edge _ H).
Defined.

Lemma stock_to_dict (w : World) (inv : list (oid * Z)) (its : list Item) :
  items_at (heap w) (map fst inv) its ->
  map_M (fun ip => let* it := get_item (fst ip) in
                   ret (JArr [Item.to_dict it; JInt (snd ip)])) inv w
  = Val (zip_with (fun it ip => JArr [Item.to_dict it; JInt (snd ip)]) its inv) w.
Proof.
  revert its. induction inv as [|ip inv IH]; intros its H.
  - inversion H. reflexivity.
  - inversion H as [|? it ? its' Hi Hrest]; subst. cbn [map_M zip_with].
    unfold get_item at 1. rewrite !bind_bind.
    rewrite (bind_val _ _ _ _ _ (deref_val _ _ _ Hi)). rewrite !bind_ret.
    rewrite (bind_val _ _ _ _ _ (IH _ Hrest)). reflexivity.
Qed.

Lemma create_stock (its : list Item) : forall (inv : list (oid * Z)) w,
  length its = length inv ->
  Forall item_well_formed its ->
  map_M (fun entry =>
           let* pair := Json.unpack2 entry in
           let* it := ItemFactory.create_item_from_dict (fst pair) in
           let* price := Json.as_int (snd pair) in
           ret (it, price))
        (zip_with (fun it ip => JArr [Item.to_dict it; JInt (snd ip)]) its inv) w
  = Val (zip (fresh_ids (length (heap w)) (length its)) (map snd inv))
        (with_heap w (heap w ++ map OItem its)).
Proof.
  induction its as [|it its IH]; intros inv w Hlen Hwf.
  - cbn. rewrite app_nil_r. by destruct w.
  - destruct inv as [|ip inv]; [discriminate|]. injection Hlen as Hlen.
    inversion Hwf as [|? ? Hit Hits]; subst. cbn [zip_with map_M].
    unfold Json.unpack2 at 1. cbn [Json.iterate]. rewrite !bind_bind, bind_ret.
    cbv beta iota. rewrite bind_ret. cbn [fst snd]. rewrite !bind_bind.
    rewrite (bind_val _ _ _ _ _ (create_item_to_dict w it Hit)). cbv beta.
    cbn [Json.as_int]. rewrite !bind_bind, !bind_ret.
    rewrite (bind_val _ _ _ _ _ (IH inv _ Hlen Hits)). unfold ret.
    cbn [heap with_heap length fresh_ids seq map].
    rewrite length_app. cbn [length]. rewrite Nat.add_1_r.
    unfold with_heap. cbn. by rewrite <- app_assoc.
Qed.

(** X11: a shop written by [to_dict] and read back by [Shop.from_dict]
    keeps position, name, type and the prices in their order; every item
    of its stock is re-created as a new object equal to the original. *)
Theorem shop_round_trip (w : World) (s : Shop) (its : list Item) :
  items_at (heap w) (map fst (shop_inventory s)) its ->
  Forall item_well_formed its ->
  exists j,
    Shop.to_dict s w = Val j w
    /\ Shop.from_dict j w
       = Val (length (heap w) + length its)%nat
           (with_heap w
              (heap w ++ map OItem its
               ++ [OShop (reloaded_shop s (fresh_ids (length (heap w)) (length its)))])).
Proof.
  intros Hinv Hwf.
  assert (Hlen : length its = length (shop_inventory s)).
  { apply Forall2_length in Hinv. by rewrite length_map in Hinv. }
  eexists. split.
  - unfold Shop.to_dict. cbv zeta.
    rewrite (bind_val _ _ _ _ _ (stock_to_dict w _ _ Hinv)). reflexivity.
  - cbn [Json.update fold_left dict_set GameObject.to_dict String.eqb Ascii.eqb Bool.eqb
         fst snd].
    unfold Shop.from_dict. jsimpl.
    rewrite (bind_val _ _ _ _ _ (create_stock its _ w Hlen Hwf)). jsimpl.
    unfold new. cbn [heap with_heap]. unfold with_heap. cbn.
    rewrite length_app, length_map, <- app_assoc. reflexivity.
Qed.

Lemma shop_round_trip_witness :
  heap (new_game []) !! 14%nat = Some (OShop cluckin_bell)
  /\ (items_at (heap (new_game [])) (map fst (shop_inventory cluckin_bell)) cluckin_bell_menu
      /\ Forall item_well_formed cluckin_bell_menu)
  /\ exists j,
       Shop.to_dict cluckin_bell (new_game []) = Val j (new_game [])
       /\ Shop.from_dict j (new_game [])
          = Val (length (heap (new_game [])) + length cluckin_bell_menu)%nat
              (with_heap (new_game [])
                 (heap (new_game []) ++ map OItem cluckin_bell_menu
                  ++ [OShop (reloaded_shop cluckin_bell
                               (fresh_ids (length (heap (new_game [])))
                                  (length cluckin_bell_menu)))])).
Proof.
  split; [vm_compute; reflexivity|].
  split; [split; repeat constructor|].
  apply (shop_round_trip (new_game []) cluckin_bell cluckin_bell_menu); repeat constructor.
Defined.

(** ** Moving on the map *)

Lemma collision_false h self other nx ny objs :
  collision h self other nx ny objs = false ->
  forall i o, In i objs -> i <> self -> same_ref other i = false ->
    h !! i = Some o -> in_the_way o nx ny = false.
Proof.
  induction objs as [|j objs IH]; [by intros _ i o []|].
  simpl. intros Hc i o [->|Hin] Hself Hother Ho.
  - destruct (Nat.eqb_spec i self); [done|]. rewrite Hother, Ho in Hc. simpl in Hc.
    by destruct (in_the_way o nx ny).
  - apply (IH) with (i := i); try done.
    destruct (negb (j =? self)%nat && negb (same_ref other j)); [|done].
    destruct (h !! j) as [oj|]; [|done]. by destruct (in_the_way oj nx ny).
Qed.

Lemma collision_free h self other nx ny objs :
  (forall i o, In i objs -> i <> self -> same_ref other i = false ->
     h !! i = Some o -> in_the_way o nx ny = false) ->
  collision h self other nx ny objs = false.
Proof.
  induction objs as [|j objs IH]; [done|]. intros Hfree. simpl.
  rewrite IH by (intros i o Hi; apply Hfree; by right).
  destruct (Nat.eqb_spec j self) as [|Hne]; [done|].
  destruct (same_ref other j) eqn:Hother; [done|]. simpl.
  destruct (h !! j) as [o|] eqn:Ho; [|done].
  by rewrite (Hfree j o (or_introl eq_refl) Hne Hother Ho).
Qed.

(** X12: a step on foot always returns, and it succeeds exactly when the
    target cell is inside the grid and no other object of the map is in
    the way there (Big Smoke counted on both his tiles).  A failed step
    changes nothing; a successful one puts the player on the target cell
    and costs one point of stamina, and touches nothing else.  Stamina is
    no condition: with none left the player still walks. *)
Theorem walk_spec (w : World) (pl : oid) (p : Player) (dx dy : Z) :
  heap w !! pl = Some (OPlayer p) ->
  current_vehicle p = None ->
  exists b w',
    Player.move pl dx dy w = Val b w'
    /\ (b = true
        <-> in_bounds (x p + dx) (y p + dy) = true
            /\ free_cell w pl None (x p + dx) (y p + dy))
    /\ (b = false -> w' = w)
    /\ (b = true ->
        in_bounds (x p + dx) (y p + dy) = true
        /\ free_cell w pl None (x p + dx) (y p + dy)
        /\ w' = with_heap w
                  (<[pl := OPlayer
                       (with_character p
                          (with_stamina (character_set_xy p (x p + dx) (y p + dy))
                             (clampQ (stamina p - 1) 0 (max_stamina p))))]> (heap w))).
Proof.
  intros Hp Hveh. unfold Player.move.
  rewrite (bind_val _ _ _ _ _ (get_player_val _ _ _ Hp)). cbv beta zeta. rewrite Hveh.
  destruct (in_bounds (x p + dx) (y p + dy)) eqn:Hin; cbn [negb]; cbv beta iota.
  - rewrite !bind_gets. cbv beta.
    destruct (collision _ _ _ _ _ _) eqn:Hc.
    + exists false, w. split_and!; [done| |done|done].
      split; [done|]. intros [_ Hfree]. apply collision_free in Hfree. congruence.
    + assert (Hfree : free_cell w pl None (x p + dx) (y p + dy)).
      { intros i o Hi Hne Hother Ho. by eapply collision_false. }
      eexists true, _. split; [reflexivity|]. split_and!; [done|done|].
      intros _. split_and!; [done|done|reflexivity].
  - exists false, w. split_and!; [done| |done|done].
    split; [done|]. by intros [? _].
Qed.

Lemma walk_spec_witness :
  (heap worn_out !! 0%nat = Some (OPlayer worn_out_cj)
   /\ current_vehicle worn_out_cj = None
   /\ stamina worn_out_cj = 0 # 1)
  /\ exists w',
       Player.move 0%nat 1 0 worn_out = Val true w'
       /\ w' = with_heap worn_out
                 (<[0%nat := OPlayer
                      (with_character worn_out_cj
                         (with_stamina
                            (character_set_xy worn_out_cj (x worn_out_cj + 1)
                               (y worn_out_cj + 0))
                            (clampQ (stamina worn_out_cj - 1) 0
                               (max_stamina worn_out_cj))))]>
                    (heap worn_out)).
Proof.
  split; [repeat split; reflexivity|].
  destruct (walk_spec worn_out 0%nat worn_out_cj 1 0 eq_refl eq_refl)
    as (b & w' & Hmove & Hiff & _ & Htrue).
  assert (Hb : b = true).
  { apply Hiff. split; [reflexivity|].
    intros i o Hi Hne Hother Ho.
    refine (collision_false (heap worn_out) 0%nat None _ _
              (objects (game_map (game worn_out))) _ i o Hi Hne Hother Ho).
    vm_compute; reflexivity. }
  subst b. exists w'. split; [exact Hmove|]. apply Htrue. reflexivity.
Defined.

(** X13: driving.  With the player at the wheel a step either fails and
    changes nothing, or moves the vehicle to the target cell, inside the
    grid and with no other object in the way, and puts the driver on that
    same cell wherever the driver stood; it costs half a point of
    stamina. *)
Theorem drive_spec (w : World) (pl v : oid) (p : Player) (veh : Vehicle) (dx dy : Z) :
  heap w !! pl = Some (OPlayer p) ->
  current_vehicle p = Some v ->
  heap w !! v = Some (OVehicle veh) ->
  occupant veh = Some pl ->
  exists b w',
    Player.move pl dx dy w = Val b w'
    /\ (b = false -> w' = w)
    /\ (b = true ->
        in_bounds (x veh + dx) (y veh + dy) = true
        /\ free_cell w v (Some pl) (x veh + dx) (y veh + dy)
        /\ game w' = game w
        /\ heap w' !! v
           = Some (OVehicle (vehicle_with_base veh (set_xy veh (x veh + dx) (y veh + dy))))
        /\ heap w' !! pl
           = Some (OPlayer
                (with_character p
                   (with_stamina (character_set_xy p (x veh + dx) (y veh + dy))
                      (clampQ (stamina p - (1 # 2)) 0 (max_stamina p)))))
        /\ (forall i, i <> v -> i <> pl -> heap w' !! i = heap w !! i)).
Proof.
  intros Hp Hcur Hv Hocc.
  assert (Hne : v <> pl) by (intros ->; congruence).
  assert (Hlv : (v < length (heap w))%nat) by (eapply lookup_lt_Some; eauto).
  assert (Hlp : (pl < length (heap w))%nat) by (eapply lookup_lt_Some; eauto).
  unfold Player.move.
  rewrite (bind_val _ _ _ _ _ (get_player_val _ _ _ Hp)). cbv beta zeta. rewrite Hcur.
  unfold Vehicle.move.
  rewrite (bind_val _ _ _ _ _ (get_vehicle_val _ _ _ Hv)). cbv beta zeta.
  destruct (in_bounds (x veh + dx) (y veh + dy)) eqn:Hin; cbn [negb]; cbv beta iota.
  - rewrite !bind_gets. cbv beta.
    destruct (collision _ _ _ _ _ _) eqn:Hc.
    + exists false, w. split_and!; done.
    + rewrite Hocc. rewrite bind_store. rewrite !bind_bind.
      erewrite (bind_val (on_character pl _)); cycle 1.
      { apply on_character_val with (o := OPlayer p) (c := p : Character); [|reflexivity].
        cbn [heap with_heap]. by rewrite list_lookup_insert_ne. }
      cbv beta. cbn [fst snd].
      erewrite (bind_val (on_character pl _)); cycle 1.
      { eapply on_character_val;
          [cbn [heap with_heap]; apply list_lookup_insert_eq; by rewrite length_insert
          |reflexivity]. }
      cbv beta. unfold ret.
      eexists true, _. split; [reflexivity|]. split; [done|]. intros _.
      cbn [heap with_heap game fst snd obj_with_character].
      split_and!; try done.
      * intros i o Hi Hnv Hother Ho. rewrite Hocc in Hc. by eapply collision_false.
      * rewrite !list_lookup_insert_ne by done. by apply list_lookup_insert_eq.
      * rewrite list_insert_insert_eq. apply list_lookup_insert_eq.
        by rewrite length_insert.
      * intros i Hiv Hip. by rewrite !list_lookup_insert_ne.
  - exists false, w. split_and!; done.
Qed.

Lemma drive_spec_witness :
  exists p veh,
    heap at_edge !! 0%nat = Some (OPlayer p)
    /\ current_vehicle p = Some 18%nat
    /\ heap at_edge !! 18%nat = Some (OVehicle veh)
    /\ occupant veh = Some 0%nat
    /\ exists b w',
         Player.move 0%nat (-1) 0 at_edge = Val b w'
         /\ (b = false -> w' = at_edge)
         /\ (b = true ->
             in_bounds (x veh + -1) (y veh + 0) = true
             /\ free_cell at_edge 18%nat (Some 0%nat) (x veh + -1) (y veh + 0)
             /\ game w' = game at_edge
             /\ heap w' !! 18%nat
                = Some (OVehicle (vehicle_with_base veh (set_xy veh (x veh + -1) (y veh + 0))))
             /\ heap w' !! 0%nat
                = Some (OPlayer
                     (with_character p
                        (with_stamina (character_set_xy p (x veh + -1) (y veh + 0))
                           (clampQ (stamina p - (1 # 2)) 0 (max_stamina p)))))
             /\ (forall i, i <> 18%nat -> i <> 0%nat -> heap w' !! i = heap at_edge !! i)).
Proof.
  eexists _, _.
  split; [vm_compute; reflexivity|]. split; [vm_compute; reflexivity|].
  split; [vm_compute; reflexivity|]. split; [vm_compute; reflexivity|].
  refine (drive_spec at_edge 0%nat 18%nat _ _ (-1) 0 _ _ _ _); vm_compute; reflexivity.
Defined.

(** X14: getting into a free vehicle and out again.  Entering links
    driver and vehicle both ways and moves nobody; leaving restores the
    vehicle exactly and puts the player, again in no vehicle, on the cell
    to the right of it, wherever the player stood before. *)
Theorem enter_then_exit (w : World) (v pl : oid) (veh : Vehicle) (p : Player) :
  heap w !! v = Some (OVehicle veh) ->
  heap w !! pl = Some (OPlayer p) ->
  occupant veh = None ->
  exists w1 w2,
    Vehicle.enter v pl w = Val true w1
    /\ heap w1 !! v = Some (OVehicle (with_occupant veh (Some pl)))
    /\ heap w1 !! pl = Some (OPlayer (with_current_vehicle p (Some v)))
    /\ Vehicle.exit v pl w1 = Val true w2
    /\ heap w2 !! v = Some (OVehicle veh)
    /\ heap w2 !! pl
       = Some (OPlayer (with_character (with_current_vehicle p None)
                          (character_set_xy p (x veh + 1) (y veh))))
    /\ game w2 = game w
    /\ (forall i, i <> v -> i <> pl -> heap w2 !! i = heap w !! i).
Proof.
  intros Hv Hp Hocc.
  assert (Hne : v <> pl) by (intros ->; congruence).
  assert (Hlv : (v < length (heap w))%nat) by (eapply lookup_lt_Some; eauto).
  assert (Hlp : (pl < length (heap w))%nat) by (eapply lookup_lt_Some; eauto).
  set (w1 := with_heap w
               (<[pl := OPlayer (with_current_vehicle p (Some v))]>
                  (<[v := OVehicle (with_occupant veh (Some pl))]> (heap w)))).
  assert (Hv1 : heap w1 !! v = Some (OVehicle (with_occupant veh (Some pl)))).
  { subst w1. cbn. rewrite list_lookup_insert_ne by done. by apply list_lookup_insert_eq. }
  assert (Hp1 : heap w1 !! pl = Some (OPlayer (with_current_vehicle p (Some v)))).
  { subst w1. cbn. apply list_lookup_insert_eq. by rewrite length_insert. }
  assert (Henter : Vehicle.enter v pl w = Val true w1).
  { unfold Vehicle.enter. rewrite (bind_val _ _ _ _ _ (get_vehicle_val _ _ _ Hv)).
    rewrite Hocc. rewrite bind_store.
    erewrite (bind_val (update_player pl _)); cycle 1.
    { apply update_player_val. cbn. by rewrite list_lookup_insert_ne. }
    reflexivity. }
  destruct (exit_general w1 v pl _ _ Hv1 Hp1 eq_refl)
    as (w2 & p2 & Hexit & Hv2 & Hp2 & Hcv & Hx & Hy & Hg & Hrest).
  exists w1, w2. split_and!; try done.
  - rewrite Hv2. destruct veh; cbn in Hocc |- *. by subst.
  - clear Hrest. unfold Vehicle.exit in Hexit.
    rewrite (bind_val _ _ _ _ _ (get_vehicle_val _ _ _ Hv1)) in Hexit.
    cbn [occupant with_occupant same_ref] in Hexit. rewrite Nat.eqb_refl in Hexit.
    rewrite bind_store in Hexit.
    erewrite (bind_val (update_player pl _)) in Hexit; cycle 1.
    { apply update_player_val. cbn. rewrite list_lookup_insert_ne by done. exact Hp1. }
    erewrite (bind_val (on_character pl _)) in Hexit; cycle 1.
    { eapply on_character_val;
        [cbn; apply list_lookup_insert_eq; rewrite length_insert; subst w1; cbn;
         by rewrite !length_insert
        |reflexivity]. }
    inversion Hexit; subst w2. cbn.
    rewrite list_insert_insert_eq.
    rewrite list_lookup_insert_eq by (rewrite length_insert; subst w1; cbn;
                                   by rewrite !length_insert).
    reflexivity.
  - intros i Hiv Hip. rewrite (Hrest i Hiv Hip). subst w1. cbn.
    by rewrite !list_lookup_insert_ne.
Qed.

Lemma enter_then_exit_witness :
  (heap (new_game []) !! 18%nat
   = Some (OVehicle (Vehicle_init 30 10 "Green Sabre" 100 3 VEHICLE_CHAR))
   /\ heap (new_game []) !! 0%nat = Some (OPlayer cj)
   /\ occupant (Vehicle_init 30 10 "Green Sabre" 100 3 VEHICLE_CHAR) = None)
  /\ exists w1 w2,
       Vehicle.enter 18%nat 0%nat (new_game []) = Val true w1
       /\ heap w1 !! 18%nat
          = Some (OVehicle (with_occupant (Vehicle_init 30 10 "Green Sabre" 100 3 VEHICLE_CHAR)
                              (Some 0%nat)))
       /\ heap w1 !! 0%nat = Some (OPlayer (with_current_vehicle cj (Some 18%nat)))
       /\ Vehicle.exit 18%nat 0%nat w1 = Val true w2
       /\ heap w2 !! 18%nat
          = Some (OVehicle (Vehicle_init 30 10 "Green Sabre" 100 3 VEHICLE_CHAR))
       /\ heap w2 !! 0%nat
          = Some (OPlayer (with_character (with_current_vehicle cj None)
                             (character_set_xy cj
                                (x (Vehicle_init 30 10 "Green Sabre" 100 3 VEHICLE_CHAR) + 1)
                                (y (Vehicle_init 30 10 "Green Sabre" 100 3 VEHICLE_CHAR)))))
       /\ game w2 = game (new_game [])
       /\ (forall i, i <> 18%nat -> i <> 0%nat -> heap w2 !! i = heap (new_game []) !! i).
Proof.
  split; [repeat split|].
  apply (enter_then_exit (new_game []) 18%nat 0%nat
           (Vehicle_init 30 10 "Green Sabre" 100 3 VEHICLE_CHAR) cj); reflexivity.
Defined.

(** ** Enemies *)

Lemma swap_In {A} (l : list A) (i j : nat) (m : A) : In m (swap l i j) -> In m l.
Proof.
  unfold swap. destruct (l !! i) as [a|] eqn:Hi; [|done].
  destruct (l !! j) as [b|] eqn:Hj; [|done].
  rewrite <- !list_elem_of_In. intros Hm.
  apply list_elem_of_lookup in Hm as (k & Hk).
  apply list_lookup_insert_Some in Hk as [(-> & -> & _)|(Hne & Hk)].
  - apply list_elem_of_lookup. eauto.
  - apply list_lookup_insert_Some in Hk as [(-> & -> & _)|(Hne' & Hk)];
      apply list_elem_of_lookup; eauto.
Qed.

Lemma shuffle_from_spec {A} (i : nat) : forall (l : list A) (w : World),
  exists l',
    shuffle_from i l w = Val l' (with_random_pos w (random_pos w + i))
    /\ forall m, In m l' -> In m l.
Proof.
  induction i as [|i IH]; intros l w.
  - exists l. split; [|done]. cbn. rewrite Nat.add_0_r. by destruct w.
  - cbn [shuffle_from]. unfold draw at 1. unfold bind at 1.
    destruct (IH (swap l (S i) (random_source w (random_pos w) mod S (S i)))
                (with_random_pos w (S (random_pos w)))) as (l' & Hl' & Hin).
    exists l'. split.
    + rewrite Hl'. unfold with_random_pos. cbn. do 2 f_equal. lia.
    + intros m Hm. eapply swap_In, Hin, Hm.
Qed.

Lemma is_occupied_false h self nx ny objs :
  Enemy.is_occupied h self nx ny objs = false ->
  forall (j : nat) o, In j objs -> j <> self -> h !! j = Some o ->
    ~ (x (obj_base o) = nx /\ y (obj_base o) = ny).
Proof.
  unfold Enemy.is_occupied. intros Hocc j o Hj Hne Ho [Hx Hy].
  assert (Hex : existsb (fun i => negb (i =? self)%nat
                    && match h !! i with
                       | Some o => (x (obj_base o) =? nx) && (y (obj_base o) =? ny)
                       | None => false
                       end) objs = true); [|congruence].
  apply existsb_exists. exists j. split; [done|]. cbv beta.
  rewrite Ho. destruct (Nat.eqb_spec j self); [done|]. cbn.
  apply andb_true_intro. split; by apply Z.eqb_eq.
Qed.

Lemma first_free_spec h self px py objs moves nx ny :
  Enemy.first_free h self px py objs moves = Some (nx, ny) ->
  In (nx - px, ny - py) moves
  /\ in_bounds nx ny = true
  /\ Enemy.is_occupied h self nx ny objs = false.
Proof.
  induction moves as [|[dx dy] moves IH]; [done|]. cbn [Enemy.first_free].
  destruct (in_bounds (px + dx) (py + dy)) eqn:Hin; cbn [andb].
  - destruct (Enemy.is_occupied h self (px + dx) (py + dy) objs) eqn:Hocc; cbn [negb].
    + intros H. destruct (IH H) as (? & ? & ?). split_and!; try done. by right.
    + intros H. inversion H; subst. split_and!; try done. left. f_equal; lia.
  - intros H. destruct (IH H) as (? & ? & ?). split_and!; try done. by right.
Qed.

(** X15: a random move of an enemy always returns and takes three draws
    of the random source.  When it moves, the enemy ends one cell up,
    down, left or right of where it was, inside the grid, on a cell where
    no other object of the map has its position; nothing else in the
    world changes.  When it does not move, only the random source has
    advanced. *)
Theorem move_randomly_spec (w : World) (i : oid) (e : Enemy) :
  heap w !! i = Some (OEnemy e) ->
  exists b w',
    Enemy.move_randomly i w = Val b w'
    /\ (b = false -> w' = with_random_pos w (random_pos w + 3))
    /\ (b = true ->
        exists nx ny,
          w' = with_heap (with_random_pos w (random_pos w + 3))
                 (<[i := OEnemy (enemy_with_character e (character_set_xy e nx ny))]>
                    (heap w))
          /\ Z.abs (nx - x e) + Z.abs (ny - y e) = 1
          /\ in_bounds nx ny = true
          /\ forall j o, In j (objects (game_map (game w))) -> j <> i ->
               heap w !! j = Some o ->
               ~ (x (obj_base o) = nx /\ y (obj_base o) = ny)).
Proof.
  intros He. unfold Enemy.move_randomly, shuffle. cbn [length Nat.sub].
  destruct (shuffle_from_spec 3 [(0, 1); (0, -1); (1, 0); (-1, 0)] w) as (l' & Hl' & Hin).
  rewrite (bind_val _ _ _ _ _ Hl').
  erewrite (bind_val (get_enemy i)) by (apply get_enemy_val; exact He).
  rewrite !bind_gets. cbv beta. cbn [heap game with_random_pos].
  destruct (Enemy.first_free _ _ _ _ _ l') as [[nx ny]|] eqn:Hff.
  - apply first_free_spec in Hff as (Hmv & Hb & Hocc).
    erewrite (bind_val (on_character i _)); cycle 1.
    { eapply on_character_val; [exact He|reflexivity]. }
    eexists true, _. split; [reflexivity|]. split; [done|]. intros _.
    exists nx, ny. split_and!; [reflexivity| |done|].
    + apply Hin in Hmv. cbn in Hmv.
      destruct Hmv as [H|[H|[H|[H|[]]]]]; inversion H; lia.
    + by apply is_occupied_false.
  - eexists false, _. split; [reflexivity|]. split; [done|]. done.
Qed.

Lemma move_randomly_spec_witness :
  exists e,
    heap above_big_smoke !! 15%nat = Some (OEnemy e)
    /\ exists b w',
         Enemy.move_randomly 15%nat above_big_smoke = Val b w'
         /\ (b = false
             -> w' = with_random_pos above_big_smoke (random_pos above_big_smoke + 3))
         /\ (b = true ->
             exists nx ny,
               w' = with_heap
                      (with_random_pos above_big_smoke (random_pos above_big_smoke + 3))
                      (<[15%nat := OEnemy (enemy_with_character e (character_set_xy e nx ny))]>
                         (heap above_big_smoke))
               /\ Z.abs (nx - x e) + Z.abs (ny - y e) = 1
               /\ in_bounds nx ny = true
               /\ forall j o, In j (objects (game_map (game above_big_smoke))) ->
                    j <> 15%nat -> heap above_big_smoke !! j = Some o ->
                    ~ (x (obj_base o) = nx /\ y (obj_base o) = ny)).
Proof.
  eexists. split; [vm_compute; reflexivity|].
  refine (move_randomly_spec above_big_smoke 15%nat _ _). vm_compute; reflexivity.
Defined.

(** X16: an enemy next to the player that is not a police officer on the
    chase attacks, and with no weapon in hand the blow is the 5 of bare
    fists whatever the enemy's [damage] attribute is: the player's
    health drops to [max(0, health - 5)] and nothing else changes. *)
Theorem enemy_hits_for_five (w : World) (i pl : oid) (e : Enemy) (p : Player) :
  heap w !! i = Some (OEnemy e) ->
  heap w !! pl = Some (OPlayer p) ->
  0 < health e ->
  faction e <> "Police" \/ wanted_level p <= 0 ->
  Z.abs (x e - x p) <= 1 -> Z.abs (y e - y p) <= 1 ->
  current_weapon e = None ->
  Enemy.take_turn i pl w
  = Val tt (with_heap w
              (<[pl := OPlayer (with_character p
                                  (with_health p (Z.max 0 (health p - 5))))]> (heap w))).
Proof.
  intros He Hp Hh Hchase Hx Hy Hwp. unfold Enemy.take_turn.
  rewrite (bind_val _ _ _ _ _ (get_enemy_val _ _ _ He)).
  destruct (Z.leb_spec (health e) 0); [lia|].
  rewrite (bind_val _ _ _ _ _ (get_player_val _ _ _ Hp)). cbv beta.
  assert (Hc : String.eqb (faction e) "Police" && (0 <? wanted_level p) = false).
  { destruct Hchase as [Hf|Hw].
    - apply String.eqb_neq in Hf. by rewrite Hf.
    - destruct (Z.ltb_spec 0 (wanted_level p)); [lia|]. apply andb_false_r. }
  rewrite Hc.
  destruct (Z.leb_spec (Z.abs (x e - x p)) 1); [|lia].
  destruct (Z.leb_spec (Z.abs (y e - y p)) 1); [|lia]. cbn [andb].
  unfold Character.f. rewrite !bind_bind.
  erewrite (bind_val (get_character i)) by (eapply get_character_val; [exact He|reflexivity]).
  cbv beta. rewrite Hwp. rewrite !bind_bind, bind_ret.
  erewrite (bind_val (on_character pl _)); cycle 1.
  { eapply on_character_val; [exact Hp|reflexivity]. }
  unfold ret. cbn [fst obj_with_character].
  unfold Character.take_damage. cbn [fst snd].
  destruct (Z.ltb_spec (health (with_health p (health p - 5))) 0) as [Hlt|Hge].
  - cbn in Hlt |- *. replace (Z.max 0 (health p - 5)) with 0 by lia. reflexivity.
  - cbn in Hge |- *. replace (Z.max 0 (health p - 5)) with (health p - 5) by lia.
    reflexivity.
Qed.

Lemma enemy_hits_for_five_witness :
  exists e p,
    heap before_last_shot !! 17%nat = Some (OEnemy e)
    /\ heap before_last_shot !! 0%nat = Some (OPlayer p)
    /\ damage e = 15 /\ health p = 70
    /\ Enemy.take_turn 17%nat 0%nat before_last_shot
       = Val tt (with_heap before_last_shot
                   (<[0%nat := OPlayer (with_character p
                                          (with_health p (Z.max 0 (health p - 5))))]>
                      (heap before_last_shot))).
Proof.
  eexists _, _.
  split; [vm_compute; reflexivity|]. split; [vm_compute; reflexivity|].
  split; [vm_compute; reflexivity|]. split; [vm_compute; reflexivity|].
  refine (enemy_hits_for_five before_last_shot 17%nat 0%nat _ _ _ _ _ _ _ _ _).
  - vm_compute; reflexivity.
  - vm_compute; reflexivity.
  - vm_compute; reflexivity.
  - right. vm_compute. discriminate.
  - vm_compute. discriminate.
  - vm_compute. discriminate.
  - vm_compute; reflexivity.
Defined.

Lemma move_towards_frame (w : World) (i : oid) (e : Enemy) (tx ty : Z) :
  heap w !! i = Some (OEnemy e) ->
  exists b w',
    Enemy.move_towards i tx ty w = Val b w'
    /\ game w' = game w
    /\ (forall k, k <> i -> heap w' !! k = heap w !! k)
    /\ exists e', heap w' !! i = Some (OEnemy e').
Proof.
  intros He. unfold Enemy.move_towards.
  rewrite (bind_val _ _ _ _ _ (get_enemy_val _ _ _ He)). cbv beta zeta.
  destruct (in_bounds _ _).
  - rewrite !bind_gets. cbv beta. destruct (Enemy.is_occupied _ _ _ _ _); cbn [negb].
    + exists false, w. split_and!; eauto.
    + erewrite (bind_val (on_character i _)); cycle 1.
      { eapply on_character_val; [exact He|reflexivity]. }
      eexists true, _. split; [reflexivity|]. cbn. split_and!; [done| |].
      * intros k Hk. by rewrite list_lookup_insert_ne.
      * eexists. apply list_lookup_insert_eq. eauto using lookup_lt_Some.
  - exists false, w. split_and!; eauto.
Qed.

Lemma move_randomly_frame (w : World) (i : oid) (e : Enemy) :
  heap w !! i = Some (OEnemy e) ->
  exists b w',
    Enemy.move_randomly i w = Val b w'
    /\ game w' = game w
    /\ (forall k, k <> i -> heap w' !! k = heap w !! k)
    /\ exists e', heap w' !! i = Some (OEnemy e').
Proof.
  intros He. unfold Enemy.move_randomly, shuffle. cbn [length Nat.sub].
  destruct (shuffle_from_spec 3 [(0, 1); (0, -1); (1, 0); (-1, 0)] w) as (l' & Hl' & _).
  rewrite (bind_val _ _ _ _ _ Hl').
  erewrite (bind_val (get_enemy i)) by (apply get_enemy_val; exact He).
  rewrite !bind_gets. cbv beta. cbn [heap game with_random_pos].
  destruct (Enemy.first_free _ _ _ _ _ l') as [[nx ny]|].
  - erewrite (bind_val (on_character i _)); cycle 1.
    { eapply on_character_val; [exact He|reflexivity]. }
    eexists true, _. split; [reflexivity|]. cbn. split_and!; [done| |].
    + intros k Hk. by rewrite list_lookup_insert_ne.
    + eexists. apply list_lookup_insert_eq. eauto using lookup_lt_Some.
  - eexists false, _. split; [reflexivity|]. cbn. split_and!; eauto.
Qed.

(** X17: a police officer on the chase never strikes.  While the player
    is wanted, the turn of a living officer only moves the officer (a
    step towards the player or, if that cell is taken, a random step):
    the player and every other object are left as they were, also when
    the officer stands right next to the player. *)
Theorem police_on_the_chase_never_attack (w : World) (i pl : oid) (e : Enemy) (p : Player) :
  heap w !! i = Some (OEnemy e) ->
  heap w !! pl = Some (OPlayer p) ->
  0 < health e ->
  faction e = "Police" ->
  0 < wanted_level p ->
  exists w' e',
    Enemy.take_turn i pl w = Val tt w'
    /\ game w' = game w
    /\ heap w' !! i = Some (OEnemy e')
    /\ (forall k, k <> i -> heap w' !! k = heap w !! k).
Proof.
  intros He Hp Hh Hf Hw. unfold Enemy.take_turn.
  rewrite (bind_val _ _ _ _ _ (get_enemy_val _ _ _ He)).
  destruct (Z.leb_spec (health e) 0); [lia|].
  rewrite (bind_val _ _ _ _ _ (get_player_val _ _ _ Hp)). cbv beta zeta.
  rewrite Hf. rewrite String.eqb_refl.
  destruct (Z.ltb_spec 0 (wanted_level p)); [|lia]. cbn [andb].
  assert (Hmoved : exists b w1 e1,
    (if negb (Enemy.step (x p) (x e) =? 0) || negb (Enemy.step (y p) (y e) =? 0)
     then Enemy.move_towards i (x p) (y p) else ret false) w = Val b w1
    /\ game w1 = game w
    /\ heap w1 !! i = Some (OEnemy e1)
    /\ (forall k, k <> i -> heap w1 !! k = heap w !! k)).
  { destruct (negb _ || negb _).
    - destruct (move_towards_frame w i e (x p) (y p) He)
        as (b & w1 & H1 & Hg & Hk & e1 & He1). by exists b, w1, e1.
    - by exists false, w, e. }
  destruct Hmoved as (b & w1 & e1 & Hm & Hg1 & He1 & Hk1).
  rewrite (bind_val _ _ _ _ _ Hm). destruct b.
  - exists w1, e1. done.
  - destruct (move_randomly_frame w1 i e1 He1) as (b2 & w2 & H2 & Hg2 & Hk2 & e2 & He2).
    rewrite (bind_val _ _ _ _ _ H2). exists w2, e2. split_and!; try done.
    + congruence.
    + intros k Hk. rewrite Hk2, Hk1; done.
Qed.

Lemma police_on_the_chase_never_attack_witness :
  exists e p,
    dict_get (enemies (game police_arrived)) "police_2" = Some 20%nat
    /\ heap police_arrived !! 20%nat = Some (OEnemy e)
    /\ heap police_arrived !! 0%nat = Some (OPlayer p)
    /\ 0 < health e /\ faction e = "Police" /\ 0 < wanted_level p
    /\ exists w' e',
         Enemy.take_turn 20%nat 0%nat police_arrived = Val tt w'
         /\ game w' = game police_arrived
         /\ heap w' !! 20%nat = Some (OEnemy e')
         /\ (forall k, k <> 20%nat -> heap w' !! k = heap police_arrived !! k).
Proof.
  eexists _, _.
  split; [vm_compute; reflexivity|]. split; [vm_compute; reflexivity|].
  split; [vm_compute; reflexivity|]. split; [vm_compute; reflexivity|].
  split; [vm_compute; reflexivity|]. split; [vm_compute; reflexivity|].
  refine (police_on_the_chase_never_attack police_arrived 20%nat 0%nat _ _ _ _ _ _ _);
    vm_compute; reflexivity.
Defined.

(** ** The objects of the map *)

Lemma first_at_spec h px py objs :
  match GameMap.first_at h px py objs with
  | Some i =>
      exists before after o,
        objs = before ++ i :: after
        /\ h !! i = Some o /\ GameMap.stands_at o px py = true
        /\ forall j oj, In j before -> h !! j = Some oj ->
             GameMap.stands_at oj px py = false
  | None =>
      forall j oj, In j objs -> h !! j = Some oj -> GameMap.stands_at oj px py = false
  end.
Proof.
  induction objs as [|i objs IH]; cbn [GameMap.first_at].
  - by intros j oj [].
  - destruct (h !! i) as [o|] eqn:Hi.
    + destruct (GameMap.stands_at o px py) eqn:Hs.
      * exists [], objs, o. split_and!; try done; by intros j oj [].
      * destruct (GameMap.first_at h px py objs) as [k|].
        -- destruct IH as (before & after & ok & -> & Hk & Hsk & Hbefore).
           exists (i :: before), after, ok. split_and!; try done;
             intros j oj [->|Hj] Hoj; [congruence|by eapply Hbefore].
        -- intros j oj [->|Hj] Hoj; [congruence|by eapply IH].
    + destruct (GameMap.first_at h px py objs) as [k|].
      * destruct IH as (before & after & ok & -> & Hk & Hsk & Hbefore).
        exists (i :: before), after, ok. split_and!; try done;
          intros j oj [->|Hj] Hoj; [congruence|by eapply Hbefore].
      * intros j oj [->|Hj] Hoj; [congruence|by eapply IH].
Qed.

Lemma stands_at_covers (o : Obj) (px py : Z) :
  GameMap.stands_at o px py = true <-> covers o px py.
Proof.
  unfold covers, GameMap.stands_at. destruct o; cbn [obj_base];
    rewrite ?orb_true_iff, !andb_true_iff, !Z.eqb_eq;
    try (split; [by left|intros [?|(b' & ? & _)]; [done|discriminate]]).
  split.
  - intros [?|?]; [by left|right; eauto].
  - intros [?|(b' & Hb & ?)]; [by left|right]. by inversion Hb; subst.
Qed.

Lemma stands_at_not_covers (o : Obj) (px py : Z) :
  GameMap.stands_at o px py = false <-> ~ covers o px py.
Proof.
  rewrite <- stands_at_covers. by destruct (GameMap.stands_at o px py).
Qed.

(** X18: [get_object_at] only reads.  It returns the first object in
    map order that covers the cell -- with its position or, for Big
    Smoke, with his second tile -- and [None] exactly when no object of
    the map covers it; so it never answers [None] for the second tile of
    a Big Smoke that is on the map. *)
Theorem get_object_at_spec (w : World) (px py : Z) :
  exists r,
    GameMap.get_object_at px py w = Val r w
    /\ match r with
       | Some i =>
           exists before after o,
             objects (game_map (game w)) = before ++ i :: after
             /\ heap w !! i = Some o /\ covers o px py
             /\ forall j oj, In j before -> heap w !! j = Some oj -> ~ covers oj px py
       | None =>
           forall j oj, In j (objects (game_map (game w))) -> heap w !! j = Some oj ->
             ~ covers oj px py
       end
    /\ (forall j b,
          In j (objects (game_map (game w))) -> heap w !! j = Some (OBigSmoke b) ->
          char2_x b = px -> char2_y b = py -> r <> None).
Proof.
  exists (GameMap.first_at (heap w) px py (objects (game_map (game w)))).
  split; [reflexivity|].
  pose proof (first_at_spec (heap w) px py (objects (game_map (game w)))) as H.
  destruct (GameMap.first_at _ _ _ _) as [i|].
  - destruct H as (before & after & o & Hobjs & Hi & Hs & Hbefore). split; [|done].
    exists before, after, o. split_and!; [done|done|by apply stands_at_covers|].
    intros j oj Hj Hoj. apply stands_at_not_covers. by eapply Hbefore.
  - split.
    + intros j oj Hj Hoj. apply stands_at_not_covers. by eapply H.
    + intros j b Hj Hb Hx Hy _.
      apply (proj1 (stands_at_not_covers _ _ _) (H j _ Hj Hb)).
      right. by exists b.
Qed.

Lemma list_remove_last (i : oid) (l : list oid) :
  ~ In i l -> list_remove i (l ++ [i]) = l.
Proof.
  induction l as [|j l IH]; intros Hnot; cbn.
  - by rewrite Nat.eqb_refl.
  - destruct (Nat.eqb_spec j i) as [->|Hne]; [exfalso; apply Hnot; by left|].
    rewrite IH; [done|]. intros Hin. apply Hnot. by right.
Qed.

(** X19: an object put on the map is appended to the object list, and
    [remove_object] takes its first occurrence out again: adding an
    object that was not on the map and removing it gives the world back
    unchanged. *)
Theorem add_then_remove (w : World) (i : oid) :
  ~ In i (objects (game_map (game w))) ->
  (GameMap.add_object i ;; GameMap.remove_object i) w = Val tt w
  /\ objects (game_map (game (result_world (GameMap.add_object i w))))
     = objects (game_map (game w)) ++ [i].
Proof.
  intros Hnot. split; [|reflexivity].
  unfold GameMap.add_object, GameMap.remove_object. rewrite bind_update_game.
  unfold update_game, modify. wsimpl.
  assert (Hmem : list_mem i (objects (game_map (game w)) ++ [i]) = true).
  { apply list_mem_In'. apply in_or_app. right. by left. }
  rewrite Hmem, list_remove_last by done.
  destruct w as [h [[wd ht objs] pl r t n it s e v m ini] sin rs rp c d dw df]. reflexivity.
Qed.

Lemma add_then_remove_witness :
  ~ In 8%nat (objects (game_map (game (new_game []))))
  /\ (GameMap.add_object 8%nat ;; GameMap.remove_object 8%nat) (new_game [])
     = Val tt (new_game [])
  /\ objects (game_map (game (result_world (GameMap.add_object 8%nat (new_game [])))))
     = objects (game_map (game (new_game []))) ++ [8%nat].
Proof.
  assert (H : ~ In 8%nat (objects (game_map (game (new_game []))))).
  { vm_compute. intros H. repeat (destruct H as [H|H]; [discriminate H|]). exact H. }
  split; [exact H|]. exact (add_then_remove (new_game []) 8%nat H).
Defined.

(** ** Shops *)

Lemma get_shop_val w i s :
  heap w !! i = Some (OShop s) -> get_shop i w = Val s w.
Proof. intros H. unfold get_shop. rewrite (bind_val _ _ _ _ _ (deref_val _ _ _ H)). reflexivity. Qed.

Lemma get_item_val w i it :
  heap w !! i = Some (OItem it) -> get_item i w = Val it w.
Proof. intros H. unfold get_item. rewrite (bind_val _ _ _ _ _ (deref_val _ _ _ H)). reflexivity. Qed.

(** X20: one purchase.  A menu number outside [1 .. len(stock)] or a
    price above the player's money changes nothing.  Otherwise the price
    is taken from the money, which cannot go below 0 this way, and the
    stock item itself is appended to the inventory: the shop keeps its
    stock, so the same object can be bought again. *)
Theorem buy_spec (w : World) (s pl : oid) (shop : Shop) (p : Player) (choice : Z) :
  heap w !! s = Some (OShop shop) ->
  heap w !! pl = Some (OPlayer p) ->
  exists w',
    Shop.buy s pl choice w = Val tt w'
    /\ game w' = game w
    /\ heap w' !! s = Some (OShop shop)
    /\ (forall k, k <> pl -> heap w' !! k = heap w !! k)
    /\ match shop_inventory shop !! Z.to_nat (choice - 1) with
       | Some (item, price) =>
           if (1 <=? choice) && (price <=? money p)
           then heap w' !! pl = Some (OPlayer (bought p item price))
                /\ 0 <= money (bought p item price)
           else w' = w
       | None => w' = w
       end.
Proof.
  intros Hs Hp.
  assert (Hne : s <> pl) by (intros ->; congruence).
  unfold Shop.buy. rewrite (bind_val _ _ _ _ _ (get_shop_val _ _ _ Hs)).
  destruct (Z.leb_spec 1 choice) as [H1|H1]; cbn [andb].
  - destruct (Z.leb_spec choice (Z.of_nat (length (shop_inventory shop)))) as [H2|H2].
    + destruct (shop_inventory shop !! Z.to_nat (choice - 1)) as [[item price]|] eqn:Hit.
      * erewrite (bind_val (get_character pl)) by
          (eapply get_character_val; [exact Hp|reflexivity]).
        cbv beta. change (money (p : Character)) with (money p).
        destruct (Z.leb_spec price (money p)) as [H3|H3].
        -- erewrite (bind_val (on_character pl _)); cycle 1.
           { eapply on_character_val; [exact Hp|reflexivity]. }
           cbv beta. erewrite on_character_val; cycle 1.
           { cbn. apply list_lookup_insert_eq. eauto using lookup_lt_Some. }
           { reflexivity. }
           eexists. split; [reflexivity|]. cbn. rewrite list_insert_insert_eq.
           split_and!; try done.
           ++ by rewrite list_lookup_insert_ne.
           ++ intros k Hk. by rewrite list_lookup_insert_ne.
           ++ apply list_lookup_insert_eq. eauto using lookup_lt_Some.
           ++ lia.
        -- exists w. split_and!; done.
      * exists w. split_and!; done.
    + exists w. split_and!; try done.
      rewrite lookup_ge_None_2 by lia. done.
  - exists w. split_and!; try done.
    destruct (shop_inventory shop !! Z.to_nat (choice - 1)) as [[item price]|]; done.
Qed.

Lemma buy_spec_witness :
  (heap (new_game []) !! 14%nat = Some (OShop cluckin_bell)
   /\ heap (new_game []) !! 0%nat = Some (OPlayer cj))
  /\ exists w',
       Shop.buy 14%nat 0%nat 1 (new_game []) = Val tt w'
       /\ game w' = game (new_game [])
       /\ heap w' !! 14%nat = Some (OShop cluckin_bell)
       /\ (forall k, k <> 0%nat -> heap w' !! k = heap (new_game []) !! k)
       /\ match shop_inventory cluckin_bell !! Z.to_nat (1 - 1) with
          | Some (item, price) =>
              if (1 <=? 1) && (price <=? money cj)
              then heap w' !! 0%nat = Some (OPlayer (bought cj item price))
                   /\ 0 <= money (bought cj item price)
              else w' = new_game []
          | None => w' = new_game []
          end.
Proof.
  split; [split; reflexivity|].
  apply (buy_spec (new_game []) 14%nat 0%nat cluckin_bell cj 1); reflexivity.
Defined.

Lemma menu_loop_skips (w : World) (s pl : oid) (shop : Shop) (junk rest : list Line) :
  heap w !! s = Some (OShop shop) ->
  Forall (skipped (length (shop_inventory shop))) junk ->
  forall fuel w0,
    heap w0 = heap w ->
    stdin w0 = junk ++ cmd "0" :: rest ->
    (length junk < fuel)%nat ->
    Shop.menu_loop fuel s pl w0 = Val tt (with_stdin w0 rest).
Proof.
  intros Hs Hjunk. induction Hjunk as [|l junk [Hl Hv] _ IH]; intros fuel w0 Hh Hin Hfuel.
  - destruct fuel as [|fuel]; [lia|]. cbn [Shop.menu_loop].
    unfold input at 1. unfold bind at 1. rewrite Hin. cbn. reflexivity.
  - destruct fuel as [|fuel]; [cbn in Hfuel; lia|]. cbn [Shop.menu_loop].
    unfold input at 1. unfold bind at 1. rewrite Hin. cbn [app].
    apply String.eqb_neq in Hl. rewrite Hl.
    assert (Hnext : Shop.menu_loop fuel s pl (with_stdin w0 (junk ++ cmd "0" :: rest))
                    = Val tt (with_stdin w0 rest)).
    { rewrite (IH fuel (with_stdin w0 (junk ++ cmd "0" :: rest))); [done|done|done|].
      cbn in Hfuel. lia. }
    destruct (int_value l) as [c|]; [|exact Hnext].
    assert (Hbuy : Shop.buy s pl c (with_stdin w0 (junk ++ cmd "0" :: rest))
                   = Val tt (with_stdin w0 (junk ++ cmd "0" :: rest))).
    { unfold Shop.buy. erewrite (bind_val (get_shop s)); cycle 1.
      { apply get_shop_val. cbn. rewrite Hh. exact Hs. }
      destruct (Z.leb_spec 1 c); [|reflexivity].
      destruct (Z.leb_spec c (Z.of_nat (length (shop_inventory shop)))); [lia|reflexivity]. }
    rewrite (bind_val _ _ _ _ _ Hbuy). exact Hnext.
Qed.

(** X21: the shop menu reads lines until the line ["0"].  Lines that are
    no number or no entry of the menu are answered with a message and
    skipped: when only such lines come before the ["0"], the visit ends
    there with nothing bought and nothing changed but the input read. *)
Theorem shop_visit_without_purchase (w : World) (s pl : oid) (shop : Shop)
    (junk rest : list Line) :
  heap w !! s = Some (OShop shop) ->
  Forall (skipped (length (shop_inventory shop))) junk ->
  stdin w = junk ++ cmd "0" :: rest ->
  Shop.enter s pl w = Val tt (with_stdin w rest).
Proof.
  intros Hs Hjunk Hin. unfold Shop.enter. rewrite bind_gets.
  apply (menu_loop_skips w s pl shop junk rest Hs Hjunk); [done|done|].
  rewrite Hin, length_app. cbn. lia.
Qed.

Lemma shop_visit_without_purchase_witness :
  (heap (new_game (chatter ++ [cmd "0"; cmd "q"])) !! 14%nat = Some (OShop cluckin_bell)
   /\ Forall (skipped (length (shop_inventory cluckin_bell))) chatter
   /\ stdin (new_game (chatter ++ [cmd "0"; cmd "q"])) = chatter ++ cmd "0" :: [cmd "q"])
  /\ Shop.enter 14%nat 0%nat (new_game (chatter ++ [cmd "0"; cmd "q"]))
     = Val tt (with_stdin (new_game (chatter ++ [cmd "0"; cmd "q"])) [cmd "q"]).
Proof.
  assert (Hj : Forall (skipped (length (shop_inventory cluckin_bell))) chatter).
  { constructor; [split; [discriminate|exact I]|].
    constructor; [split; [discriminate|right; cbn; lia]|constructor]. }
  split; [split; [reflexivity|split; [exact Hj|reflexivity]]|].
  apply (shop_visit_without_purchase _ 14%nat 0%nat cluckin_bell chatter [cmd "q"]);
    [reflexivity|exact Hj|reflexivity].
Defined.

(** ** Using and picking up items *)

Lemma with_heap_same (w : World) (i : oid) (o : Obj) :
  heap w !! i = Some o -> with_heap w (<[i := o]> (heap w)) = w.
Proof.
  intros H. rewrite list_insert_id by done. by destruct w.
Qed.

(** Membership in the inventory of an updated player whose inventory is
    still that of [p]. *)
Ltac mem_inventory :=
  match goal with
  | Hmem : list_mem ?sel (inventory ?p) = true |- _ =>
      repeat match goal with
             | |- context [list_mem sel (inventory ?c)] =>
                 progress change (list_mem sel (inventory c))
                   with (list_mem sel (inventory p))
             end;
      rewrite Hmem
  end.

(** X22: the use command on the inventory entry [choice].  A health pack
    heals by its amount up to [max_health], food and drink restore
    hunger and thirst up to 100, and each of them is consumed: one
    occurrence leaves the inventory.  A weapon is taken in hand and stays
    in the inventory.  A money bundle or a plain item cannot be used:
    nothing changes, and in no case is the player's money touched. *)
Theorem use_item_spec (w : World) (pl sel : oid) (p : Player) (it : Item) (choice : Z) :
  heap w !! pl = Some (OPlayer p) ->
  1 <= choice ->
  inventory p !! Z.to_nat (choice - 1) = Some sel ->
  heap w !! sel = Some (OItem it) ->
  exists p',
    Game.use_item pl choice w = Val tt (with_heap w (<[pl := OPlayer p']> (heap w)))
    /\ money p' = money p
    /\ match variant it with
       | HealthPack h =>
           health p' = clamp (health p + h) 0 (max_health p)
           /\ hunger p' = hunger p /\ thirst p' = thirst p
           /\ inventory p' = list_remove sel (inventory p)
       | Food r =>
           hunger p' = clamp (hunger p + r) 0 100
           /\ health p' = health p /\ thirst p' = thirst p
           /\ inventory p' = list_remove sel (inventory p)
       | Drink r =>
           thirst p' = clamp (thirst p + r) 0 100
           /\ health p' = health p /\ hunger p' = hunger p
           /\ inventory p' = list_remove sel (inventory p)
       | Weapon _ =>
           current_weapon p' = Some sel
           /\ inventory p' = inventory p /\ health p' = health p
       | PlainItem | MoneyBundle _ => p' = p
       end.
Proof.
  intros Hp H1 Hsel Hit.
  assert (Hlen : (pl < length (heap w))%nat) by eauto using lookup_lt_Some.
  assert (Hmem : list_mem sel (inventory p) = true).
  { apply list_mem_In'. apply list_elem_of_In. eapply list_elem_of_lookup_2, Hsel. }
  assert (Hrange : (1 <=? choice) && (choice <=? Z.of_nat (length (inventory p))) = true).
  { apply lookup_lt_Some in Hsel. apply andb_true_intro. split; apply Z.leb_le; lia. }
  unfold Game.use_item. rewrite (bind_val _ _ _ _ _ (get_player_val _ _ _ Hp)).
  rewrite Hrange, Hsel. rewrite (bind_val _ _ _ _ _ (deref_val _ _ _ Hit)).
  destruct (variant it) as [|d|h|a|r|r] eqn:Hv.
  - exists p. rewrite with_heap_same by done. done.
  - unfold Character.equip_weapon.
    erewrite (bind_val (get_character pl)) by (eapply get_character_val; [exact Hp|reflexivity]).
    rewrite (bind_val _ _ _ _ _ (deref_val _ _ _ Hit)).
    change (inventory (p : Character)) with (inventory p). rewrite Hmem.
    unfold Item.is_Weapon. rewrite Hv. cbn [andb].
    erewrite on_character_val by (exact Hp || reflexivity).
    eexists. split; [reflexivity|]. done.
  - erewrite (bind_val (on_character pl _)); cycle 1.
    { eapply on_character_val; [exact Hp|reflexivity]. }
    erewrite (bind_val (on_character pl _)); cycle 1.
    { eapply on_character_val; [cbn; by apply list_lookup_insert_eq|reflexivity]. }
    unfold ret. cbn [heap with_heap]. rewrite list_insert_insert_eq.
    eexists. split; [reflexivity|].
    unfold Character.remove_item, Character.heal. cbn [fst snd obj_with_character].
    mem_inventory. destruct (same_ref _ sel); cbn; done.
  - exists p. rewrite with_heap_same by done. done.
  - erewrite (bind_val (update_player pl _)) by (apply update_player_val; exact Hp).
    erewrite (bind_val (on_character pl _)); cycle 1.
    { eapply on_character_val; [cbn; by apply list_lookup_insert_eq|reflexivity]. }
    unfold ret. cbn [heap with_heap]. rewrite list_insert_insert_eq.
    eexists. split; [reflexivity|].
    unfold Character.remove_item. cbn [fst snd obj_with_character].
    mem_inventory. destruct (same_ref _ sel); cbn; done.
  - erewrite (bind_val (update_player pl _)) by (apply update_player_val; exact Hp).
    erewrite (bind_val (on_character pl _)); cycle 1.
    { eapply on_character_val; [cbn; by apply list_lookup_insert_eq|reflexivity]. }
    unfold ret. cbn [heap with_heap]. rewrite list_insert_insert_eq.
    eexists. split; [reflexivity|].
    unfold Character.remove_item. cbn [fst snd obj_with_character].
    mem_inventory. destruct (same_ref _ sel); cbn; done.
Qed.

Lemma use_item_spec_witness :
  (heap before_last_shot !! 0%nat = Some (OPlayer armed_cj)
   /\ 1 <= 1
   /\ inventory armed_cj !! Z.to_nat (1 - 1) = Some 5%nat
   /\ heap before_last_shot !! 5%nat = Some (OItem shotgun))
  /\ exists p',
       Game.use_item 0%nat 1 before_last_shot
       = Val tt (with_heap before_last_shot (<[0%nat := OPlayer p']> (heap before_last_shot)))
       /\ money p' = money armed_cj
       /\ match variant shotgun with
          | HealthPack h =>
              health p' = clamp (health armed_cj + h) 0 (max_health armed_cj)
              /\ hunger p' = hunger armed_cj /\ thirst p' = thirst armed_cj
              /\ inventory p' = list_remove 5%nat (inventory armed_cj)
          | Food r =>
              hunger p' = clamp (hunger armed_cj + r) 0 100
              /\ health p' = health armed_cj /\ thirst p' = thirst armed_cj
              /\ inventory p' = list_remove 5%nat (inventory armed_cj)
          | Drink r =>
              thirst p' = clamp (thirst armed_cj + r) 0 100
              /\ health p' = health armed_cj /\ hunger p' = hunger armed_cj
              /\ inventory p' = list_remove 5%nat (inventory armed_cj)
          | Weapon _ =>
              current_weapon p' = Some 5%nat
              /\ inventory p' = inventory armed_cj /\ health p' = health armed_cj
          | PlainItem | MoneyBundle _ => p' = armed_cj
          end.
Proof.
  split.
  { split; [vm_compute; reflexivity|]. split; [lia|].
    split; vm_compute; reflexivity. }
  apply (use_item_spec before_last_shot 0%nat 5%nat armed_cj shotgun 1).
  - vm_compute; reflexivity.
  - lia.
  - vm_compute; reflexivity.
  - vm_compute; reflexivity.
Defined.

(** X23: picking up.  When the first object on the cell is an item, the
    interaction appends it to the player's inventory and takes it off
    the map.  The item object itself is not changed (it keeps its
    position), it stays in the [items] table, and the player's money is
    not touched, whatever the item is. *)
Theorem pick_up_spec (w : World) (pl i : oid) (p : Player) (it : Item) (px py : Z) :
  heap w !! pl = Some (OPlayer p) ->
  GameMap.first_at (heap w) px py (objects (game_map (game w))) = Some i ->
  heap w !! i = Some (OItem it) ->
  exists w',
    Game.interact_at pl px py w = Val true w'
    /\ heap w' = <[pl := OPlayer (with_character p
                                    (with_inventory p (inventory p ++ [i])))]> (heap w)
    /\ heap w' !! i = Some (OItem it)
    /\ objects (game_map (game w')) = list_remove i (objects (game_map (game w)))
    /\ items (game w') = items (game w)
    /\ enemies (game w') = enemies (game w)
    /\ running (game w') = running (game w).
Proof.
  intros Hp Hfirst Hit.
  assert (Hne : pl <> i) by (intros ->; congruence).
  unfold Game.interact_at, GameMap.get_object_at. msimpl. rewrite Hfirst.
  rewrite (bind_val _ _ _ _ _ (deref_val _ _ _ Hit)).
  erewrite (bind_val (on_character pl _)); cycle 1.
  { eapply on_character_val; [exact Hp|reflexivity]. }
  unfold GameMap.remove_object. rewrite bind_update_game. unfold ret.
  eexists. split; [reflexivity|]. wsimpl. cbn [heap game fst obj_with_character].
  assert (Hin : list_mem i (objects (game_map (game w))) = true).
  { apply list_mem_In'. pose proof (first_at_spec (heap w) px py (objects (game_map (game w)))) as H.
    rewrite Hfirst in H. destruct H as (b & a & o & -> & _). apply in_or_app. right. by left. }
  rewrite Hin. split_and!; try done. by rewrite list_lookup_insert_ne.
Qed.

Lemma pick_up_spec_witness :
  (heap (new_game []) !! 0%nat = Some (OPlayer cj)
   /\ GameMap.first_at (heap (new_game [])) 20 6 (objects (game_map (game (new_game []))))
      = Some 7%nat
   /\ heap (new_game []) !! 7%nat = Some (OItem cash_bundle))
  /\ exists w',
       Game.interact_at 0%nat 20 6 (new_game []) = Val true w'
       /\ heap w' = <[0%nat := OPlayer (with_character cj
                                 (with_inventory cj (inventory cj ++ [7%nat])))]>
                      (heap (new_game []))
       /\ heap w' !! 7%nat = Some (OItem cash_bundle)
       /\ objects (game_map (game w'))
          = list_remove 7%nat (objects (game_map (game (new_game []))))
       /\ items (game w') = items (game (new_game []))
       /\ enemies (game w') = enemies (game (new_game []))
       /\ running (game w') = running (game (new_game [])).
Proof.
  split; [split; [reflexivity|split; reflexivity]|].
  apply (pick_up_spec (new_game []) 0%nat 7%nat cj cash_bundle 20 6); reflexivity.
Defined.

(** ** Saving and loading *)

Lemma same_state_refl w : same_state w w.
Proof. by unfold same_state. Qed.

Lemma same_state_trans a b c : same_state a b -> same_state b c -> same_state a c.
Proof.
  unfold same_state. intros (-> & -> & -> & -> & -> & ->) (-> & -> & -> & -> & -> & ->).
  done.
Qed.

Lemma framed_eq_val {A} (m : M A) w a w' : framed eq m -> m w = Val a w' -> w' = w.
Proof. intros Hm H. specialize (Hm w). rewrite H in Hm. by cbn in Hm. Qed.

Lemma eq_trans_world (a b c : World) : a = b -> b = c -> a = c.
Proof. congruence. Qed.

Ltac reads_only H :=
  eapply framed_eq_val in H;
  [subst
  |first [ apply (framed_player_to_dict eq (fun _ => eq_refl) eq_trans_world)
         | apply (framed_get_player eq (fun _ => eq_refl) eq_trans_world)
         | apply (framed_dict_to_dict eq (fun _ => eq_refl) eq_trans_world); intros ?;
           first [ apply (framed_game_npc_to_dict eq (fun _ => eq_refl) eq_trans_world)
                 | apply (framed_bind eq eq_trans_world);
                   [ first [ apply (framed_get_shop eq (fun _ => eq_refl) eq_trans_world)
                           | apply (framed_get_enemy eq (fun _ => eq_refl) eq_trans_world)
                           | apply (framed_get_vehicle eq (fun _ => eq_refl) eq_trans_world) ]
                   | intros ?;
                     first [ apply (framed_shop_to_dict eq (fun _ => eq_refl) eq_trans_world)
                           | apply (framed_enemy_to_dict eq (fun _ => eq_refl) eq_trans_world)
                           | apply (framed_vehicle_to_dict eq (fun _ => eq_refl) eq_trans_world) ] ] ]
         | apply (framed_map_M eq (fun _ => eq_refl) eq_trans_world); intros ?;
           apply (framed_bind eq eq_trans_world);
           [ apply (framed_get_item eq (fun _ => eq_refl) eq_trans_world)
           | intros ?; apply (framed_ret eq (fun _ => eq_refl)) ] ] ].

Lemma save_game_inv (w w' : World) :
  Game.save_game w = Val tt w' ->
  exists data,
    w' = if disk_writable w
         then if disk_full w
              then with_console (with_disk w Malformed) (console w ++ [MsgSaveError])
              else with_console (with_disk w (Document data)) (console w ++ [MsgSaved])
         else with_console w (console w ++ [MsgSaveError]).
Proof.
  unfold Game.save_game. rewrite bind_get_game. intros H.
  apply bind_inv in H as (p & w1 & H1 & H). reads_only H1.
  apply bind_inv in H as (jp & w1 & H1 & H). reads_only H1.
  apply bind_inv in H as (jn & w1 & H1 & H). reads_only H1.
  apply bind_inv in H as (js & w1 & H1 & H). reads_only H1.
  apply bind_inv in H as (je & w1 & H1 & H). reads_only H1.
  apply bind_inv in H as (jv & w1 & H1 & H). reads_only H1.
  rewrite bind_gets in H. cbv beta zeta in H.
  apply bind_inv in H as (ji & w1 & H1 & H). reads_only H1.
  eexists. unfold try_except, json_dump_file in H. unfold bind at 1 in H.
  destruct (disk_writable w); [destruct (disk_full w)|].
  - unfold print, modify in H. by inversion H.
  - unfold print, modify in H. inversion H. reflexivity.
  - unfold print, modify in H. by inversion H.
Qed.

(** X24: saving never changes the game: whether [save_game] returns or
    raises, heap, game, console input and random source are as before.
    When it returns and the file could be written, the file holds the new
    document and "saved" is the last line printed.  When the file cannot
    be opened the error is caught, the file is left as it was and the
    error line is printed.  When the file was opened and a write fails,
    the error is caught too, but the file is left truncated: the save
    that was there before is lost. *)
Theorem save_game_spec (w : World) :
  same_state w (result_world (Game.save_game w))
  /\ forall w',
       Game.save_game w = Val tt w' ->
       if disk_writable w
       then if disk_full w
            then disk w' = Malformed /\ console w' = console w ++ [MsgSaveError]
            else (exists data, disk w' = Document data)
                 /\ console w' = console w ++ [MsgSaved]
       else disk w' = disk w /\ console w' = console w ++ [MsgSaveError].
Proof.
  split.
  - apply (framed_save_game same_state same_state_refl same_state_trans);
      intros; by unfold same_state.
  - intros w' H. apply save_game_inv in H as (data & ->).
    destruct (disk_writable w); [destruct (disk_full w)|]; cbn; eauto.
Qed.

Lemma save_game_spec_witness :
  (exists w',
     Game.save_game read_only_game = Val tt w'
     /\ same_state read_only_game w'
     /\ disk w' = disk read_only_game
     /\ console w' = console read_only_game ++ [MsgSaveError])
  /\ (exists w',
        Game.save_game saved_then_filled = Val tt w'
        /\ same_state saved_then_filled w'
        /\ disk saved_then_filled = Document (saved_document (new_game []))
        /\ disk w' = Malformed
        /\ console w' = console saved_then_filled ++ [MsgSaveError]).
Proof.
  assert (H1 : exists w', Game.save_game read_only_game = Val tt w')
    by (eexists; vm_compute; reflexivity).
  assert (H2 : exists w', Game.save_game saved_then_filled = Val tt w')
    by (eexists; vm_compute; reflexivity).
  destruct H1 as [w1 H1]. destruct H2 as [w2 H2]. split.
  - exists w1. split; [exact H1|].
    pose proof (save_game_spec read_only_game) as [Hs Hd].
    rewrite H1 in Hs. split; [exact Hs|]. exact (Hd w1 H1).
  - exists w2. split; [exact H2|].
    pose proof (save_game_spec saved_then_filled) as [Hs Hd].
    rewrite H2 in Hs. split; [exact Hs|].
    split; [vm_compute; reflexivity|]. exact (Hd w2 H2).
Defined.

(** X25: [load_game] never raises and never reports success.  Whatever
    the save file is -- missing, unreadable, not JSON, or any JSON
    document -- it returns after printing one of its three failure lines,
    and the world is then that of a new game. *)
Theorem load_game_never_raises (w : World) :
  exists msg,
    Game.load_game w = Val tt (fresh_world (with_console w (console w ++ [msg])))
    /\ (msg = MsgLoadNotFound \/ msg = MsgLoadCorrupt \/ exists e, msg = MsgLoadUnexpected e)
    /\ new_game_state (fresh_world (with_console w (console w ++ [msg]))).
Proof.
  destruct (load_game_val w) as (e & Hload & _).
  exists (load_report e). split; [exact Hload|]. split.
  - destruct e; cbn; eauto.
  - apply fresh_world_is_new_game.
Qed.

(** ** Police *)

(** X26: one round of [spawn_police] takes two draws of the random
    source and picks a cell that is always inside the grid and, for a
    player inside the grid, at most 5 columns and 5 rows away.  If some
    object of the map stands on that cell nothing is spawned; otherwise a
    new officer of faction "Police" with health 60 + 10 * wanted and
    damage 15 + 5 * wanted is created there, put on the map and entered
    in the enemies table under the key "police_" followed by the size of
    the table. *)
Theorem spawn_one_spec (w : World) (p : Player) :
  heap w !! player (game w) = Some (OPlayer p) ->
  exists sx sy,
    in_bounds sx sy = true
    /\ (0 <= x p < MAP_WIDTH -> Z.abs (sx - x p) <= 5)
    /\ (0 <= y p < MAP_HEIGHT -> Z.abs (sy - y p) <= 5)
    /\ Game.spawn_one w
       = Val tt
           (match GameMap.first_at (heap w) sx sy (objects (game_map (game w))) with
            | Some _ => with_random_pos w (random_pos w + 2)
            | None => with_officer w sx sy (wanted_level p)
            end).
Proof.
  intros Hp.
  set (r1 := Z.of_nat (random_source w (random_pos w)) mod 11).
  set (r2 := Z.of_nat (random_source w (S (random_pos w))) mod 11).
  assert (Hr1 : 0 <= r1 < 11) by (apply Z.mod_pos_bound; lia).
  assert (Hr2 : 0 <= r2 < 11) by (apply Z.mod_pos_bound; lia).
  exists (clamp (x p + (-5 + r1)) 0 (MAP_WIDTH - 1)),
         (clamp (y p + (-5 + r2)) 0 (MAP_HEIGHT - 1)).
  split_and!.
  - unfold in_bounds, clamp, MAP_WIDTH, MAP_HEIGHT.
    repeat (apply andb_true_intro; split); (apply Z.leb_le || apply Z.ltb_lt); lia.
  - unfold clamp, MAP_WIDTH. lia.
  - unfold clamp, MAP_HEIGHT. lia.
  - unfold Game.spawn_one. rewrite bind_get_game.
    rewrite (bind_val _ _ _ _ _ (get_player_val _ _ _ Hp)).
    unfold randint at 1, draw at 1. rewrite bind_bind. unfold bind at 1. rewrite bind_ret.
    cbv beta zeta.
    unfold randint at 1, draw at 1. rewrite bind_bind. unfold bind at 1. rewrite bind_ret.
    cbv beta. unfold GameMap.get_object_at. msimpl.
    change (5 - -5 + 1) with 11. fold r1.
    replace (random_source w (S (random_pos w)))
      with (random_source w (S (random_pos w))) by reflexivity. fold r2.
    replace (S (S (random_pos w))) with (random_pos w + 2)%nat by lia.
    destruct (GameMap.first_at _ _ _ _); [reflexivity|].
    unfold new at 1. unfold bind at 1. unfold GameMap.add_object. msimpl.
    unfold ret, with_officer, spawned_officer. wsimpl. reflexivity.
Qed.

Lemma spawn_one_spec_witness :
  heap (new_game []) !! player (game (new_game [])) = Some (OPlayer cj)
  /\ exists sx sy,
       in_bounds sx sy = true
       /\ (0 <= x cj < MAP_WIDTH -> Z.abs (sx - x cj) <= 5)
       /\ (0 <= y cj < MAP_HEIGHT -> Z.abs (sy - y cj) <= 5)
       /\ Game.spawn_one (new_game [])
          = Val tt
              (match GameMap.first_at (heap (new_game [])) sx sy
                       (objects (game_map (game (new_game [])))) with
               | Some _ => with_random_pos (new_game []) (random_pos (new_game []) + 2)
               | None => with_officer (new_game []) sx sy (wanted_level cj)
               end).
Proof.
  split; [reflexivity|].
  apply (spawn_one_spec (new_game []) cj). reflexivity.
Defined.

(** ** The fog of war *)

Lemma mark_spec rows nx ny :
  mask_ok rows -> in_bounds nx ny = true ->
  exists rows',
    Player.mark rows nx ny = Some rows'
    /\ mask_ok rows'
    /\ forall cx cy, 0 <= cx -> 0 <= cy ->
         discovered rows' cx cy
         = discovered rows cx cy || ((cx =? nx) && (cy =? ny)).
Proof.
  intros [Hlen Hrows] Hin. unfold in_bounds, MAP_WIDTH, MAP_HEIGHT in *.
  apply andb_prop in Hin as [Hin Hy2]. apply andb_prop in Hin as [Hin Hy1].
  apply andb_prop in Hin as [Hx1 Hx2].
  apply Z.leb_le in Hx1, Hy1. apply Z.ltb_lt in Hx2, Hy2.
  destruct (lookup_lt_is_Some_2 rows (Z.to_nat ny)) as [row Hrow]; [lia|].
  assert (Hrl : length row = Z.to_nat 80).
  { rewrite Forall_forall in Hrows. apply Hrows.
    eapply list_elem_of_lookup_2, Hrow. }
  unfold Player.mark. rewrite Hrow.
  destruct (Nat.ltb_spec (Z.to_nat nx) (length row)); [|lia].
  eexists. split; [reflexivity|]. split; [split|].
  - by rewrite length_insert.
  - apply Forall_insert; [done|]. by rewrite length_insert.
  - intros cx cy Hcx Hcy. unfold discovered.
    destruct (Z.eqb_spec cy ny) as [->|Hne].
    + rewrite list_lookup_insert_eq by lia. rewrite Hrow.
      destruct (Z.eqb_spec cx nx) as [->|Hnx].
      * rewrite list_lookup_insert_eq by lia. by rewrite orb_true_r.
      * rewrite list_lookup_insert_ne by lia. by rewrite orb_false_r.
    + rewrite list_lookup_insert_ne by lia. by rewrite andb_false_r, orb_false_r.
Qed.

Lemma discover_cells_spec (cells : list (Z * Z)) (px py : Z) : forall rows,
  mask_ok rows ->
  exists rows',
    Player.discover_cells cells px py rows = (rows', true)
    /\ mask_ok rows'
    /\ forall cx cy, 0 <= cx -> 0 <= cy ->
         discovered rows' cx cy
         = discovered rows cx cy
           || existsb (fun d => in_bounds (px + fst d) (py + snd d)
                                && (fst d * fst d + snd d * snd d
                                    <=? VISION_RADIUS * VISION_RADIUS)
                                && ((cx =? px + fst d) && (cy =? py + snd d))) cells.
Proof.
  induction cells as [|[dx dy] cells IH]; intros rows Hok.
  - exists rows. split_and!; try done. intros. by rewrite orb_false_r.
  - cbn [Player.discover_cells existsb fst snd].
    destruct (in_bounds (px + dx) (py + dy)) eqn:Hin; cbn [andb].
    + destruct (dx * dx + dy * dy <=? VISION_RADIUS * VISION_RADIUS) eqn:Hr.
      * destruct (mark_spec rows _ _ Hok Hin) as (rows1 & -> & Hok1 & H1).
        destruct (IH rows1 Hok1) as (rows' & -> & Hok' & H').
        exists rows'. split_and!; try done.
        intros cx cy Hcx Hcy. rewrite H', H1 by done. by rewrite orb_assoc.
      * destruct (IH rows Hok) as (rows' & -> & Hok' & H').
        exists rows'. split_and!; try done.
    + destruct (IH rows Hok) as (rows' & -> & Hok' & H').
      exists rows'. split_and!; try done.
Qed.

Lemma vision_cells_In (dx dy : Z) :
  In (dx, dy) Player.vision_cells
  <-> - VISION_RADIUS <= dx <= VISION_RADIUS /\ - VISION_RADIUS <= dy <= VISION_RADIUS.
Proof.
  unfold Player.vision_cells, Player.offsets. rewrite in_flat_map. split.
  - intros (dy' & Hdy & Hin). apply in_map_iff in Hin as (dx' & Heq & Hdx).
    inversion Heq; subst. apply list_elem_of_In, elem_of_seqZ in Hdy.
    apply list_elem_of_In, elem_of_seqZ in Hdx. unfold VISION_RADIUS in *. lia.
  - intros [Hdx Hdy]. exists dy. split.
    + apply list_elem_of_In, elem_of_seqZ. unfold VISION_RADIUS in *. lia.
    + apply in_map_iff. exists dx. split; [done|].
      apply list_elem_of_In, elem_of_seqZ. unfold VISION_RADIUS in *. lia.
Qed.

Lemma in_sight_cells (px py cx cy : Z) :
  existsb (fun d => in_bounds (px + fst d) (py + snd d)
                    && (fst d * fst d + snd d * snd d <=? VISION_RADIUS * VISION_RADIUS)
                    && ((cx =? px + fst d) && (cy =? py + snd d))) Player.vision_cells
  = in_sight px py cx cy.
Proof.
  unfold in_sight. apply eq_true_iff_eq. rewrite existsb_exists. split.
  - intros ([dx dy] & _ & H). cbn [fst snd] in H.
    apply andb_prop in H as [H Hc]. apply andb_prop in H as [Hb Hr].
    apply andb_prop in Hc as [Hx Hy]. apply Z.eqb_eq in Hx, Hy. subst.
    rewrite Hb. cbn [andb].
    replace (px + dx - px) with dx by lia. replace (py + dy - py) with dy by lia. done.
  - intros H. apply andb_prop in H as [Hb Hr]. exists (cx - px, cy - py). split.
    + apply vision_cells_In. apply Z.leb_le in Hr. unfold VISION_RADIUS in *.
      generalize dependent (cx - px). generalize dependent (cy - py). clear.
      intros b a Hr. pose proof (Z.square_nonneg a). pose proof (Z.square_nonneg b).
      repeat split; nia.
    + cbn [fst snd]. replace (px + (cx - px)) with cx by lia.
      replace (py + (cy - py)) with cy by lia.
      rewrite Hb, Hr, !Z.eqb_refl. done.
Qed.

(** X27: [discover_area] on a full-size fog mask never raises and keeps
    the mask full-size.  Afterwards a cell is discovered exactly when it
    was discovered before or lies inside the grid within the vision
    radius of the player: nothing is ever covered again, and this holds
    wherever the player stands, also outside the grid. *)
Theorem discover_area_spec (w : World) (pl : oid) (p : Player) :
  heap w !! pl = Some (OPlayer p) ->
  mask_ok (discovered_map p) ->
  exists rows,
    Player.discover_area pl w
    = Val tt (with_heap w (<[pl := OPlayer (with_discovered_map p rows)]> (heap w)))
    /\ mask_ok rows
    /\ forall cx cy, 0 <= cx -> 0 <= cy ->
         discovered rows cx cy
         = discovered (discovered_map p) cx cy || in_sight (x p) (y p) cx cy.
Proof.
  intros Hp Hok. unfold Player.discover_area.
  rewrite (bind_val _ _ _ _ _ (get_player_val _ _ _ Hp)). cbv zeta.
  destruct (discover_cells_spec Player.vision_cells (x p) (y p) _ Hok)
    as (rows & Hcells & Hok' & Hd).
  rewrite Hcells. cbn [fst snd]. rewrite bind_store.
  exists rows. split_and!; try done.
  intros cx cy Hcx Hcy. rewrite Hd by done. by rewrite in_sight_cells.
Qed.

Lemma mask_ok_cj : mask_ok (discovered_map cj).
Proof.
  split; [reflexivity|]. apply Forall_forall. intros row Hrow.
  unfold cj, Player_init in Hrow. cbn [discovered_map] in Hrow.
  apply elem_of_replicate in Hrow as [-> _]. by rewrite length_replicate.
Qed.

Lemma discover_area_spec_witness :
  (heap (new_game []) !! 0%nat = Some (OPlayer cj) /\ mask_ok (discovered_map cj))
  /\ exists rows,
       Player.discover_area 0%nat (new_game [])
       = Val tt (with_heap (new_game [])
                   (<[0%nat := OPlayer (with_discovered_map cj rows)]> (heap (new_game []))))
       /\ mask_ok rows
       /\ forall cx cy, 0 <= cx -> 0 <= cy ->
            discovered rows cx cy
            = discovered (discovered_map cj) cx cy || in_sight (x cj) (y cj) cx cy.
Proof.
  split; [split; [reflexivity|exact mask_ok_cj]|].
  apply (discover_area_spec (new_game []) 0%nat cj); [reflexivity|exact mask_ok_cj].
Defined.

(** ** Drawing the map *)

(** X28: with the player on foot and a full-size fog mask, drawing the
    map changes nothing, and it fails with [IndexError] exactly when the
    player's coordinates are no valid indices of the grid: [x] outside
    [-MAP_WIDTH, MAP_WIDTH) or [y] outside [-MAP_HEIGHT, MAP_HEIGHT).  A
    player one column right of the grid stops the program; negative
    coordinates down to minus the size are drawn wrapped around. *)
Theorem render_spec (w : World) (pl : oid) (p : Player) :
  heap w !! pl = Some (OPlayer p) ->
  current_vehicle p = None ->
  width (game_map (game w)) = MAP_WIDTH ->
  height (game_map (game w)) = MAP_HEIGHT ->
  mask_ok (discovered_map p) ->
  GameMap.render pl w
  = if (- MAP_HEIGHT <=? y p) && (y p <? MAP_HEIGHT)
       && ((- MAP_WIDTH <=? x p) && (x p <? MAP_WIDTH))
    then Val tt w else Raise IndexError w.
Proof.
  intros Hp Hveh Hwd Hht [Hlen Hrows]. unfold GameMap.render. rewrite bind_gets.
  rewrite (bind_val _ _ _ _ _ (get_player_val _ _ _ Hp)). rewrite Hveh, bind_ret.
  unfold GameMap.index_ok. rewrite Hwd, Hht.
  destruct ((- MAP_HEIGHT <=? y p) && (y p <? MAP_HEIGHT)
            && ((- MAP_WIDTH <=? x p) && (x p <? MAP_WIDTH))); [|reflexivity].
  rewrite bind_ret.
  assert (Hmask : (Z.to_nat MAP_HEIGHT <=? length (discovered_map p))%nat
                  && forallb (fun row => (Z.to_nat MAP_WIDTH <=? length row)%nat)
                       (take (Z.to_nat MAP_HEIGHT) (discovered_map p)) = true).
  { apply andb_true_intro. split.
    - apply Nat.leb_le. lia.
    - apply forallb_forall. intros row Hrow. apply Nat.leb_le.
      rewrite Forall_forall in Hrows. rewrite (Hrows row); [lia|].
      apply list_elem_of_In in Hrow. by apply elem_of_take in Hrow as (i & Hi & _);
        eapply list_elem_of_lookup_2. }
  rewrite Hmask. by rewrite orb_true_r.
Qed.

Lemma render_spec_witness :
  (heap (new_game []) !! 0%nat = Some (OPlayer cj)
   /\ current_vehicle cj = None
   /\ width (game_map (game (new_game []))) = MAP_WIDTH
   /\ height (game_map (game (new_game []))) = MAP_HEIGHT
   /\ mask_ok (discovered_map cj))
  /\ GameMap.render 0%nat (new_game []) = Val tt (new_game []).
Proof.
  split; [repeat split; try reflexivity; exact (proj2 mask_ok_cj)|].
  apply (render_spec (new_game []) 0%nat cj);
    [reflexivity|reflexivity|reflexivity|reflexivity|exact mask_ok_cj].
Defined.
